(** * The HTTP transfer client of jfrog-client-go ([http/httpclient/client.go])

    A shallow embedding of the request pipeline, the retry wiring, the
    chunk partition and join of the concurrent download, the upload path
    and the checksum verifier, together with the properties the
    specification states about them.

    Conventions.
    - Go's [int64] (and [int], taken as 64 bits wide) is [Z] with the
      wrap-around written out ([Int64.wrap]).
    - A Go [string] is a byte string: [string] of 8-bit [ascii].
    - A nil pointer, a nil [error] and a nil byte slice are [None]; an
      [error] is represented by its message.
    - [http.Header] is a finite map from canonical header names to the list
      of values stored under that name.
    - A run-time panic is an explicit outcome of the functions that can
      raise one.
    - Logging has no effect on any result and is left out, and so is the
      progress reporter, a pure observer of the streams it wraps.

    The first part of the file holds the embedding, the second part the
    lemmas and theorems. *)

From Stdlib Require Import ZArith Lia Bool List Ascii String DecimalString
  DecimalPos.
From stdpp Require Import base option list gmap strings.

Local Open Scope Z_scope.

(** * Part I: the embedding *)

(** ** 64-bit signed arithmetic *)

Module Int64.

Definition min_int : Z := - 2 ^ 63.
Definition max_int : Z := 2 ^ 63 - 1.

Definition wrap (z : Z) : Z := (z + 2 ^ 63) mod 2 ^ 64 - 2 ^ 63.

Definition in_range (z : Z) : Prop := min_int <= z <= max_int.

Definition add (a b : Z) : Z := wrap (a + b).
Definition sub (a b : Z) : Z := wrap (a - b).
Definition mul (a b : Z) : Z := wrap (a * b).

(** Go's [/] truncates toward zero and [%] takes the sign of the dividend;
    a zero divisor panics, which the callers handle before dividing. *)
Definition quo (a b : Z) : Z := wrap (Z.quot a b).
Definition rem (a b : Z) : Z := wrap (Z.rem a b).

End Int64.

(** ** Strings and the encodings of the Go standard library *)

Definition Error : Type := string.

(** [len(s)] *)
Definition len (s : string) : Z := Z.of_nat (String.length s).

(** [strings.HasPrefix(s, prefix)] *)
Definition HasPrefix (s pre : string) : bool := String.prefix pre s.

(** [strings.Contains(s, substr)] *)
Fixpoint Contains (s substr : string) : bool :=
  String.prefix substr s ||
  match s with
  | EmptyString => false
  | String _ rest => Contains rest substr
  end.

Definition dquote : string := String (ascii_of_nat 34) EmptyString.
Definition newline : string := String (ascii_of_nat 10) EmptyString.

(** The [%q] verb, for the strings met here (printable, without quotes or
    backslashes, where quoting only adds the surrounding quotes). *)
Definition quoted (s : string) : string := dquote +:+ s +:+ dquote.

Module strconv.

(** [strconv.FormatInt(i, 10)] and [strconv.Itoa(i)] *)
Definition FormatInt (i : Z) : string := NilZero.string_of_int (Z.to_int i).
Definition Itoa (i : Z) : string := FormatInt i.

Definition isDigit (c : ascii) : bool :=
  let n := N_of_ascii c in ((48 <=? n) && (n <=? 57))%N.

Definition digitVal (c : ascii) : Z := Z.of_N (N_of_ascii c) - 48.

(** The digits of [s] read as a decimal number, [None] on any other byte. *)
Fixpoint parseDigits (s : string) (acc : Z) : option Z :=
  match s with
  | EmptyString => Some acc
  | String c rest =>
      if isDigit c then parseDigits rest (acc * 10 + digitVal c) else None
  end.

Definition lowerhex : string := "0123456789abcdef".

Definition hexDigit (n : N) : ascii :=
  match String.get (N.to_nat n) lowerhex with
  | Some c => c
  | None => "0"%char
  end.

(** What [strconv.Quote] writes for one byte below 128: a backslash before
    a double quote and before a backslash; the printable bytes, from the
    space to the tilde, as they are; the short escapes of the seven control
    bytes that have one; and [\x] with two hexadecimal digits for the other
    control bytes and for the byte 127. *)
Definition escapeByte (c : ascii) : string :=
  let n := N_of_ascii c in
  if ((n =? 34) || (n =? 92))%N then String "\" (String c EmptyString)
  else if ((32 <=? n) && (n <? 127))%N then String c EmptyString
  else if (n =? 7)%N then "\a"
  else if (n =? 8)%N then "\b"
  else if (n =? 12)%N then "\f"
  else if (n =? 10)%N then "\n"
  else if (n =? 13)%N then "\r"
  else if (n =? 9)%N then "\t"
  else if (n =? 11)%N then "\v"
  else String "\" (String "x" (String (hexDigit (n / 16))
                                 (String (hexDigit (n mod 16)) EmptyString))).

Fixpoint escapeBytes (s : string) : string :=
  match s with
  | EmptyString => EmptyString
  | String c rest => escapeByte c +:+ escapeBytes rest
  end.

Fixpoint isASCII (s : string) : bool :=
  match s with
  | EmptyString => true
  | String c rest => (N_of_ascii c <? 128)%N && isASCII rest
  end.

(** [strconv.Quote(s)], which the [%q] verb and the message of a
    [*strconv.NumError] use. On a string of bytes below 128 it is the
    escaped bytes between double quotes. On any other string the result
    depends on the decoding of UTF-8 and on the tables of printable runes
    of the Go library, which are not part of the sources at hand:
    [quoteRunes] stands for [strconv.Quote] on those strings. *)
Definition Quote (quoteRunes : string -> string) (s : string) : string :=
  if isASCII s
  then String (ascii_of_nat 34) (escapeBytes s +:+ String (ascii_of_nat 34) "")
  else quoteRunes s.

(** The message of the [*strconv.NumError] that [ParseInt] returns. *)
Definition syntaxError (quoteRunes : string -> string) (s : string) : Error :=
  "strconv.ParseInt: parsing " +:+ Quote quoteRunes s +:+ ": invalid syntax".
Definition rangeError (quoteRunes : string -> string) (s : string) : Error :=
  "strconv.ParseInt: parsing " +:+ Quote quoteRunes s
    +:+ ": value out of range".

(** [strconv.ParseInt(s, 10, 64)]: an optional sign, then at least one
    digit and only digits; a value outside [int64] is clamped and reported
    as a range error. *)
Definition ParseInt (quoteRunes : string -> string) (s : string)
    : Z * option Error :=
  match s with
  | EmptyString => (0, Some (syntaxError quoteRunes s))
  | String c rest =>
      let neg := Ascii.eqb c "-" in
      let digits := if neg || Ascii.eqb c "+" then rest else s in
      match digits with
      | EmptyString => (0, Some (syntaxError quoteRunes s))
      | _ =>
          match parseDigits digits 0 with
          | None => (0, Some (syntaxError quoteRunes s))
          | Some u =>
              if negb neg && (Int64.max_int <? u)
              then (Int64.max_int, Some (rangeError quoteRunes s))
              else if neg && (- Int64.min_int <? u)
              then (Int64.min_int, Some (rangeError quoteRunes s))
              else (if neg then - u else u, None)
          end
      end
  end.

End strconv.

Module hex.

Definition hextable : string := "0123456789abcdef".

Definition digit (n : N) : ascii :=
  match String.get (N.to_nat n) hextable with
  | Some c => c
  | None => "0"%char
  end.

(** [hex.EncodeToString(src)] *)
Fixpoint EncodeToString (src : string) : string :=
  match src with
  | EmptyString => EmptyString
  | String c rest =>
      let n := N_of_ascii c in
      String (digit (n / 16)) (String (digit (n mod 16)) (EncodeToString rest))
  end.

End hex.

Module base64.

Definition encodeStd : string :=
  "ABCDEFGHIJKLMNOPQRSTUVWXYZabcdefghijklmnopqrstuvwxyz0123456789+/".

Definition sextet (n : N) : ascii :=
  match String.get (N.to_nat (n mod 64)) encodeStd with
  | Some c => c
  | None => "="%char
  end.

(** [base64.StdEncoding.EncodeToString(src)]: three bytes give four
    sextets; a last group of one or two bytes is padded with [=]. *)
Fixpoint EncodeToString (src : string) : string :=
  match src with
  | EmptyString => EmptyString
  | String a EmptyString =>
      let v := (N_of_ascii a * 65536)%N in
      String (sextet (v / 262144)) (String (sextet (v / 4096)) "==")
  | String a (String b EmptyString) =>
      let v := (N_of_ascii a * 65536 + N_of_ascii b * 256)%N in
      String (sextet (v / 262144)) (String (sextet (v / 4096))
        (String (sextet (v / 64)) "="))
  | String a (String b (String c rest)) =>
      let v := (N_of_ascii a * 65536 + N_of_ascii b * 256 + N_of_ascii c)%N in
      String (sextet (v / 262144)) (String (sextet (v / 4096))
        (String (sextet (v / 64)) (String (sextet v) (EncodeToString rest))))
  end.

End base64.

Module textproto.

Definition isLower (c : ascii) : bool :=
  let n := N_of_ascii c in ((97 <=? n) && (n <=? 122))%N.
Definition isUpper (c : ascii) : bool :=
  let n := N_of_ascii c in ((65 <=? n) && (n <=? 90))%N.
Definition toUpper (c : ascii) : ascii :=
  if isLower c then ascii_of_N (N_of_ascii c - 32) else c.
Definition toLower (c : ascii) : ascii :=
  if isUpper c then ascii_of_N (N_of_ascii c + 32) else c.

(** The bytes of an RFC 7230 token. *)
Definition validHeaderFieldByte (c : ascii) : bool :=
  isLower c || isUpper c || strconv.isDigit c ||
  existsb (Ascii.eqb c) (list_ascii_of_string "!#$%&'*+-.^_`|~").

Fixpoint allValid (s : string) : bool :=
  match s with
  | EmptyString => true
  | String c rest => validHeaderFieldByte c && allValid rest
  end.

(** Upper case for the first letter and for a letter after a dash, lower
    case elsewhere. *)
Fixpoint capitalize (upper : bool) (s : string) : string :=
  match s with
  | EmptyString => EmptyString
  | String c rest =>
      let c' := if upper then toUpper c else toLower c in
      String c' (capitalize (Ascii.eqb c' "-") rest)
  end.

(** [textproto.CanonicalMIMEHeaderKey(s)]: a key holding a byte that is
    not a token byte is returned unchanged. *)
Definition CanonicalMIMEHeaderKey (s : string) : string :=
  if allValid s then capitalize true s else s.

End textproto.

(** ** [http.Header] *)

Abbreviation Header := (gmap string (list string)).

(** [h.Set(key, value)] *)
Definition Header_Set (key value : string) (h : Header) : Header :=
  <[textproto.CanonicalMIMEHeaderKey key := [value]]> h.

(** [h.Get(key)] *)
Definition Header_Get (key : string) (h : Header) : string :=
  match h !! textproto.CanonicalMIMEHeaderKey key with
  | Some (v :: _) => v
  | _ => EmptyString
  end.

(** [h.Values(key)]: every value the header carries under that name. *)
Definition Header_Values (key : string) (h : Header) : list string :=
  default [] (h !! textproto.CanonicalMIMEHeaderKey key).

(** ** Requests, responses and request details *)

(** [http.Request], the fields the client reads or writes. *)
Record Request : Type := mkRequest {
  req_Method : string;
  req_URL : string;
  req_Header : Header;
  req_Body : option string;
  req_Close : bool;
  req_ContentLength : Z
}.

(** A response body stream: the bytes [io.ReadAll] obtains from it, the
    error the read ends with, and the error [Close] returns. *)
Record BodyStream : Type := mkBody {
  body_data : string;
  body_readErr : option Error;
  body_closeErr : option Error
}.

(** [http.Response]; the client of the standard library always supplies a
    body. *)
Record Response : Type := mkResponse {
  resp_Status : string;
  resp_StatusCode : Z;
  resp_Header : Header;
  resp_Body : BodyStream
}.

(** [httputils.HttpClientDetails]. A pre-retry interceptor is a closure
    without arguments: it reads and may change the state [St] of the
    world. A nil [Headers] map and an empty one behave alike everywhere
    and are both the empty map. *)
Record HttpClientDetails (St : Type) : Type := mkDetails {
  User : string;
  Password : string;
  ApiKey : string;
  AccessToken : string;
  Headers : gmap string string;
  PreRetryInterceptors : list (St -> bool * St)
}.
Arguments mkDetails {St}.
Arguments User {St}.
Arguments Password {St}.
Arguments ApiKey {St}.
Arguments AccessToken {St}.
Arguments Headers {St}.
Arguments PreRetryInterceptors {St}.

Definition StatusOK : Z := 200.
Definition StatusCreated : Z := 201.
Definition StatusAccepted : Z := 202.
Definition StatusPartialContent : Z := 206.
Definition StatusTooManyRequests : Z := 429.
Definition MethodPost : string := "POST".
Definition MethodPut : string := "PUT".

Definition apiKeyPrefix : string := "AKCp8".
Definition apiKeyMinimalLength : Z := 73.
Definition uberTraceIdHeader : string := "uber-trace-id".

Definition IsApiKey (key : string) : bool :=
  HasPrefix key apiKeyPrefix && (apiKeyMinimalLength <=? len key).

Definition setHeader (key value : string) (req : Request) : Request :=
  mkRequest (req_Method req) (req_URL req)
    (Header_Set key value (req_Header req))
    (req_Body req) (req_Close req) (req_ContentLength req).

Definition setClose (req : Request) : Request :=
  mkRequest (req_Method req) (req_URL req) (req_Header req)
    (req_Body req) true (req_ContentLength req).

Definition setContentLength (size : Z) (req : Request) : Request :=
  mkRequest (req_Method req) (req_URL req) (req_Header req)
    (req_Body req) (req_Close req) size.

(** [req.SetBasicAuth(username, password)] *)
Definition SetBasicAuth (username password : string) (req : Request) : Request :=
  setHeader "Authorization"
    ("Basic " +:+ base64.EncodeToString (username +:+ ":" +:+ password)) req.

(** ** Authentication *)

Definition setAuthentication {St} (req : Request)
    (httpClientsDetails : HttpClientDetails St) : Request :=
  if negb (String.eqb (ApiKey httpClientsDetails) "") then
    if negb (String.eqb (User httpClientsDetails) "") then
      SetBasicAuth (User httpClientsDetails) (ApiKey httpClientsDetails) req
    else
      setHeader "X-JFrog-Art-Api" (ApiKey httpClientsDetails) req
  else if negb (String.eqb (AccessToken httpClientsDetails) "") then
    if IsApiKey (AccessToken httpClientsDetails) then
      SetBasicAuth (User httpClientsDetails) (AccessToken httpClientsDetails) req
    else
      setHeader "Authorization"
        ("Bearer " +:+ AccessToken httpClientsDetails) req
  else if negb (String.eqb (Password httpClientsDetails) "") then
    SetBasicAuth (User httpClientsDetails) (Password httpClientsDetails) req
  else req.

(** ** Header composition *)

(** The process-wide variable [uberTraceIdToken]. *)
Record Globals : Type := mkGlobals {
  uberTraceIdToken : string
}.

Definition SetUberTraceIdToken (traceIdToken : string) (g : Globals) : Globals :=
  mkGlobals (traceIdToken +:+ ":" +:+ traceIdToken +:+ ":0:0").

Definition addUberTraceIdHeaderIfSet (g : Globals) (req : Request) : Request :=
  if String.eqb (uberTraceIdToken g) "" then req
  else setHeader uberTraceIdHeader (uberTraceIdToken g) req.

(** [userAgent] is the value of [utils.GetUserAgent()]. *)
Definition addUserAgentHeader (userAgent : string) (req : Request) : Request :=
  setHeader "User-Agent" userAgent req.

(** [copyHeaders]: [entries] lists the entries of the [Headers] map in the
    order in which the [range] loop visits them; Go leaves that order
    unspecified. *)
Definition copyHeaders (entries : list (string * string)) (req : Request)
    : Request :=
  foldl (fun r kv => setHeader kv.1 kv.2 r) req entries.

Definition setRequestHeaders (entries : list (string * string)) (size : Z)
    (req : Request) : Request :=
  setHeader "Content-Length" (strconv.FormatInt size) (copyHeaders entries req).

(** The four decoration steps at the head of [doRequest]. *)
Definition decorateRequest {St} (g : Globals) (userAgent : string)
    (entries : list (string * string)) (req : Request)
    (httpClientsDetails : HttpClientDetails St) : Request :=
  addUberTraceIdHeaderIfSet g
    (copyHeaders entries
       (addUserAgentHeader userAgent
          (setAuthentication (setClose req) httpClientsDetails))).

(** ** The retry predicate of [Send] *)

(** The loop over the pre-retry interceptors: it leaves at the first one
    that answers false. *)
Fixpoint runInterceptors {St} (l : list (St -> bool * St)) (s : St)
    : bool * St :=
  match l with
  | [] => (true, s)
  | f :: rest =>
      let '(b, s') := f s in
      if negb b then (false, s') else runInterceptors rest s'
  end.

Definition shouldRetry {St} (resp : Response)
    (httpClientsDetails : HttpClientDetails St) (s : St) : bool * St :=
  if (resp_StatusCode resp <? 500)
     && negb (resp_StatusCode resp =? StatusTooManyRequests)
  then (false, s)
  else runInterceptors (PreRetryInterceptors httpClientsDetails) s.

(** ** Errors *)

(** Modelled from the spec: [errorutils.CheckError], of the package
    [utils/errorutils], which is not part of the sources at hand. The
    specification has errors propagate unchanged, so the helper passes its
    argument on, nil as nil. *)
Definition CheckError (err : option Error) : option Error := err.

(** Modelled from the spec: [errorutils.CheckErrorf], of the same absent
    package: an error whose message is the formatted text. [msg] is the
    text once formatted. *)
Definition CheckErrorf (msg : string) : option Error := CheckError (Some msg).

(** [errors.Join(a, b)]: nil operands are dropped, and the messages that
    remain are joined by a newline. *)
Definition Join (a b : option Error) : option Error :=
  match a, b with
  | None, None => None
  | Some x, None => Some x
  | None, Some y => Some y
  | Some x, Some y => Some (x +:+ newline +:+ y)
  end.

(** The message of a [*url.Error]: [Op "URL": Err]. *)
Definition urlError (op url : string) (err : Error) : Error :=
  op +:+ " " +:+ quoted url +:+ ": " +:+ err.

Fixpoint lowerAll (s : string) : string :=
  match s with
  | EmptyString => EmptyString
  | String c rest => String (textproto.toLower c) (lowerAll rest)
  end.

(** [urlErrorOp] of [net/http]: the method with its first letter kept and
    the other letters in lower case. *)
Definition urlErrorOp (method : string) : string :=
  match method with
  | EmptyString => "Get"
  | String c rest => String c (lowerAll rest)
  end.

(** ** The world around the client *)

(** What one exchange over the transport yields to [http.Client.Do]: a
    transport error; a response the client returns as it is; or a 3xx
    response the client is ready to follow, with its [Location] value and
    the request for the next hop that [net/http] has built from it. *)
Inductive RoundTrip : Type :=
| RTError (e : Error)
| RTFinal (resp : Response)
| RTRedirect (resp : Response) (loc : string) (next : Request).

(** The answer of a [CheckRedirect] callback. *)
Inductive CheckResult : Type :=
| RedirectOk
| RedirectErr (e : Error)
| RedirectUseLastResponse.

(** An [*os.File] opened for reading. *)
Record File : Type := mkFile {
  file_data : string;
  file_statErr : option Error;
  file_closeErr : option Error
}.

(** Everything outside the client, over a state [St] that every operation
    may read and change: the transport with the network and the servers
    behind it, the clock, the file system, the order in which the runtime
    walks a map, the validation [http.NewRequest] performs on a method and
    a URL, the user-agent string of [utils.GetUserAgent], and what
    [strconv.Quote] gives for a string that holds a byte outside ASCII. *)
Record World (St : Type) : Type := mkWorld {
  roundTrip : Request -> St -> RoundTrip * St;
  sleep : Z -> St -> St;
  osOpen : string -> St -> (Error + File) * St;
  rangeOrder : gmap string string -> St -> list (string * string);
  newRequestErr : string -> string -> option Error;
  GetUserAgent : string;
  quoteRunes : string -> string
}.
Arguments mkWorld {St}.
Arguments roundTrip {St}.
Arguments sleep {St}.
Arguments osOpen {St}.
Arguments rangeOrder {St}.
Arguments newRequestErr {St}.
Arguments GetUserAgent {St}.
Arguments quoteRunes {St}.

(** [HttpClient]. Of the [*http.Client] only the redirect callback is kept
    here; its transport, timeout and cookie jar are part of the world. The
    context, when there is one, is seen through the test whether it is
    done. *)
Record HttpClient (St : Type) : Type := mkHttpClient {
  client_CheckRedirect : option (Request -> list Request -> CheckResult);
  ctx : option (St -> bool);
  retries : Z;
  retryWaitMilliSecs : Z
}.
Arguments mkHttpClient {St}.
Arguments client_CheckRedirect {St}.
Arguments ctx {St}.
Arguments retries {St}.
Arguments retryWaitMilliSecs {St}.

(** ** [http.Client.Do] *)

(** The redirect callback in force: the one of the client ([None] is the
    default of [net/http], which gives up after ten requests), or the
    closure [doRequest] installs on a clone of the client, which records
    the target and refuses the redirect. *)
Inductive RedirectPolicy : Type :=
| ClientPolicy (check : option (Request -> list Request -> CheckResult))
| CapturePolicy.

Inductive DoOutcome : Type :=
| DoOk (resp : Response)
| DoFail (resp : option Response) (err : Error).

Definition outResp (o : DoOutcome) : option Response :=
  match o with
  | DoOk resp => Some resp
  | DoFail resp _ => resp
  end.

Definition outErr (o : DoOutcome) : option Error :=
  match o with
  | DoOk _ => None
  | DoFail _ err => Some err
  end.

Definition defaultCheckRedirect (req : Request) (via : list Request)
    : CheckResult :=
  if (10 <=? length via)%nat then RedirectErr "stopped after 10 redirects"
  else RedirectOk.

(** [client.Do(req)]. [first] is the request the call started with, [via]
    the requests already made. The result carries the outcome and the value
    the capturing closure has left in [redirectUrl]. [None]: the redirects
    did not end within [fuel] hops. *)
Fixpoint clientDo {St} (W : World St) (fuel : nat) (policy : RedirectPolicy)
    (first : Request) (via : list Request) (req : Request) (s : St)
    : option (DoOutcome * string * St) :=
  match fuel with
  | O => None
  | S fuel' =>
      let '(rt, s') := roundTrip W req s in
      let op := urlErrorOp (req_Method first) in
      match rt with
      | RTError e => Some (DoFail None (urlError op (req_URL req) e), "", s')
      | RTFinal resp => Some (DoOk resp, "", s')
      | RTRedirect resp loc next =>
          let via' := via ++ [req] in
          match policy with
          | CapturePolicy =>
              Some (DoFail (Some resp) (urlError op loc "redirect"),
                    req_URL next, s')
          | ClientPolicy check =>
              match default defaultCheckRedirect check next via' with
              | RedirectUseLastResponse => Some (DoOk resp, "", s')
              | RedirectErr e =>
                  Some (DoFail (Some resp) (urlError op loc e), "", s')
              | RedirectOk => clientDo W fuel' policy first via' next s'
              end
          end
      end
  end.

(** ** The retry executor *)

(** Modelled from the spec: [utils.RetryExecutor] with its method
    [Execute], of the package [utils], which is not part of the sources at
    hand. Section 4.1 of the specification: the handler is invoked up to
    [MaxRetries + 1] times; an answer (false, err) ends the run with err,
    nil included; an answer (true, _) schedules another attempt if one
    remains; between two attempts the executor returns the cancellation
    error if the context is done and waits the interval otherwise; on
    exhaustion the last error is returned under the error message of the
    executor (the message alone when the last attempt gave no error).

    [H] is the state of the variables the handler closes over; the handler
    answers [None] when a call it makes runs out of fuel. *)
Record RetryExecutor (St H : Type) : Type := mkRetryExecutor {
  Context : option (St -> bool);
  MaxRetries : Z;
  RetriesIntervalMilliSecs : Z;
  LogMsgPrefix : string;
  ErrorMessage : string;
  ExecutionHandler : H -> St -> option (bool * option Error * H * St)
}.
Arguments mkRetryExecutor {St H}.
Arguments Context {St H}.
Arguments MaxRetries {St H}.
Arguments RetriesIntervalMilliSecs {St H}.
Arguments LogMsgPrefix {St H}.
Arguments ErrorMessage {St H}.
Arguments ExecutionHandler {St H}.

(** Modelled from the spec: the error of a run that has used up its
    attempts. *)
Definition exhaustedError (message : string) (last : option Error) : Error :=
  match last with
  | Some e => message +:+ ": " +:+ e
  | None => message
  end.

(** Whether the context of the executor, if it has one, is done. *)
Definition contextDone {St} (c : option (St -> bool)) (s : St) : bool :=
  match c with
  | Some done => done s
  | None => false
  end.

(** Modelled from the spec: the loop of [Execute], with [attempts]
    attempts left and [last] the error of the previous attempt. *)
Fixpoint retryLoop {St H} (W : World St) (runner : RetryExecutor St H)
    (attempts : nat) (last : option Error) (h : H) (s : St)
    : option (option Error * H * St) :=
  match attempts with
  | O => Some (Some (exhaustedError (ErrorMessage runner) last), h, s)
  | S rest =>
      match ExecutionHandler runner h s with
      | None => None
      | Some (shouldRetry, err, h', s') =>
          if negb shouldRetry then Some (err, h', s')
          else
            match rest with
            | O => retryLoop W runner rest err h' s'
            | S _ =>
                if contextDone (Context runner) s'
                then Some (Some "context canceled", h', s')
                else retryLoop W runner rest err h'
                       (sleep W (RetriesIntervalMilliSecs runner) s')
            end
      end
  end.

(** Modelled from the spec: [RetryExecutor.Execute]. *)
Definition Execute {St H} (W : World St) (runner : RetryExecutor St H)
    (h : H) (s : St) : option (option Error * H * St) :=
  retryLoop W runner (Z.to_nat (MaxRetries runner + 1)) None h s.

(** ** The request pipeline *)

(** The four results of [Send] and of [doRequest]. *)
Record SendResult : Type := mkSendResult {
  sr_resp : option Response;
  sr_respBody : option string;
  sr_redirectUrl : string;
  sr_err : option Error
}.

Definition noResult : SendResult := mkSendResult None None "" None.

(** [http.NewRequest] (with or without the context of the client): an
    empty method stands for GET, and the body of a [bytes.Buffer] fixes the
    content length. *)
Definition newRequest {St} (W : World St) (method url : string)
    (body : option string) : Request + Error :=
  match CheckError (newRequestErr W method url) with
  | Some e => inr e
  | None =>
      inl (mkRequest (if String.eqb method "" then "GET" else method) url ∅
             body false (from_option len 0 body))
  end.

Definition createReq {St} (W : World St) (method url : string)
    (content : option string) : Request + Error :=
  newRequest W method url content.

(** [doRequest]. [SendPost] is the method of that name, which [doRequest]
    calls to follow the redirect of a POST by hand. *)
Definition doRequest {St} (W : World St) (g : Globals) (jc : HttpClient St)
    (SendPost : string -> option string -> HttpClientDetails St -> string ->
                St -> option (SendResult * St))
    (fuel : nat) (req : Request) (content : option string)
    (followRedirect closeBody : bool)
    (httpClientsDetails : HttpClientDetails St) (s : St)
    : option (SendResult * St) :=
  let req :=
    decorateRequest g (GetUserAgent W)
      (rangeOrder W (Headers httpClientsDetails) s) req httpClientsDetails in
  let policy :=
    if negb followRedirect
       || (followRedirect && String.eqb (req_Method req) MethodPost)
    then CapturePolicy
    else ClientPolicy (client_CheckRedirect jc) in
  match clientDo W fuel policy req [] req s with
  | None => None
  | Some (out, redirectUrl, s1) =>
      let blocked :=
        bool_decide (is_Some (outErr out)) && negb (String.eqb redirectUrl "") in
      if blocked && negb followRedirect then
        Some (mkSendResult (outResp out) None redirectUrl (outErr out), s1)
      else if blocked && String.eqb (req_Method req) MethodPost then
        match SendPost redirectUrl content httpClientsDetails "" s1 with
        | None => None
        | Some (r, s2) =>
            Some (mkSendResult (sr_resp r) (sr_respBody r) "" (sr_err r), s2)
        end
      else
        match out with
        | DoFail resp err =>
            Some (mkSendResult resp None redirectUrl (CheckError (Some err)), s1)
        | DoOk resp =>
            if closeBody then
              Some (mkSendResult (Some resp)
                      (Some (body_data (resp_Body resp))) redirectUrl
                      (Join None (CheckError (body_closeErr (resp_Body resp)))),
                    s1)
            else Some (mkSendResult (Some resp) None redirectUrl None, s1)
        end
  end.

Definition invalidUrlHint (err url : string) : Error :=
  err +:+ newline +:+ "The received error indicates an invalid URL: " +:+
  quoted url +:+
  ", Please ensure the URL includes a valid scheme like 'http://' or 'https://'.".

(** The execution handler of [Send]; its state holds the named results
    [resp], [respBody], [redirectUrl] and [err] of [Send]. *)
Definition sendHandler {St} (W : World St) (g : Globals) (jc : HttpClient St)
    (SendPost : string -> option string -> HttpClientDetails St -> string ->
                St -> option (SendResult * St))
    (fuel : nat) (method url : string) (content : option string)
    (followRedirect closeBody : bool)
    (httpClientsDetails : HttpClientDetails St) (logMsgPrefix : string)
    (h : SendResult) (s : St)
    : option (bool * option Error * SendResult * St) :=
  match createReq W method url content with
  | inr e =>
      Some (true, Some e,
            mkSendResult (sr_resp h) (sr_respBody h) (sr_redirectUrl h) (Some e),
            s)
  | inl req =>
      match doRequest W g jc SendPost fuel req content followRedirect
              closeBody httpClientsDetails s with
      | None => None
      | Some (r, s1) =>
          match sr_err r with
          | Some e =>
              if Contains e "unsupported protocol scheme"
              then Some (false, Some (invalidUrlHint e url), r, s1)
              else Some (true, Some e, r, s1)
          | None =>
              match sr_resp r with
              | None =>
                  Some (false,
                        CheckErrorf
                          (logMsgPrefix +:+ "Received empty response from server"),
                        r, s1)
              | Some resp =>
                  let '(again, s2) := shouldRetry resp httpClientsDetails s1 in
                  if negb again then Some (false, None, r, s2)
                  else Some (true, None, r, s2)
              end
          end
      end
  end.

(** [Send]. [fuel] bounds the depth of the calls [Send] makes to itself
    through [doRequest] and [SendPost], and the hops of one call of
    [client.Do]; [None]: the fuel did not suffice. *)
Fixpoint Send {St} (W : World St) (g : Globals) (jc : HttpClient St)
    (fuel : nat) (method url : string) (content : option string)
    (followRedirect closeBody : bool)
    (httpClientsDetails : HttpClientDetails St) (logMsgPrefix : string)
    (s : St) {struct fuel} : option (SendResult * St) :=
  match fuel with
  | O => None
  | S fuel' =>
      let SendPost := fun url content details prefix s =>
        Send W g jc fuel' "POST" url content true true details prefix s in
      let retryExecutor :=
        mkRetryExecutor (ctx jc) (retries jc) (retryWaitMilliSecs jc)
          logMsgPrefix
          ("Failure occurred while sending " +:+ method +:+ " request to "
             +:+ url)
          (sendHandler W g jc SendPost fuel method url content followRedirect
             closeBody httpClientsDetails logMsgPrefix) in
      match Execute W retryExecutor noResult s with
      | None => None
      | Some (err, h, s') =>
          Some (mkSendResult (sr_resp h) (sr_respBody h) (sr_redirectUrl h) err,
                s')
      end
  end.

Definition SendPost {St} (W : World St) (g : Globals) (jc : HttpClient St)
    (fuel : nat) (url : string) (content : option string)
    (httpClientsDetails : HttpClientDetails St) (logMsgPrefix : string)
    (s : St) : option (SendResult * St) :=
  Send W g jc fuel "POST" url content true true httpClientsDetails
    logMsgPrefix s.

Definition SendHead {St} (W : World St) (g : Globals) (jc : HttpClient St)
    (fuel : nat) (url : string) (httpClientsDetails : HttpClientDetails St)
    (logMsgPrefix : string) (s : St) : option (SendResult * St) :=
  Send W g jc fuel "HEAD" url None true true httpClientsDetails
    logMsgPrefix s.

(** ** Status checks *)

(** A call either returns or panics. *)
Inductive Outcome (A : Type) : Type :=
| Returned (a : A)
| Panic (reason : string).
Arguments Returned {A}.
Arguments Panic {A}.

Definition inCodes (code : Z) (expected : list Z) : bool :=
  existsb (Z.eqb code) expected.

(** Modelled from the spec: [errorutils.GenerateResponseError], of the
    absent package [utils/errorutils]: an unexpected status is surfaced
    with the status line and the body. *)
Definition GenerateResponseError (status body : string) : Error :=
  "server response: " +:+ status +:+
  (if String.eqb body "" then "" else newline +:+ body).

(** Modelled from the spec: [errorutils.CheckResponseStatus], of the same
    package: no error when the status code is one of the expected ones,
    otherwise an error whose message contains the status line; the body is
    read for that message. *)
Definition CheckResponseStatus (resp : Response) (expected : list Z)
    : option Error :=
  if inCodes (resp_StatusCode resp) expected then None
  else CheckError (Some (GenerateResponseError (resp_Status resp)
                           (body_data (resp_Body resp)))).

(** Modelled from the spec: [errorutils.CheckResponseStatusWithBody], the
    same check for a body that has been read already. *)
Definition CheckResponseStatusWithBody (resp : Response) (body : option string)
    (expected : list Z) : option Error :=
  if inCodes (resp_StatusCode resp) expected then None
  else CheckError (Some (GenerateResponseError (resp_Status resp)
                           (default "" body))).

(** ** Upload *)

(** The three results of the upload functions. *)
Record UploadResult : Type := mkUploadResult {
  ur_resp : option Response;
  ur_body : option string;
  ur_err : option Error
}.

Definition noUpload : UploadResult := mkUploadResult None None None.

(** [UploadFileFromReader]; [reader] holds the bytes the reader yields. *)
Definition UploadFileFromReader {St} (W : World St) (jc : HttpClient St)
    (fuel : nat) (reader : string) (url : string)
    (httpClientsDetails : HttpClientDetails St) (size : Z) (s : St)
    : option (UploadResult * St) :=
  match newRequest W MethodPut url (Some reader) with
  | inr e => Some (mkUploadResult None None (Some e), s)
  | inl req =>
      let req := setClose (setContentLength size req) in
      let req :=
        setRequestHeaders (rangeOrder W (Headers httpClientsDetails) s) size req in
      let req := setAuthentication req httpClientsDetails in
      let req := addUserAgentHeader (GetUserAgent W) req in
      match clientDo W fuel (ClientPolicy (client_CheckRedirect jc)) req [] req s
      with
      | None => None
      | Some (DoFail resp err, _, s1) =>
          Some (mkUploadResult resp None (CheckError (Some err)), s1)
      | Some (DoOk resp, _, s1) =>
          let closeErr := CheckError (body_closeErr (resp_Body resp)) in
          match CheckResponseStatus resp
                  [StatusCreated; StatusOK; StatusAccepted] with
          | Some e =>
              Some (mkUploadResult (Some resp) None (Join (Some e) closeErr), s1)
          | None =>
              Some (mkUploadResult (Some resp)
                      (Some (body_data (resp_Body resp)))
                      (Join (CheckError (body_readErr (resp_Body resp)))
                         closeErr),
                    s1)
          end
      end
  end.

(** Modelled from the spec: [fileutils.GetFileSize], of the package
    [utils/io/fileutils], which is not part of the sources at hand: the
    size of the opened file is queried; without a file the size is 0. *)
Definition GetFileSize (file : option File) : Z * option Error :=
  match file with
  | None => (0, None)
  | Some f =>
      match file_statErr f with
      | Some e => (0, Some e)
      | None => (len (file_data f), None)
      end
  end.

(** Modelled from the spec: [fileutils.GetUploadRequestContent], of the
    same absent package: the content of the file is the body of the
    request; without a file the body is empty. *)
Definition GetUploadRequestContent (file : option File) : string :=
  from_option file_data "" file.

Definition doUploadFile {St} (W : World St) (jc : HttpClient St) (fuel : nat)
    (localPath url : string) (httpClientsDetails : HttpClientDetails St)
    (s : St) : option (UploadResult * St) :=
  let '(opened, s1) :=
    if negb (String.eqb localPath "") then
      let '(o, s1) := osOpen W localPath s in
      (match o with
       | inl e => inl e
       | inr f => inr (Some f)
       end, s1)
    else (inr None, s) in
  match opened with
  | inl e => Some (mkUploadResult None None (CheckError (Some e)), s1)
  | inr file =>
      let closeErr :=
        match file with
        | Some f => CheckError (file_closeErr f)
        | None => None
        end in
      let '(size, err) := GetFileSize file in
      match err with
      | Some e => Some (mkUploadResult None None (Join (Some e) closeErr), s1)
      | None =>
          match UploadFileFromReader W jc fuel (GetUploadRequestContent file)
                  url httpClientsDetails size s1 with
          | None => None
          | Some (r, s2) =>
              Some (mkUploadResult (ur_resp r) (ur_body r)
                      (Join (ur_err r) closeErr), s2)
          end
      end
  end.

(** The execution handler of [UploadFile]. *)
Definition uploadHandler {St} (W : World St) (jc : HttpClient St) (fuel : nat)
    (localPath url logMsgPrefix : string)
    (httpClientsDetails : HttpClientDetails St)
    (h : UploadResult) (s : St)
    : option (bool * option Error * UploadResult * St) :=
  match doUploadFile W jc fuel localPath url httpClientsDetails s with
  | None => None
  | Some (r, s1) =>
      match ur_err r with
      | Some e => Some (true, Some e, r, s1)
      | None =>
          match ur_resp r with
          | None =>
              Some (false,
                    CheckErrorf
                      (logMsgPrefix +:+ "Received empty response from file upload"),
                    r, s1)
          | Some resp =>
              if resp_StatusCode resp <? 500 then Some (false, None, r, s1)
              else Some (true, None, r, s1)
          end
      end
  end.

Definition UploadFile {St} (W : World St) (jc : HttpClient St) (fuel : nat)
    (localPath url logMsgPrefix : string)
    (httpClientsDetails : HttpClientDetails St) (s : St)
    : option (UploadResult * St) :=
  let retryExecutor :=
    mkRetryExecutor None (retries jc) (retryWaitMilliSecs jc) logMsgPrefix
      ("Failure occurred while uploading to " +:+ url)
      (uploadHandler W jc fuel localPath url logMsgPrefix httpClientsDetails) in
  match Execute W retryExecutor noUpload s with
  | None => None
  | Some (err, h, s') => Some (mkUploadResult (ur_resp h) (ur_body h) err, s')
  end.

(** ** Remote file details *)

(** [fileutils.ChecksumDetails] and [fileutils.FileDetails]. *)
Record ChecksumDetails : Type := mkChecksumDetails {
  Md5 : string;
  Sha1 : string;
  Sha256 : string
}.

Record FileDetails : Type := mkFileDetails {
  Checksum : ChecksumDetails;
  Size : Z
}.

(** The post-processing of the HEAD exchange in [GetRemoteFileDetails];
    [quote] is [strconv.Quote] on the strings that hold a byte outside
    ASCII. *)
Definition fileDetailsOf (quote : string -> string) (r : SendResult)
    : Outcome (option FileDetails * option Response * option Error) :=
  match sr_err r with
  | Some e => Returned (None, None, Some e)
  | None =>
      match sr_resp r with
      | None => Panic "nil pointer dereference"
      | Some resp =>
          match CheckResponseStatusWithBody resp (sr_respBody r) [StatusOK] with
          | Some e => Returned (None, None, Some e)
          | None =>
              let contentLength := Header_Get "Content-Length" (resp_Header resp) in
              let '(fileSize, err) :=
                if 0 <? len contentLength
                then strconv.ParseInt quote contentLength
                else (0, None) in
              match CheckError err with
              | Some e => Returned (None, None, Some e)
              | None =>
                  Returned
                    (Some (mkFileDetails
                             (mkChecksumDetails
                                (Header_Get "X-Checksum-Md5" (resp_Header resp))
                                (Header_Get "X-Checksum-Sha1" (resp_Header resp))
                                (Header_Get "X-Checksum-Sha256" (resp_Header resp)))
                             fileSize),
                     Some resp, None)
              end
          end
      end
  end.

Definition GetRemoteFileDetails {St} (W : World St) (g : Globals)
    (jc : HttpClient St) (fuel : nat) (downloadUrl : string)
    (httpClientsDetails : HttpClientDetails St) (s : St)
    : option (Outcome (option FileDetails * option Response * option Error) * St) :=
  match SendHead W g jc fuel downloadUrl httpClientsDetails "" s with
  | None => None
  | Some (r, s') => Some (fileDetailsOf (quoteRunes W) r, s')
  end.

(** ** Checksums *)

Inductive HashAlg : Type := SHA1 | SHA256.

(** A [hash.Hash]: its algorithm and the bytes written to it so far. *)
Record Hash : Type := mkHash {
  hash_alg : HashAlg;
  hash_written : string
}.

(** The digest functions of [crypto/sha1] and of [sha256-simd], from byte
    strings to byte strings. *)
Record Digests : Type := mkDigests {
  sha1sum : string -> string;
  sha256sum : string -> string
}.

(** [sha1.New()], [sha256.New()], [h.Write(p)] and [h.Sum(nil)] *)
Definition newHash (alg : HashAlg) : Hash := mkHash alg "".

Definition hashWrite (p : string) (h : Hash) : Hash :=
  mkHash (hash_alg h) (hash_written h +:+ p).

Definition hashSum (D : Digests) (h : Hash) : string :=
  match hash_alg h with
  | SHA1 => sha1sum D (hash_written h)
  | SHA256 => sha256sum D (hash_written h)
  end.

Definition handleExpectedSha (expectedSha1 expectedSha256 : string)
    : string * option Hash :=
  if 0 <? len expectedSha1 then (expectedSha1, Some (newHash SHA1))
  else if 0 <? len expectedSha256 then (expectedSha256, Some (newHash SHA256))
  else ("", None).

Definition checksumMismatch (fileName expectedSha actualShaString : string)
    : string :=
  "checksum mismatch for  " +:+ fileName +:+ ", expected: " +:+ expectedSha
    +:+ ", actual: " +:+ actualShaString.

(** [validateChecksum]; calling [Sum] on a nil [hash.Hash] panics. *)
Definition validateChecksum (D : Digests) (expectedSha : string)
    (actualSha : option Hash) (fileName : string) : Outcome (option Error) :=
  match actualSha with
  | None => Panic "nil pointer dereference"
  | Some h =>
      let actualShaString := hex.EncodeToString (hashSum D h) in
      if negb (String.eqb actualShaString expectedSha)
      then Returned (CheckErrorf
                       (checksumMismatch fileName expectedSha actualShaString))
      else Returned None
  end.

Record DownloadFileDetails : Type := mkDownloadFileDetails {
  dfd_FileName : string;
  dfd_DownloadPath : string;
  dfd_RelativePath : string;
  dfd_LocalPath : string;
  dfd_LocalFileName : string;
  dfd_ExpectedSha1 : string;
  dfd_ExpectedSha256 : string;
  dfd_Size : Z;
  dfd_SkipChecksum : bool
}.

Record ConcurrentDownloadFlags : Type := mkConcurrentDownloadFlags {
  FileName : string;
  DownloadPath : string;
  RelativePath : string;
  LocalFileName : string;
  LocalPath : string;
  ExpectedSha1 : string;
  ExpectedSha256 : string;
  FileSize : Z;
  SplitCount : Z;
  Explode : bool;
  BypassArchiveInspection : bool;
  SkipChecksum : bool
}.

(** What the file system answers while a destination file is written:
    the errors, if any, of [fileutils.CreateFilePath], of creating or
    opening the file, of writing to it and of closing it. *)
Record FileIO : Type := mkFileIO {
  io_pathErr : option Error;
  io_createErr : option Error;
  io_writeErr : option Error;
  io_closeErr : option Error
}.

(** [io.Copy] from a response body to a writer over the destination: a
    failing write ends the copy before a failing read does. *)
Definition copyErr (fio : FileIO) (body : BodyStream) : option Error :=
  match io_writeErr fio with
  | Some e => Some e
  | None => body_readErr body
  end.

(** [saveToFile]: the error returned, and the hash once the copy has fed
    it. *)
Definition saveToFile (D : Digests) (downloadFileDetails : DownloadFileDetails)
    (resp : Response) (fio : FileIO) : Outcome (option Error * option Hash) :=
  match io_pathErr fio with
  | Some e => Returned (Some e, None)
  | None =>
      match CheckError (io_createErr fio) with
      | Some e => Returned (Some e, None)
      | None =>
          let closeErr := CheckError (io_closeErr fio) in
          let '(expectedSha, actualSha) :=
            handleExpectedSha (dfd_ExpectedSha1 downloadFileDetails)
              (dfd_ExpectedSha256 downloadFileDetails) in
          if (0 <? len expectedSha) && negb (dfd_SkipChecksum downloadFileDetails)
          then
            let actualSha := hashWrite (body_data (resp_Body resp)) <$> actualSha in
            match CheckError (copyErr fio (resp_Body resp)) with
            | Some e => Returned (Join (Some e) closeErr, actualSha)
            | None =>
                match validateChecksum D expectedSha actualSha
                        (dfd_LocalFileName downloadFileDetails) with
                | Panic reason => Panic reason
                | Returned err => Returned (Join (CheckError err) closeErr, actualSha)
                end
            end
          else
            Returned (Join (CheckError (copyErr fio (resp_Body resp))) closeErr,
                      actualSha)
      end
  end.

(** A chunk file as [mergeChunks] meets it. *)
Record ChunkFile : Type := mkChunkFile {
  cf_openErr : option Error;
  cf_data : string;
  cf_copyErr : option Error;
  cf_closeErr : option Error
}.

(** The loop of [mergeChunks], [for i := 0; i < flags.SplitCount; i++]:
    [n] counts the iterations that are left and [i] is the index;
    [chunks] are the files behind [chunksPaths], so that an index past the
    end of [chunksPaths] panics. The first error ends the loop; the hash,
    when there is one, is fed every chunk that is copied. *)
Fixpoint mergeLoop (chunks : list ChunkFile) (n i : nat)
    (actualSha : option Hash) : Outcome (option Error * option Hash) :=
  match n with
  | O => Returned (None, actualSha)
  | S n' =>
      match chunks !! i with
      | None => Panic "index out of range"
      | Some c =>
          match CheckError (cf_openErr c) with
          | Some e => Returned (Some e, actualSha)
          | None =>
              let actualSha' := hashWrite (cf_data c) <$> actualSha in
              match CheckError (cf_copyErr c) with
              | Some e =>
                  Returned (Join (Some e) (CheckError (cf_closeErr c)),
                            actualSha')
              | None =>
                  match Join None (CheckError (cf_closeErr c)) with
                  | Some e => Returned (Some e, actualSha')
                  | None => mergeLoop chunks n' (S i) actualSha'
                  end
              end
          end
      end
  end.

(** [mergeChunks]; [chunks] are the files behind [chunksPaths]. The loop
    runs [flags.SplitCount] times, none if the count is not positive. *)
Definition mergeChunks (D : Digests) (chunks : list ChunkFile)
    (flags : ConcurrentDownloadFlags) (fio : FileIO)
    : Outcome (option Error * option Hash) :=
  match CheckError (io_createErr fio) with
  | Some e => Returned (Some e, None)
  | None =>
      let closeErr := CheckError (io_closeErr fio) in
      let '(expectedSha, actualSha) :=
        handleExpectedSha (ExpectedSha1 flags) (ExpectedSha256 flags) in
      match mergeLoop chunks (Z.to_nat (SplitCount flags)) 0 actualSha with
      | Panic reason => Panic reason
      | Returned (Some e, actualSha) =>
          Returned (Join (Some e) closeErr, actualSha)
      | Returned (None, actualSha) =>
          if (0 <? len expectedSha) && negb (SkipChecksum flags) then
            match validateChecksum D expectedSha actualSha (LocalFileName flags)
            with
            | Panic reason => Panic reason
            | Returned err => Returned (Join err closeErr, actualSha)
            end
          else Returned (Join None closeErr, actualSha)
      end
  end.

(** ** The concurrent download: partition, workers and join *)

Record Chunk : Type := mkChunk {
  chunk_index : Z;
  chunk_start : Z;
  chunk_end : Z
}.

(** [start] and [end] as iteration [i] of the dispatch loop computes
    them. *)
Definition chunkBounds (fileSize splitCount i : Z) : Z * Z :=
  let chunkSize := Int64.quo fileSize splitCount in
  let md := Int64.rem fileSize splitCount in
  let start := Int64.mul chunkSize i in
  let end_ := Int64.mul chunkSize (Int64.add i 1) in
  (start, if i =? splitCount - 1 then Int64.add end_ md else end_).

(** The dispatch loop of [downloadChunksConcurrently]. [stop i] tells
    whether, at the top of iteration [i], the dispatcher sees one of the two
    variables that the workers started so far may have written: an error,
    or a response whose status is not 206; it then leaves the loop. In
    iteration 0 no worker has been started and both variables still hold
    nil. [n] counts the iterations that are left. *)
Fixpoint dispatchLoop (stop : Z -> bool) (fileSize splitCount : Z)
    (n : nat) (i : Z) : list Chunk :=
  match n with
  | O => []
  | S n' =>
      if (0 <? i) && stop i then []
      else
        let '(s, e) := chunkBounds fileSize splitCount i in
        mkChunk i s e :: dispatchLoop stop fileSize splitCount n' (i + 1)
  end.

(** The chunks handed to workers; a negative split count makes [make]
    panic, and split count 0 is an integer division by zero. *)
Definition dispatchChunks (stop : Z -> bool) (fileSize splitCount : Z)
    : Outcome (list Chunk) :=
  if splitCount <? 0 then Panic "makeslice: len out of range"
  else if splitCount =? 0 then Panic "integer divide by zero"
  else Returned (dispatchLoop stop fileSize splitCount (Z.to_nat splitCount) 0).

(** The [Range] header of chunk [start, end), as [doDownloadFileRange]
    writes it. *)
Definition rangeHeader (start end_ : Z) : string :=
  "bytes=" +:+ strconv.FormatInt start +:+ "-"
    +:+ strconv.FormatInt (Int64.sub end_ 1).

(** The three results of a chunk worker. *)
Record RangeResult : Type := mkRangeResult {
  rr_fileName : string;
  rr_resp : option Response;
  rr_err : option Error
}.

Definition noRange : RangeResult := mkRangeResult "" None None.

(** The execution handler of [downloadFileRange]; [attempt] is one call of
    [doDownloadFileRange] for the chunk. *)
Definition rangeHandler {St}
    (attempt : St -> option (RangeResult * St))
    (logMsgPrefix : string) (currentSplit : Z)
    (h : RangeResult) (s : St)
    : option (bool * option Error * RangeResult * St) :=
  match attempt s with
  | None => None
  | Some (r, s1) =>
      match rr_err r with
      | Some e => Some (true, Some e, r, s1)
      | None =>
          match rr_resp r with
          | None =>
              Some (false,
                    CheckErrorf
                      (logMsgPrefix +:+ "[" +:+ strconv.Itoa currentSplit
                         +:+ "]: Received empty response from file download"),
                    r, s1)
          | Some resp =>
              if resp_StatusCode resp <? 500 then Some (false, None, r, s1)
              else Some (true, None, r, s1)
          end
      end
  end.

Definition downloadFileRange {St} (W : World St) (jc : HttpClient St)
    (attempt : St -> option (RangeResult * St))
    (flags : ConcurrentDownloadFlags) (currentSplit : Z)
    (logMsgPrefix : string) (s : St) : option (RangeResult * St) :=
  let retryExecutor :=
    mkRetryExecutor None (retries jc) (retryWaitMilliSecs jc)
      (logMsgPrefix +:+ "[" +:+ strconv.Itoa currentSplit +:+ "]: ")
      ("Failure occurred while downloading part " +:+ strconv.Itoa currentSplit
         +:+ " of " +:+ DownloadPath flags)
      (rangeHandler attempt logMsgPrefix currentSplit) in
  match Execute W retryExecutor noRange s with
  | None => None
  | Some (err, h, s') =>
      Some (mkRangeResult (rr_fileName h) (rr_resp h) err, s')
  end.

(** The first loop after [wg.Wait()]: the first non-nil error. *)
Fixpoint firstError (errorsList : list (option Error)) : option Error :=
  match errorsList with
  | [] => None
  | Some e :: _ => Some e
  | None :: rest => firstError rest
  end.

(** The second loop: the first response whose status is not 206; reading
    the status of a nil response panics. *)
Fixpoint firstUnexpected (respList : list (option Response))
    : Outcome (option Response) :=
  match respList with
  | [] => Returned None
  | None :: _ => Panic "nil pointer dereference"
  | Some r :: rest =>
      if negb (resp_StatusCode r =? StatusPartialContent) then Returned (Some r)
      else firstUnexpected rest
  end.

(** The join of [downloadChunksConcurrently], from [wg.Wait()] on: the
    response and the error returned. *)
Definition joinChunks (errorsList : list (option Error))
    (respList : list (option Response))
    : Outcome (option Response * option Error) :=
  match firstError errorsList with
  | Some e => Returned (None, CheckError (Some e))
  | None =>
      match firstUnexpected respList with
      | Panic reason => Panic reason
      | Returned (Some r) => Returned (Some r, None)
      | Returned None =>
          match last respList with
          | None => Panic "index out of range [-1]"
          | Some r => Returned (r, None)
          end
      end
  end.

(** The slots after [wg.Wait()]: slot [i] holds what the worker of chunk
    [i] stored if that worker was started, and nil otherwise. [n] is the
    number of slots. *)
Definition slotsOf {A} (stored : list (option A)) (n : nat) : list (option A) :=
  stored ++ replicate (n - length stored) None.

(** [downloadChunksConcurrently]: [worker c] is what [downloadFileRange]
    returns for chunk [c]. *)
Definition downloadChunksConcurrently (stop : Z -> bool)
    (worker : Chunk -> RangeResult) (flags : ConcurrentDownloadFlags)
    : Outcome (option Response * option Error) :=
  match dispatchChunks stop (FileSize flags) (SplitCount flags) with
  | Panic reason => Panic reason
  | Returned chunks =>
      let results := map worker chunks in
      let n := Z.to_nat (SplitCount flags) in
      joinChunks (slotsOf (map rr_err results) n)
        (slotsOf (map rr_resp results) n)
  end.

(** The ranges the formula of the specification gives. *)
Definition specBounds (fileSize N i : Z) : Z * Z :=
  (fileSize / N * i,
   fileSize / N * (i + 1) + (if i =? N - 1 then fileSize mod N else 0)).

(** ** Predicates used in the statements *)

(** The state of the two slot arrays once [wg.Wait()] has returned, [k]
    workers having been started: the slots of the workers started hold what
    [downloadFileRange] returned, an error or a response; the other slots
    were never written; and the dispatcher has left its loop early only
    upon an error or a response whose status is not 206 stored by a worker
    it had started. *)
Definition afterWait (k : nat) (errorsList : list (option Error))
    (respList : list (option Response)) : Prop :=
  length errorsList = length respList /\
  (0 < k <= length errorsList)%nat /\
  (forall i e r, (i < k)%nat -> errorsList !! i = Some e ->
     respList !! i = Some r -> is_Some e \/ is_Some r) /\
  (forall i, (k <= i < length errorsList)%nat ->
     errorsList !! i = Some None /\ respList !! i = Some None) /\
  ((k < length errorsList)%nat ->
     exists j, (j < k)%nat /\
       ((exists e, errorsList !! j = Some (Some e)) \/
        (exists r, respList !! j = Some (Some r) /\
                   resp_StatusCode r <> StatusPartialContent))).

Ltac int64_range :=
  unfold Int64.in_range, Int64.min_int, Int64.max_int in *; try lia; try nia.


(** The authentication schemes, and the selection in the words of the
    specification (section 4.3), to be compared with
    [setAuthentication]. *)
Inductive AuthScheme : Type :=
| BasicAuth (user password : string)
| ApiKeyHeader (key : string)
| BearerAuth (token : string)
| NoAuth.

Definition present (s : string) : bool := negb (String.eqb s "").

Definition specAuthScheme {St} (d : HttpClientDetails St) : AuthScheme :=
  if present (ApiKey d) && present (User d) then BasicAuth (User d) (ApiKey d)
  else if present (ApiKey d) then ApiKeyHeader (ApiKey d)
  else if present (AccessToken d)
          && (String.prefix "AKCp8" (AccessToken d)
              && (73 <=? len (AccessToken d)))
  then BasicAuth (User d) (AccessToken d)
  else if present (AccessToken d) then BearerAuth (AccessToken d)
  else if present (Password d) then BasicAuth (User d) (Password d)
  else NoAuth.

(** What a scheme puts on the wire. *)
Definition specAuthHeaders (scheme : AuthScheme) (h : Header) : Header :=
  match scheme with
  | BasicAuth user password =>
      <["Authorization" :=
          ["Basic " +:+ base64.EncodeToString (user +:+ ":" +:+ password)]]> h
  | ApiKeyHeader key => <["X-Jfrog-Art-Api" := [key]]> h
  | BearerAuth token => <["Authorization" := ["Bearer " +:+ token]]> h
  | NoAuth => h
  end.

(** Every interceptor, called in order on the state its predecessors have
    left, answers true. *)
Fixpoint allAnswerTrue {St} (l : list (St -> bool * St)) (s : St) : Prop :=
  match l with
  | [] => True
  | f :: rest => (f s).1 = true /\ allAnswerTrue rest (f s).2
  end.

(** The value of the last of [entries] whose name is, in canonical form,
    [name]. *)
Definition lastValue (name : string) (entries : list (string * string))
    : option string :=
  foldl (fun acc kv =>
           if decide (textproto.CanonicalMIMEHeaderKey kv.1 = name)
           then Some kv.2 else acc)
        None entries.

(** ** Sample values *)

Definition sampleBody : BodyStream := mkBody "" None None.
Definition resp206 : Response := mkResponse "206 Partial Content" 206 ∅ sampleBody.
Definition resp404 : Response := mkResponse "404 Not Found" 404 ∅ sampleBody.
Definition resp200 : Response := mkResponse "200 OK" 200 ∅ sampleBody.
Definition resp302 : Response := mkResponse "302 Found" 302 ∅ sampleBody.
Definition resp429 : Response :=
  mkResponse "429 Too Many Requests" 429 ∅ sampleBody.

Definition emptyRequest : Request := mkRequest "GET" "http://a" ∅ None false 0.

Definition anonymous (St : Type) : HttpClientDetails St :=
  mkDetails "" "" "" "" ∅ [].


(** The request [Send] hands to the transport in state [s], once
    [createReq] has built it and [doRequest] has decorated it. *)
Definition sentRequest {St} (W : World St) (g : Globals)
    (d : HttpClientDetails St) (method url : string) (content : option string)
    (s : St) : Request :=
  decorateRequest g (GetUserAgent W) (rangeOrder W (Headers d) s)
    (mkRequest (if String.eqb method "" then "GET" else method) url ∅ content
       false (from_option len 0 content)) d.

(** The server behind [url] answers every request of method [method] with
    a 302 response that redirects to [target]. *)
Definition redirectsTo {St} (W : World St) (method url target : string)
    : Prop :=
  forall req s, req_Method req = method -> req_URL req = url ->
    exists resp loc next s',
      roundTrip W req s = (RTRedirect resp loc next, s') /\
      resp_StatusCode resp = 302 /\ req_URL next = target.

(** The server behind [url] answers every request of method [method] that
    carries the body [body] with the response [resp]. *)
Definition answersWith {St} (W : World St) (method url : string)
    (body : option string) (resp : Response) : Prop :=
  forall req s, req_Method req = method -> req_URL req = url ->
    req_Body req = body ->
    exists s', roundTrip W req s = (RTFinal resp, s').

(** A world whose state is the list of the requests that have reached the
    transport: [http://a] answers 302 with a redirect to [http://b], and
    every other URL answers 200. There are no files. *)
Definition redirectWorld : World (list Request) :=
  mkWorld
    (fun req log =>
       (if String.eqb (req_URL req) "http://a"
        then RTRedirect resp302 "http://b"
               (mkRequest "GET" "http://b" ∅ None false 0)
        else RTFinal resp200,
        log ++ [req]))
    (fun _ log => log)
    (fun _ log => (inl "no such file", log))
    (fun m _ => map_to_list m)
    (fun _ _ => None)
    "agent"
    quoted.

(** A world whose state counts the requests that have reached the
    transport; every request is answered 429. *)
Definition busyWorld : World nat :=
  mkWorld
    (fun req n => (RTFinal resp429, S n))
    (fun _ n => n)
    (fun _ n => (inl "no such file", n))
    (fun m _ => map_to_list m)
    (fun _ _ => None)
    "agent"
    quoted.

Definition plainClient (St : Type) (retries : Z) : HttpClient St :=
  mkHttpClient None None retries 0.


(** The request [UploadFileFromReader] hands to the transport in state
    [s]. *)
Definition uploadRequest {St} (W : World St) (d : HttpClientDetails St)
    (url reader : string) (size : Z) (s : St) : Request :=
  addUserAgentHeader (GetUserAgent W)
    (setAuthentication
       (setRequestHeaders (rangeOrder W (Headers d) s) size
          (setClose (setContentLength size
             (mkRequest MethodPut url ∅ (Some reader) false (len reader)))))
       d).


(** The digits of a lower-case hexadecimal string. *)
Definition isLowerHexDigit (c : ascii) : bool :=
  strconv.isDigit c ||
  (let n := N_of_ascii c in ((97 <=? n) && (n <=? 102))%N).

Fixpoint allChars (p : ascii -> bool) (s : string) : bool :=
  match s with
  | EmptyString => true
  | String c rest => p c && allChars p rest
  end.

(** The bytes of the chunk files, in index order. *)
Definition chunkData (chunks : list ChunkFile) : string :=
  foldr (fun c acc => cf_data c +:+ acc) "" chunks.

(** No failure of the file system. *)
Definition ioFine : FileIO := mkFileIO None None None None.

(** Digest functions for the sample runs: they stand for the real ones
    only in that they map byte strings to byte strings. *)
Definition sampleDigests : Digests :=
  mkDigests (fun data => String.substring 0 2 (data +:+ "sha1"))
            (fun data => String.substring 0 4 (data +:+ "sha256")).

Definition sampleDownload : DownloadFileDetails :=
  mkDownloadFileDetails "file" "http://a/file" "file" "dir" "file"
    "6865" "00000000" 12 false.

Definition helloResponse : Response :=
  mkResponse "200 OK" 200 ∅ (mkBody "hello" None None).

(** A world that answers every request with a 200 response that carries
    the checksum headers and no [Content-Length]. *)
Definition headResponse : Response :=
  mkResponse "200 OK" 200
    (<["X-Checksum-Sha1" := ["6865"]]> (<["X-Checksum-Md5" := ["ab"]]> ∅))
    sampleBody.

Definition headWorld : World unit :=
  mkWorld
    (fun req u => (RTFinal headResponse, u))
    (fun _ u => u)
    (fun _ u => (inl "no such file", u))
    (fun m _ => map_to_list m)
    (fun _ _ => None)
    "agent"
    quoted.


(** The chunk the dispatch loop hands to the worker of index [i]. *)
Definition chunkAt (fileSize splitCount i : Z) : Chunk :=
  mkChunk i (chunkBounds fileSize splitCount i).1
    (chunkBounds fileSize splitCount i).2.

(** A worker result that makes the dispatcher leave its loop: an error,
    or a response whose status is not 206. *)
Definition rangeFailed (r : RangeResult) : Prop :=
  is_Some (rr_err r) \/
  exists resp, rr_resp r = Some resp /\
               resp_StatusCode resp <> StatusPartialContent.


(** ** The other entry points of the request pipeline *)

Definition sendGetLeaveBodyOpen {St} (W : World St) (g : Globals)
    (jc : HttpClient St) (fuel : nat) (url : string) (followRedirect : bool)
    (httpClientsDetails : HttpClientDetails St) (logMsgPrefix : string)
    (s : St) : option (SendResult * St) :=
  Send W g jc fuel "GET" url None followRedirect false httpClientsDetails
    logMsgPrefix s.

(** [SendPostLeaveBodyOpen] keeps the response and the error of [Send]. *)
Definition SendPostLeaveBodyOpen {St} (W : World St) (g : Globals)
    (jc : HttpClient St) (fuel : nat) (url : string) (content : option string)
    (httpClientsDetails : HttpClientDetails St) (logMsgPrefix : string)
    (s : St) : option (SendResult * St) :=
  Send W g jc fuel "POST" url content true false httpClientsDetails
    logMsgPrefix s.

(** [sendGetForFileDownload] drops the body [Send] returns, which is nil
    here. *)
Definition sendGetForFileDownload {St} (W : World St) (g : Globals)
    (jc : HttpClient St) (fuel : nat) (url : string) (followRedirect : bool)
    (httpClientsDetails : HttpClientDetails St) (logMsgPrefix : string)
    (s : St) : option (SendResult * St) :=
  sendGetLeaveBodyOpen W g jc fuel url followRedirect httpClientsDetails
    logMsgPrefix s.

Definition Stream {St} (W : World St) (g : Globals) (jc : HttpClient St)
    (fuel : nat) (url : string) (httpClientsDetails : HttpClientDetails St)
    (logMsgPrefix : string) (s : St) : option (SendResult * St) :=
  sendGetLeaveBodyOpen W g jc fuel url true httpClientsDetails logMsgPrefix s.

Definition SendGet {St} (W : World St) (g : Globals) (jc : HttpClient St)
    (fuel : nat) (url : string) (followRedirect : bool)
    (httpClientsDetails : HttpClientDetails St) (logMsgPrefix : string)
    (s : St) : option (SendResult * St) :=
  Send W g jc fuel "GET" url None followRedirect true httpClientsDetails
    logMsgPrefix s.

Definition SendPatch {St} (W : World St) (g : Globals) (jc : HttpClient St)
    (fuel : nat) (url : string) (content : option string)
    (httpClientsDetails : HttpClientDetails St) (logMsgPrefix : string)
    (s : St) : option (SendResult * St) :=
  Send W g jc fuel "PATCH" url content true true httpClientsDetails
    logMsgPrefix s.

Definition SendDelete {St} (W : World St) (g : Globals) (jc : HttpClient St)
    (fuel : nat) (url : string) (content : option string)
    (httpClientsDetails : HttpClientDetails St) (logMsgPrefix : string)
    (s : St) : option (SendResult * St) :=
  Send W g jc fuel "DELETE" url content true true httpClientsDetails
    logMsgPrefix s.

Definition SendPut {St} (W : World St) (g : Globals) (jc : HttpClient St)
    (fuel : nat) (url : string) (content : option string)
    (httpClientsDetails : HttpClientDetails St) (logMsgPrefix : string)
    (s : St) : option (SendResult * St) :=
  Send W g jc fuel "PUT" url content true true httpClientsDetails
    logMsgPrefix s.

(** The post-processing of the GET exchange in [ReadRemoteFile]: the open
    body, the response and the error. *)
Definition remoteFileOf (r : SendResult)
    : Outcome (option BodyStream * option Response * option Error) :=
  match sr_err r with
  | Some e => Returned (None, None, Some e)
  | None =>
      match sr_resp r with
      | None => Panic "nil pointer dereference"
      | Some resp =>
          if negb (resp_StatusCode resp =? StatusOK)
          then Returned (None, Some resp, None)
          else Returned (Some (resp_Body resp), Some resp, None)
      end
  end.

Definition ReadRemoteFile {St} (W : World St) (g : Globals)
    (jc : HttpClient St) (fuel : nat) (downloadPath : string)
    (httpClientsDetails : HttpClientDetails St) (s : St)
    : option (Outcome (option BodyStream * option Response * option Error)
              * St) :=
  match sendGetForFileDownload W g jc fuel downloadPath true httpClientsDetails
          "" s with
  | None => None
  | Some (r, s') => Some (remoteFileOf r, s')
  end.

(** The post-processing of the HEAD exchange in [IsAcceptRanges]. *)
Definition acceptRangesOf (r : SendResult)
    : Outcome (bool * option Response * option Error) :=
  match CheckError (sr_err r) with
  | Some e => Returned (false, None, Some e)
  | None =>
      match sr_resp r with
      | None => Panic "nil pointer dereference"
      | Some resp =>
          if negb (resp_StatusCode resp =? StatusOK)
          then Returned (false, Some resp, None)
          else Returned (String.eqb (Header_Get "Accept-Ranges"
                                       (resp_Header resp)) "bytes",
                         Some resp, None)
      end
  end.

Definition IsAcceptRanges {St} (W : World St) (g : Globals)
    (jc : HttpClient St) (fuel : nat) (downloadUrl : string)
    (httpClientsDetails : HttpClientDetails St) (s : St)
    : option (Outcome (bool * option Response * option Error) * St) :=
  match SendHead W g jc fuel downloadUrl httpClientsDetails "" s with
  | None => None
  | Some (r, s') => Some (acceptRangesOf r, s')
  end.


(** ** Single-stream download *)

(** The three results of the download functions. *)
Record DownloadResult : Type := mkDownloadResult {
  dr_resp : option Response;
  dr_redirectUrl : string;
  dr_err : option Error
}.

Definition noDownload : DownloadResult := mkDownloadResult None "" None.

(** What lies outside the client during a single-stream download, in a
    given state of the world: the answers of the file system to
    [saveToFile], and the result of the archive extractor.

    Modelled from the spec: [utils.ExtractArchive], of the package [utils],
    which is not part of the sources at hand: a collaborator whose error is
    propagated as it is. *)
Record DownloadEnv (St : Type) : Type := mkDownloadEnv {
  saveIO : St -> FileIO;
  ExtractArchive : St -> option Error
}.
Arguments mkDownloadEnv {St}.
Arguments saveIO {St}.
Arguments ExtractArchive {St}.

(** [doDownloadFile]; reading the status of a nil response panics. *)
Definition doDownloadFile {St} (W : World St) (g : Globals)
    (jc : HttpClient St) (D : Digests) (env : DownloadEnv St) (fuel : nat)
    (downloadFileDetails : DownloadFileDetails) (logMsgPrefix : string)
    (followRedirect : bool) (httpClientsDetails : HttpClientDetails St)
    (isExplode : bool) (s : St)
    : option (Outcome DownloadResult * St) :=
  match sendGetForFileDownload W g jc fuel
          (dfd_DownloadPath downloadFileDetails) followRedirect
          httpClientsDetails "" s with
  | None => None
  | Some (r, s1) =>
      match sr_err r with
      | Some e =>
          Some (Returned (mkDownloadResult (sr_resp r) (sr_redirectUrl r)
                            (Some e)), s1)
      | None =>
          match sr_resp r with
          | None => Some (Panic "nil pointer dereference", s1)
          | Some resp =>
              let closeErr := CheckError (body_closeErr (resp_Body resp)) in
              if negb (resp_StatusCode resp =? StatusOK) then
                Some (Returned (mkDownloadResult (Some resp) (sr_redirectUrl r)
                                  (Join None closeErr)), s1)
              else
                match saveToFile D downloadFileDetails resp (saveIO env s1) with
                | Panic reason => Some (Panic reason, s1)
                | Returned (Some e, _) =>
                    Some (Returned (mkDownloadResult (Some resp)
                                      (sr_redirectUrl r)
                                      (Join (Some e) closeErr)), s1)
                | Returned (None, _) =>
                    let err :=
                      if isExplode then ExtractArchive env s1 else None in
                    Some (Returned (mkDownloadResult (Some resp)
                                      (sr_redirectUrl r) (Join err closeErr)),
                          s1)
                end
          end
      end
  end.

(** The execution handler of [downloadFile]. Its state holds the named
    results of [downloadFile]; a panic of the attempt ends the run. *)
Definition downloadHandler {St} (W : World St) (g : Globals)
    (jc : HttpClient St) (D : Digests) (env : DownloadEnv St) (fuel : nat)
    (downloadFileDetails : DownloadFileDetails) (logMsgPrefix : string)
    (followRedirect : bool) (httpClientsDetails : HttpClientDetails St)
    (isExplode : bool) (h : Outcome DownloadResult) (s : St)
    : option (bool * option Error * Outcome DownloadResult * St) :=
  match doDownloadFile W g jc D env fuel downloadFileDetails logMsgPrefix
          followRedirect httpClientsDetails isExplode s with
  | None => None
  | Some (Panic reason, s1) => Some (false, None, Panic reason, s1)
  | Some (Returned r, s1) =>
      match dr_err r with
      | Some e =>
          if negb followRedirect && negb (String.eqb (dr_redirectUrl r) "")
          then Some (false, Some e, Returned r, s1)
          else Some (true, Some e, Returned r, s1)
      | None =>
          match dr_resp r with
          | None =>
              Some (false,
                    CheckErrorf
                      (logMsgPrefix
                         +:+ "Received empty response from file download"),
                    Returned r, s1)
          | Some resp =>
              if resp_StatusCode resp <? 500
              then Some (false, None, Returned r, s1)
              else Some (true, None, Returned r, s1)
          end
      end
  end.

Definition downloadFile {St} (W : World St) (g : Globals)
    (jc : HttpClient St) (D : Digests) (env : DownloadEnv St) (fuel : nat)
    (downloadFileDetails : DownloadFileDetails) (logMsgPrefix : string)
    (followRedirect : bool) (httpClientsDetails : HttpClientDetails St)
    (isExplode : bool) (s : St)
    : option (Outcome DownloadResult * St) :=
  let retryExecutor :=
    mkRetryExecutor None (retries jc) (retryWaitMilliSecs jc) logMsgPrefix
      ("Failure occurred while downloading "
         +:+ dfd_DownloadPath downloadFileDetails)
      (downloadHandler W g jc D env fuel downloadFileDetails logMsgPrefix
         followRedirect httpClientsDetails isExplode) in
  match Execute W retryExecutor (Returned noDownload) s with
  | None => None
  | Some (_, Panic reason, s') => Some (Panic reason, s')
  | Some (err, Returned h, s') =>
      Some (Returned (mkDownloadResult (dr_resp h) (dr_redirectUrl h) err), s')
  end.

(** [DownloadFileWithProgress] and [DownloadFile] drop the redirect URL,
    which the result keeps here. *)
Definition DownloadFile {St} (W : World St) (g : Globals)
    (jc : HttpClient St) (D : Digests) (env : DownloadEnv St) (fuel : nat)
    (downloadFileDetails : DownloadFileDetails) (logMsgPrefix : string)
    (httpClientsDetails : HttpClientDetails St) (isExplode : bool) (s : St)
    : option (Outcome DownloadResult * St) :=
  downloadFile W g jc D env fuel downloadFileDetails logMsgPrefix true
    httpClientsDetails isExplode s.

Definition DownloadFileNoRedirect {St} (W : World St) (g : Globals)
    (jc : HttpClient St) (D : Digests) (env : DownloadEnv St) (fuel : nat)
    (downloadPath localPath fileName : string)
    (httpClientsDetails : HttpClientDetails St) (s : St)
    : option (Outcome DownloadResult * St) :=
  downloadFile W g jc D env fuel
    (mkDownloadFileDetails fileName downloadPath "" localPath "" "" "" 0 false)
    "" false httpClientsDetails false s.

(** ** The chunk worker *)

(** What the file system answers to one attempt at a chunk: the errors, if
    any, of creating the temporary file, of [os.MkdirAll], of writing to
    the file and of closing it, and the name of the file. *)
Record TempIO : Type := mkTempIO {
  tmp_createErr : option Error;
  tmp_name : string;
  tmp_mkdirErr : option Error;
  tmp_writeErr : option Error;
  tmp_closeErr : option Error
}.

(** The request details of a chunk: the [Range] entry is written into the
    header map. *)
Definition withRange {St} (d : HttpClientDetails St) (start end_ : Z)
    : HttpClientDetails St :=
  mkDetails (User d) (Password d) (ApiKey d) (AccessToken d)
    (<["Range" := rangeHeader start end_]> (Headers d))
    (PreRetryInterceptors d).

(** [doDownloadFileRange], with the bytes it has written to the temporary
    file. The deferred calls close the body first and the file last; a
    return that sets the response to nil leaves the body unclosed. Reading
    the status of a nil response panics. *)
Definition doDownloadFileRange {St} (W : World St) (g : Globals)
    (jc : HttpClient St) (tio : St -> TempIO) (fuel : nat)
    (flags : ConcurrentDownloadFlags) (start end_ : Z)
    (httpClientsDetails : HttpClientDetails St) (s : St)
    : option (Outcome (RangeResult * string) * St) :=
  match CheckError (tmp_createErr (tio s)) with
  | Some e => Some (Returned (mkRangeResult "" None (Some e), ""), s)
  | None =>
      let tempClose := CheckError (tmp_closeErr (tio s)) in
      match sendGetForFileDownload W g jc fuel (DownloadPath flags) true
              (withRange httpClientsDetails start end_) "" s with
      | None => None
      | Some (r, s1) =>
          match sr_err r with
          | Some e =>
              Some (Returned (mkRangeResult "" None (Join (Some e) tempClose),
                              ""), s1)
          | None =>
              match sr_resp r with
              | None => Some (Panic "nil pointer dereference", s1)
              | Some resp =>
                  let bodyClose :=
                    CheckError (body_closeErr (resp_Body resp)) in
                  if negb (resp_StatusCode resp =? StatusPartialContent) then
                    Some (Returned (mkRangeResult "" (Some resp)
                                      (Join (Join None bodyClose) tempClose),
                                    ""), s1)
                  else
                    match CheckError (tmp_mkdirErr (tio s)) with
                    | Some e =>
                        Some (Returned (mkRangeResult "" None
                                          (Join (Some e) tempClose), ""), s1)
                    | None =>
                        let copied :=
                          match tmp_writeErr (tio s) with
                          | Some e => Some e
                          | None => body_readErr (resp_Body resp)
                          end in
                        match CheckError copied with
                        | Some e =>
                            Some (Returned (mkRangeResult "" None
                                              (Join (Some e) tempClose),
                                            body_data (resp_Body resp)), s1)
                        | None =>
                            Some (Returned
                                    (mkRangeResult (tmp_name (tio s))
                                       (Some resp)
                                       (Join (Join None bodyClose) tempClose),
                                     body_data (resp_Body resp)), s1)
                        end
                    end
              end
          end
      end
  end.

(** One attempt of the worker, as [downloadFileRange] runs it; [None]: the
    attempt returns nothing, for lack of fuel or because it panics. *)
Definition rangeAttempt {St} (W : World St) (g : Globals)
    (jc : HttpClient St) (tio : St -> TempIO) (fuel : nat)
    (flags : ConcurrentDownloadFlags) (start end_ : Z)
    (httpClientsDetails : HttpClientDetails St) (s : St)
    : option (RangeResult * St) :=
  match doDownloadFileRange W g jc tio fuel flags start end_
          httpClientsDetails s with
  | Some (Returned (r, _), s') => Some (r, s')
  | _ => None
  end.

(** The worker of a chunk: [downloadFileRange] over [doDownloadFileRange]. *)
Definition chunkWorker {St} (W : World St) (g : Globals) (jc : HttpClient St)
    (tio : St -> TempIO) (fuel : nat) (flags : ConcurrentDownloadFlags)
    (c : Chunk) (logMsgPrefix : string)
    (httpClientsDetails : HttpClientDetails St) (s : St)
    : option (RangeResult * St) :=
  downloadFileRange W jc
    (rangeAttempt W g jc tio fuel flags (chunk_start c) (chunk_end c)
       httpClientsDetails)
    flags (chunk_index c) logMsgPrefix s.


(** ** The concurrent download as a whole *)

(** What lies outside the client during [DownloadFileConcurrently]: the
    errors, if any, of creating and of removing the temporary directory, of
    [os.MkdirAll] on the local path, of removing a destination that exists
    already; whether that destination exists; the join of the local path
    and the file name as [filepath.Join] gives it; the answers of the file
    system while the destination is written; the chunk file the merge
    meets when it opens a path; and the result of the archive extractor.

    Modelled from the spec: [fileutils.CreateTempDir],
    [fileutils.RemoveTempDir] and [fileutils.IsPathExists], of the package
    [utils/io/fileutils], and [utils.ExtractArchive], none of them part of
    the sources at hand: collaborators taken by their results. *)
Record ConcurrentEnv : Type := mkConcurrentEnv {
  ce_tempDirErr : option Error;
  ce_removeTempDirErr : option Error;
  ce_mkdirErr : option Error;
  ce_pathExists : bool;
  ce_removeErr : option Error;
  ce_joinedName : string;
  ce_mergeIO : FileIO;
  ce_openChunk : string -> ChunkFile;
  ce_extractErr : option Error
}.

Definition setLocalFileName (name : string) (flags : ConcurrentDownloadFlags)
    : ConcurrentDownloadFlags :=
  mkConcurrentDownloadFlags (FileName flags) (DownloadPath flags)
    (RelativePath flags) name (LocalPath flags) (ExpectedSha1 flags)
    (ExpectedSha256 flags) (FileSize flags) (SplitCount flags) (Explode flags)
    (BypassArchiveInspection flags) (SkipChecksum flags).

(** [chunksPaths] once [downloadChunksConcurrently] is over: made with one
    slot for each chunk, slot [i] holds the file name the worker of chunk
    [i] has returned if that worker was started, and the empty string
    otherwise. *)
Definition pathSlots (stored : list string) (n : nat) : list string :=
  stored ++ replicate (n - length stored) "".

Definition chunksPathsAfter (stop : Z -> bool)
    (worker : Chunk -> RangeResult) (flags : ConcurrentDownloadFlags)
    : list string :=
  match dispatchChunks stop (FileSize flags) (SplitCount flags) with
  | Panic _ => []
  | Returned chunks =>
      pathSlots (map (fun c => rr_fileName (worker c)) chunks)
        (Z.to_nat (SplitCount flags))
  end.

(** The part of [DownloadFileConcurrently] that follows a join which has
    returned a response of status 206: the error it produces. *)
Definition mergeAfterJoin (D : Digests) (env : ConcurrentEnv)
    (chunksPaths : list string) (flags : ConcurrentDownloadFlags)
    : Outcome (option Error) :=
  match (if negb (String.eqb (LocalPath flags) "")
         then CheckError (ce_mkdirErr env) else None) with
  | Some e => Returned (Some e)
  | None =>
      let flags' :=
        if negb (String.eqb (LocalPath flags) "")
        then setLocalFileName (ce_joinedName env) flags else flags in
      match (if ce_pathExists env then CheckError (ce_removeErr env)
             else None) with
      | Some e => Returned (Some e)
      | None =>
          match mergeChunks D (map (ce_openChunk env) chunksPaths) flags'
                  (ce_mergeIO env) with
          | Panic reason => Panic reason
          | Returned (Some e, _) => Returned (Some e)
          | Returned (None, _) =>
              if Explode flags' then Returned (ce_extractErr env)
              else Returned None
          end
      end
  end.

(** [DownloadFileConcurrently]; [stop] and [worker] are those of
    [downloadChunksConcurrently]. The removal of the temporary directory is
    deferred: its error is joined to the error of every return that follows
    the creation of the directory. *)
Definition DownloadFileConcurrently (D : Digests) (env : ConcurrentEnv)
    (stop : Z -> bool) (worker : Chunk -> RangeResult)
    (flags : ConcurrentDownloadFlags)
    : Outcome (option Response * option Error) :=
  match ce_tempDirErr env with
  | Some e => Returned (None, Some e)
  | None =>
      match downloadChunksConcurrently stop worker flags with
      | Panic reason => Panic reason
      | Returned (resp, Some e) =>
          Returned (resp, Join (Some e) (ce_removeTempDirErr env))
      | Returned (None, None) => Panic "nil pointer dereference"
      | Returned (Some r, None) =>
          if negb (resp_StatusCode r =? StatusPartialContent)
          then Returned (Some r, Join None (ce_removeTempDirErr env))
          else
            match mergeAfterJoin D env
                    (chunksPathsAfter stop worker flags) flags with
            | Panic reason => Panic reason
            | Returned err =>
                Returned (Some r, Join err (ce_removeTempDirErr env))
            end
      end
  end.

(** The bytes of [content] from offset [start] up to offset [end_]. *)
Definition byteRange (content : string) (start end_ : Z) : string :=
  String.substring (Z.to_nat start) (Z.to_nat (end_ - start)) content.

(** The chunk file that holds the bytes of the range of chunk [c]. *)
Definition chunkFileOf (content : string) (c : Chunk) : ChunkFile :=
  mkChunkFile None (byteRange content (chunk_start c) (chunk_end c)) None None.


(** ** More sample values *)

(** A world whose transport fails on every request; its state counts the
    requests. *)
Definition downWorld : World nat :=
  mkWorld
    (fun req n => (RTError "connection refused", S n))
    (fun _ n => n)
    (fun _ n => (inl "no such file", n))
    (fun m _ => map_to_list m)
    (fun _ _ => None)
    "agent"
    quoted.

(** A world whose transport knows no scheme; its state counts the
    requests. *)
Definition noSchemeWorld : World nat :=
  mkWorld
    (fun req n =>
       (RTError ("unsupported protocol scheme " +:+ quoted "ftp"), S n))
    (fun _ n => n)
    (fun _ n => (inl "no such file", n))
    (fun m _ => map_to_list m)
    (fun _ _ => None)
    "agent"
    quoted.

Definition resp503 : Response :=
  mkResponse "503 Service Unavailable" 503 ∅ sampleBody.

(** A world that answers every request 503; its state counts the
    requests. *)
Definition unavailableWorld : World nat :=
  mkWorld
    (fun req n => (RTFinal resp503, S n))
    (fun _ n => n)
    (fun _ n => (inl "no such file", n))
    (fun m _ => map_to_list m)
    (fun _ _ => None)
    "agent"
    quoted.

(** Request details with one pre-retry interceptor, which refuses. *)
Definition vetoing (St : Type) : HttpClientDetails St :=
  mkDetails "" "" "" "" ∅ [fun s => (false, s)].


(** A world that answers every request 404; its state counts the
    requests. *)
Definition notFoundWorld : World nat :=
  mkWorld
    (fun req n => (RTFinal resp404, S n))
    (fun _ n => n)
    (fun _ n => (inl "no such file", n))
    (fun m _ => map_to_list m)
    (fun _ _ => None)
    "agent"
    quoted.

(** A 200 response of twelve bytes that announces its length and accepts
    ranges, and a world that answers every request with it. *)
Definition helloWorldResponse : Response :=
  mkResponse "200 OK" 200
    (<["Accept-Ranges" := ["bytes"]]> (<["Content-Length" := ["12"]]> ∅))
    (mkBody "hello world!" None None).

Definition helloWorld : World nat :=
  mkWorld
    (fun req n => (RTFinal helloWorldResponse, S n))
    (fun _ n => n)
    (fun _ n => (inl "no such file", n))
    (fun m _ => map_to_list m)
    (fun _ _ => None)
    "agent"
    quoted.


(** A download whose expected SHA-1 is not the one of the bytes served. *)
Definition wrongDownload : DownloadFileDetails :=
  mkDownloadFileDetails "file" "http://a/file" "file" "dir" "file"
    "0000" "" 12 false.

(** A file system and an extractor that never fail. *)
Definition fineEnv (St : Type) : DownloadEnv St :=
  mkDownloadEnv (fun _ => ioFine) (fun _ => None).

(** A world that answers every request with a redirect to [http://b]; its
    state counts the requests. *)
Definition movedWorld : World nat :=
  mkWorld
    (fun req n =>
       (RTRedirect resp302 "http://b"
          (mkRequest "GET" "http://b" ∅ None false 0), S n))
    (fun _ n => n)
    (fun _ n => (inl "no such file", n))
    (fun m _ => map_to_list m)
    (fun _ _ => None)
    "agent"
    quoted.


(** A world in which no file can be opened; its state counts the requests
    that reach the transport and the attempts to open a file. *)
Definition lockedWorld : World (nat * nat) :=
  mkWorld
    (fun req s => (RTFinal resp200, (S s.1, s.2)))
    (fun _ s => s)
    (fun _ s => (inl "permission denied", (s.1, S s.2)))
    (fun m _ => map_to_list m)
    (fun _ _ => None)
    "agent"
    quoted.





(** * Part II: properties *)

(** ** Arithmetic of the partition *)

Lemma Int64_wrap_small z : Int64.in_range z -> Int64.wrap z = z.
Proof.
  unfold Int64.in_range, Int64.min_int, Int64.max_int, Int64.wrap. intros H.
  rewrite Z.mod_small; lia.
Qed.

Section Partition.

Variables fileSize N : Z.
Hypothesis HN : 1 <= N <= Int64.max_int.
Hypothesis Hsize : 0 <= fileSize <= Int64.max_int.

Lemma chunkBounds_spec i :
  0 <= i < N -> chunkBounds fileSize N i = specBounds fileSize N i.
Proof using HN Hsize.
  intros Hi. unfold chunkBounds, specBounds, Int64.quo, Int64.rem,
    Int64.mul, Int64.add.
  rewrite Z.quot_div_nonneg, Z.rem_mod_nonneg by int64_range.
  assert (Hq : 0 <= fileSize / N) by (apply Z.div_pos; lia).
  assert (Hm : 0 <= fileSize mod N < N) by (apply Z.mod_pos_bound; lia).
  assert (Hd : fileSize = N * (fileSize / N) + fileSize mod N)
    by (apply Z.div_mod; lia).
  assert (Hle : fileSize / N * (i + 1) <= fileSize - fileSize mod N) by nia.
  rewrite (Int64_wrap_small (fileSize / N)) by int64_range.
  rewrite (Int64_wrap_small (fileSize mod N)) by int64_range.
  rewrite (Int64_wrap_small (i + 1)) by int64_range.
  rewrite (Int64_wrap_small (fileSize / N * i)) by int64_range.
  rewrite (Int64_wrap_small (fileSize / N * (i + 1))) by int64_range.
  destruct (i =? N - 1) eqn:E; [|by rewrite Z.add_0_r].
  rewrite Int64_wrap_small; [done|]. int64_range.
Qed.

Lemma dispatchLoop_lookup stop n i k c :
  0 <= i -> i + Z.of_nat n <= N ->
  dispatchLoop stop fileSize N n i !! k = Some c ->
  chunk_index c = i + Z.of_nat k /\
  (chunk_start c, chunk_end c) = specBounds fileSize N (i + Z.of_nat k) /\
  i + Z.of_nat k < N.
Proof using HN Hsize.
  revert i k. induction n as [|n IH]; intros i k Hi Hn; [done|].
  cbn [dispatchLoop]. destruct ((0 <? i) && stop i); [done|].
  destruct (chunkBounds fileSize N i) as [s e] eqn:Hb.
  rewrite chunkBounds_spec in Hb by lia.
  destruct k as [|k]; cbn.
  - intros [= <-]. cbn. rewrite Z.add_0_r. split; [done|]. split; [done|lia].
  - intros Hk. apply IH in Hk; [|lia|lia].
    replace (i + Z.of_nat (S k)) with (i + 1 + Z.of_nat k) by lia. done.
Qed.

Lemma dispatchLoop_never_length stop n i :
  (forall j, stop j = false) ->
  length (dispatchLoop stop fileSize N n i) = n.
Proof.
  intros Hs. revert i. induction n as [|n IH]; intros i; [done|].
  cbn [dispatchLoop]. rewrite Hs, andb_false_r.
  destruct (chunkBounds fileSize N i). cbn. by rewrite IH.
Qed.

(** Every byte offset below the file size lies in the range the formula
    gives for exactly one index. *)
Lemma specBounds_cover x :
  0 <= x < fileSize ->
  exists i, 0 <= i < N /\
    (specBounds fileSize N i).1 <= x < (specBounds fileSize N i).2.
Proof using HN Hsize.
  intros Hx. unfold specBounds. cbn [fst snd].
  assert (Hm : 0 <= fileSize mod N < N) by (apply Z.mod_pos_bound; lia).
  assert (Hd : fileSize = N * (fileSize / N) + fileSize mod N)
    by (apply Z.div_mod; lia).
  assert (Hq : 0 <= fileSize / N) by (apply Z.div_pos; lia).
  destruct (Z_lt_le_dec x (fileSize / N * (N - 1))) as [Hlt|Hge].
  - assert (Hb : 0 < fileSize / N) by nia.
    exists (x / (fileSize / N)).
    assert (Hxd : x = (fileSize / N) * (x / (fileSize / N)) + x mod (fileSize / N))
      by (apply Z.div_mod; lia).
    assert (Hxm : 0 <= x mod (fileSize / N) < fileSize / N)
      by (apply Z.mod_pos_bound; lia).
    assert (Hxq : 0 <= x / (fileSize / N)) by (apply Z.div_pos; lia).
    assert (Hi : x / (fileSize / N) < N - 1) by nia.
    split; [lia|].
    destruct (x / (fileSize / N) =? N - 1) eqn:E; [lia|]. nia.
  - exists (N - 1). split; [lia|]. rewrite Z.eqb_refl. nia.
Qed.

Lemma specBounds_disjoint i j x :
  0 <= i < N -> 0 <= j < N ->
  (specBounds fileSize N i).1 <= x < (specBounds fileSize N i).2 ->
  (specBounds fileSize N j).1 <= x < (specBounds fileSize N j).2 ->
  i = j.
Proof using HN Hsize.
  unfold specBounds. cbn [fst snd]. intros Hi Hj Hxi Hxj.
  assert (Hm : 0 <= fileSize mod N < N) by (apply Z.mod_pos_bound; lia).
  assert (Hq : 0 <= fileSize / N) by (apply Z.div_pos; lia).
  destruct (i =? N - 1) eqn:Ei, (j =? N - 1) eqn:Ej; try lia; nia.
Qed.

Lemma specBounds_within i x :
  0 <= i < N ->
  (specBounds fileSize N i).1 <= x < (specBounds fileSize N i).2 ->
  0 <= x < fileSize.
Proof using HN Hsize.
  unfold specBounds. cbn [fst snd]. intros Hi Hx.
  assert (Hm : 0 <= fileSize mod N < N) by (apply Z.mod_pos_bound; lia).
  assert (Hd : fileSize = N * (fileSize / N) + fileSize mod N)
    by (apply Z.div_mod; lia).
  assert (Hq : 0 <= fileSize / N) by (apply Z.div_pos; lia).
  destruct (i =? N - 1) eqn:Ei; nia.
Qed.

End Partition.

(** C1. For a split count [N >= 1] and a file size [fileSize >= 0], both
    within [int64], the dispatch loop returns without panic; the chunk it
    hands to the worker of index [k] has [start = (fileSize div N) * k] and
    [end = (fileSize div N) * (k + 1)], increased by [fileSize mod N] for
    [k = N - 1]; two distinct chunks never share a byte offset; and when the
    loop is not left early there are [N] chunks and the offsets they cover
    are exactly those of [0, fileSize). *)
Theorem chunk_ranges_partition (stop : Z -> bool) (fileSize N : Z) :
  1 <= N <= Int64.max_int ->
  0 <= fileSize <= Int64.max_int ->
  exists chunks : list Chunk,
    dispatchChunks stop fileSize N = Returned chunks /\
    (forall (k : nat) c, chunks !! k = Some c ->
       chunk_index c = Z.of_nat k /\ Z.of_nat k < N /\
       chunk_start c = fileSize / N * Z.of_nat k /\
       chunk_end c =
         fileSize / N * (Z.of_nat k + 1)
         + (if Z.of_nat k =? N - 1 then fileSize mod N else 0)) /\
    (forall (j k : nat) cj ck x,
       chunks !! j = Some cj -> chunks !! k = Some ck ->
       chunk_start cj <= x < chunk_end cj ->
       chunk_start ck <= x < chunk_end ck -> j = k) /\
    ((forall i, stop i = false) ->
       length chunks = Z.to_nat N /\
       (forall x, 0 <= x < fileSize <->
          exists c, c ∈ chunks /\ chunk_start c <= x < chunk_end c)).
Proof.
  intros HN Hsize. unfold dispatchChunks.
  destruct (N <? 0) eqn:E1; [lia|]. destruct (N =? 0) eqn:E2; [lia|].
  set (chunks := dispatchLoop stop fileSize N (Z.to_nat N) 0).
  assert (Hlook : forall (k : nat) c, chunks !! k = Some c ->
            chunk_index c = Z.of_nat k /\
            (chunk_start c, chunk_end c) = specBounds fileSize N (Z.of_nat k) /\
            Z.of_nat k < N).
  { intros k c Hk. apply (dispatchLoop_lookup fileSize N HN Hsize) in Hk; [|lia|lia].
    by rewrite !Z.add_0_l in Hk. }
  exists chunks. split; [done|]. split; [|split].
  - intros k c Hk. destruct (Hlook k c Hk) as (Hi & Hb & Hlt).
    unfold specBounds in Hb. injection Hb as Hs He. done.
  - intros j k cj ck x Hj Hk Hxj Hxk.
    destruct (Hlook j cj Hj) as (_ & Hbj & Hltj).
    destruct (Hlook k ck Hk) as (_ & Hbk & Hltk).
    apply Nat2Z.inj.
    apply (specBounds_disjoint fileSize N HN Hsize _ _ x); try lia.
    + by rewrite <- Hbj.
    + by rewrite <- Hbk.
  - intros Hstop.
    assert (Hlen : length chunks = Z.to_nat N)
      by (apply dispatchLoop_never_length; done).
    split; [done|]. intros x. split.
    + intros Hx.
      destruct (specBounds_cover fileSize N HN Hsize x Hx) as (i & Hi & Hin).
      destruct (lookup_lt_is_Some_2 chunks (Z.to_nat i)) as [c Hc]; [lia|].
      exists c. split; [by eapply list_elem_of_lookup_2|].
      destruct (Hlook _ c Hc) as (_ & Hb & _).
      rewrite Z2Nat.id in Hb by lia.
      rewrite <- Hb in Hin. done.
    + intros (c & Hc & Hin).
      apply list_elem_of_lookup in Hc as [k Hk].
      destruct (Hlook k c Hk) as (_ & Hb & Hlt).
      apply (specBounds_within fileSize N HN Hsize (Z.of_nat k)); [lia|].
      by rewrite <- Hb.
Qed.

Lemma chunk_ranges_partition_witness :
  exists chunks : list Chunk,
    dispatchChunks (fun _ => false) 10 3 = Returned chunks /\
    length chunks = 3%nat.
Proof.
  destruct (chunk_ranges_partition (fun _ => false) 10 3)
    as (chunks & Hd & _ & _ & Hall).
  - unfold Int64.max_int. lia.
  - unfold Int64.max_int. lia.
  - exists chunks. split; [exact Hd|]. apply Hall. reflexivity.
Defined.

(** ** The join *)

Lemma firstError_None l :
  firstError l = None <-> (forall i e, l !! i = Some e -> e = None).
Proof.
  induction l as [|[e|] l IH]; cbn.
  - split; [intros _ i e; by rewrite lookup_nil|done].
  - split; [done|]. intros H. by specialize (H 0%nat (Some e) eq_refl).
  - rewrite IH. split.
    + intros H [|i] e; cbn; [by intros [= <-]|apply H].
    + intros H i e Hi. apply (H (S i)). done.
Qed.

Lemma firstError_Some l e :
  firstError l = Some e ->
  exists i, l !! i = Some (Some e) /\
    forall j, (j < i)%nat -> l !! j = Some None.
Proof.
  induction l as [|[e'|] l IH]; cbn; [done| |].
  - intros [= ->]. exists 0%nat. split; [done|]. lia.
  - intros H. destruct (IH H) as (i & Hi & Hlt). exists (S i). split; [done|].
    intros [|j] Hj; [done|]. cbn. apply Hlt. lia.
Qed.

(** The scan for an unexpected status, on a list whose slots are filled
    up to an unexpected response at index [j]. *)
Lemma firstUnexpected_found respList j r :
  respList !! j = Some (Some r) ->
  resp_StatusCode r <> StatusPartialContent ->
  (forall i, (i < j)%nat -> exists r', respList !! i = Some (Some r')) ->
  exists j' r',
    respList !! j' = Some (Some r') /\
    resp_StatusCode r' <> StatusPartialContent /\
    (forall m r'', (m < j')%nat -> respList !! m = Some (Some r'') ->
       resp_StatusCode r'' = StatusPartialContent) /\
    firstUnexpected respList = Returned (Some r').
Proof.
  revert j. induction respList as [|o l IH]; intros j Hj Hr Hfill; [done|].
  destruct j as [|j].
  - cbn in Hj. injection Hj as ->. cbn.
    destruct (resp_StatusCode r =? StatusPartialContent) eqn:E; [lia|].
    exists 0%nat, r. cbn. repeat split; try done. lia.
  - destruct (Hfill 0%nat ltac:(lia)) as [r0 Hr0]. cbn in Hr0.
    injection Hr0 as ->. cbn.
    destruct (resp_StatusCode r0 =? StatusPartialContent) eqn:E; cbn.
    + destruct (IH j Hj Hr) as (j' & r' & H1 & H2 & H3 & H4).
      { intros i Hi. apply (Hfill (S i)). lia. }
      exists (S j'), r'. repeat split; try done.
      intros [|m] r'' Hm; cbn; [intros [= <-]; lia|]. apply H3. lia.
    + exists 0%nat, r0. cbn. repeat split; try done; lia.
Qed.

Lemma firstUnexpected_all respList :
  (forall i, (i < length respList)%nat ->
     exists r, respList !! i = Some (Some r) /\
               resp_StatusCode r = StatusPartialContent) ->
  firstUnexpected respList = Returned None.
Proof.
  induction respList as [|o l IH]; intros H; [done|].
  destruct (H 0%nat ltac:(cbn; lia)) as (r & Hr & Hs). cbn in Hr.
  injection Hr as ->. cbn. rewrite Hs. cbn. apply IH.
  intros i Hi. apply (H (S i)). cbn. lia.
Qed.

(** C2. After the wait, the join returns the first error stored, with a
    nil response, if some slot holds an error; otherwise the first response
    in index order whose status is not 206, with a nil error, if there is
    one; otherwise the response of the last slot, of status 206, with a
    nil error. *)
Theorem join_result (k : nat) (errorsList : list (option Error))
    (respList : list (option Response)) :
  afterWait k errorsList respList ->
  (forall i e, errorsList !! i = Some (Some e) ->
     exists j e',
       errorsList !! j = Some (Some e') /\
       (forall m, (m < j)%nat -> errorsList !! m = Some None) /\
       joinChunks errorsList respList = Returned (None, Some e')) /\
  ((forall i e, errorsList !! i = Some e -> e = None) ->
     (forall i r, respList !! i = Some (Some r) ->
        resp_StatusCode r <> StatusPartialContent ->
        exists j r',
          respList !! j = Some (Some r') /\
          resp_StatusCode r' <> StatusPartialContent /\
          (forall m r'', (m < j)%nat -> respList !! m = Some (Some r'') ->
             resp_StatusCode r'' = StatusPartialContent) /\
          joinChunks errorsList respList = Returned (Some r', None)) /\
     ((forall i r, respList !! i = Some (Some r) ->
         resp_StatusCode r = StatusPartialContent) ->
      exists r,
        last respList = Some (Some r) /\
        resp_StatusCode r = StatusPartialContent /\
        joinChunks errorsList respList = Returned (Some r, None))).
Proof.
  intros (Hlen & Hk & Hfill & Hrest & Hearly). split.
  - intros i e Hi. unfold joinChunks.
    destruct (firstError errorsList) as [e'|] eqn:E.
    + destruct (firstError_Some _ _ E) as (j & Hj & Hlt).
      exists j, e'. done.
    + rewrite firstError_None in E. by specialize (E _ _ Hi).
  - intros Hnoerr.
    assert (E : firstError errorsList = None) by (by apply firstError_None).
    assert (Hsome : forall i, (i < k)%nat ->
              exists r, respList !! i = Some (Some r)).
    { intros i Hi.
      destruct (lookup_lt_is_Some_2 errorsList i) as [e He]; [lia|].
      destruct (lookup_lt_is_Some_2 respList i) as [r Hr]; [lia|].
      destruct (Hfill i e r Hi He Hr) as [[x ->]|[x ->]].
      - by specialize (Hnoerr _ _ He).
      - by exists x. }
    split.
    + intros i r Hi Hr. unfold joinChunks. rewrite E.
      assert (Hik : (i < k)%nat).
      { destruct (Nat.lt_ge_cases i k) as [|Hge]; [done|].
        apply lookup_lt_Some in Hi as Hil.
        destruct (Hrest i ltac:(lia)) as [_ Hn]. congruence. }
      destruct (firstUnexpected_found respList i r Hi Hr)
        as (j & r' & H1 & H2 & H3 & H4).
      { intros m Hm. apply Hsome. lia. }
      exists j, r'. rewrite H4. done.
    + intros Hall. unfold joinChunks. rewrite E.
      assert (Hkn : k = length errorsList).
      { destruct (Nat.lt_ge_cases k (length errorsList)) as [Hlt|]; [|lia].
        destruct (Hearly Hlt) as (j & Hj & [[e He]|(r & Hr & Hs)]).
        - by specialize (Hnoerr _ _ He).
        - by specialize (Hall _ _ Hr). }
      rewrite firstUnexpected_all.
      2:{ intros i Hi. destruct (Hsome i ltac:(lia)) as [r Hr].
          exists r. split; [done|]. by eapply Hall. }
      destruct (Hsome (pred (length respList)) ltac:(lia)) as [r Hr].
      rewrite <- last_lookup in Hr. rewrite Hr.
      exists r. split; [done|]. split; [|done].
      rewrite last_lookup in Hr. by eapply Hall.
Qed.

Lemma join_result_witness :
  exists j r',
    [Some resp206; Some resp404] !! j = Some (Some r') /\
    joinChunks [None; None] [Some resp206; Some resp404]
      = Returned (Some r', None).
Proof.
  assert (Hw : afterWait 2 [None; None] [Some resp206; Some resp404]).
  { split; [reflexivity|]. split; [cbn; lia|]. split; [|split].
    - intros [|[|i]] e r Hi He Hr; try lia; cbn in Hr;
        injection Hr as <-; right; eexists; reflexivity.
    - cbn. intros i Hi. lia.
    - cbn. lia. }
  destruct (join_result 2 _ _ Hw) as [_ Hno].
  destruct Hno as [Hfirst _].
  { intros [|[|i]] e He; cbn in He; try (injection He as <-; reflexivity).
    discriminate He. }
  destruct (Hfirst 1%nat resp404 eq_refl) as (j & r' & H1 & _ & _ & H4).
  { cbn. unfold StatusPartialContent. lia. }
  exists j, r'. split; [exact H1|exact H4].
Defined.

(** ** Authentication *)

Lemma setHeader_Header key value req :
  req_Header (setHeader key value req)
  = <[textproto.CanonicalMIMEHeaderKey key := [value]]> (req_Header req).
Proof. reflexivity. Qed.

Lemma present_eqb s : negb (String.eqb s "") = present s.
Proof. reflexivity. Qed.

(** [setAuthentication] implements the selection of the specification. *)
Lemma setAuthentication_spec {St} (req : Request) (d : HttpClientDetails St) :
  setAuthentication req d =
  mkRequest (req_Method req) (req_URL req)
    (specAuthHeaders (specAuthScheme d) (req_Header req))
    (req_Body req) (req_Close req) (req_ContentLength req).
Proof.
  unfold setAuthentication, specAuthScheme, IsApiKey, HasPrefix,
    apiKeyPrefix, apiKeyMinimalLength.
  rewrite !present_eqb.
  destruct (present (ApiKey d)), (present (User d)),
    (present (AccessToken d)),
    (String.prefix "AKCp8" (AccessToken d) && (73 <=? len (AccessToken d))),
    (present (Password d)); cbn [andb]; try reflexivity;
    by destruct req.
Qed.

Lemma basic_not_bearer x y : "Basic " +:+ x <> "Bearer " +:+ y.
Proof. intros H. cbv [append] in H. discriminate H. Qed.

(** C3. The authentication decorator changes the headers of the request,
    and nothing else of it, as the one scheme does that the priority of
    the specification selects: Basic(user, apiKey) for an API key with a
    user name, [X-JFrog-Art-Api] for an API key alone, Basic(user, token)
    for an access token that looks like an API key, [Bearer] for another
    access token, Basic(user, password) for a password, nothing otherwise.
    On a request that carries no credentials yet, the result never holds
    both an [Authorization] and an [X-JFrog-Art-Api] header, and its
    [Authorization] header has at most one value, Basic or Bearer. *)
Theorem setAuthentication_one_scheme {St} (req : Request)
    (d : HttpClientDetails St) :
  let req' := setAuthentication req d in
  req_Header req' = specAuthHeaders (specAuthScheme d) (req_Header req) /\
  req_Method req' = req_Method req /\ req_URL req' = req_URL req /\
  req_Body req' = req_Body req /\ req_Close req' = req_Close req /\
  req_ContentLength req' = req_ContentLength req /\
  (forall name,
     name <> "Authorization" -> name <> "X-Jfrog-Art-Api" ->
     req_Header req' !! name = req_Header req !! name) /\
  (req_Header req !! "Authorization" = None ->
   req_Header req !! "X-Jfrog-Art-Api" = None ->
   match specAuthScheme d with
   | BasicAuth user password =>
       req_Header req' !! "Authorization" =
         Some ["Basic " +:+ base64.EncodeToString (user +:+ ":" +:+ password)]
       /\ req_Header req' !! "X-Jfrog-Art-Api" = None
   | ApiKeyHeader key =>
       req_Header req' !! "X-Jfrog-Art-Api" = Some [key]
       /\ req_Header req' !! "Authorization" = None
   | BearerAuth token =>
       req_Header req' !! "Authorization" = Some ["Bearer " +:+ token]
       /\ req_Header req' !! "X-Jfrog-Art-Api" = None
   | NoAuth =>
       req_Header req' !! "Authorization" = None
       /\ req_Header req' !! "X-Jfrog-Art-Api" = None
   end).
Proof.
  cbn zeta. rewrite setAuthentication_spec. cbn [req_Header req_Method req_URL
    req_Body req_Close req_ContentLength].
  repeat split; try reflexivity.
  - intros name Ha Hx. destruct (specAuthScheme d); cbn [specAuthHeaders];
      try reflexivity; by rewrite lookup_insert_ne.
  - intros Ha Hx. destruct (specAuthScheme d); cbn [specAuthHeaders].
    + rewrite lookup_insert_eq, lookup_insert_ne by done. done.
    + rewrite lookup_insert_eq, lookup_insert_ne by done. done.
    + rewrite lookup_insert_eq, lookup_insert_ne by done. done.
    + done.
Qed.

Lemma setAuthentication_one_scheme_witness :
  req_Header (setAuthentication emptyRequest
                (mkDetails (St := unit) "admin" "" "key" "" ∅ []))
    !! "X-Jfrog-Art-Api" = None.
Proof.
  pose proof (setAuthentication_one_scheme emptyRequest
                (mkDetails (St := unit) "admin" "" "key" "" ∅ [])) as H.
  cbn zeta in H.
  destruct H as (_ & _ & _ & _ & _ & _ & _ & H).
  apply H; reflexivity.
Defined.

(** ** The retry predicate *)

Lemma runInterceptors_true {St} (l : list (St -> bool * St)) (s : St) :
  (runInterceptors l s).1 = true <-> allAnswerTrue l s.
Proof.
  revert s. induction l as [|f l IH]; intros s; cbn; [done|].
  destruct (f s) as [b s'] eqn:E. cbn. destruct b; cbn.
  - rewrite IH. split; [intros H; by split|intros [_ H]; exact H].
  - split; [done|intros [H _]; done].
Qed.

(** C4. The retry predicate of [Send] answers true if and only if the
    status code is at least 500 or is 429, and every pre-retry interceptor
    of the caller answers true. *)
Theorem shouldRetry_iff {St} (resp : Response) (d : HttpClientDetails St)
    (s : St) :
  (shouldRetry resp d s).1 = true <->
  (500 <= resp_StatusCode resp \/ resp_StatusCode resp = 429) /\
  allAnswerTrue (PreRetryInterceptors d) s.
Proof.
  unfold shouldRetry, StatusTooManyRequests.
  destruct (Z.ltb_spec (resp_StatusCode resp) 500) as [Hlt|Hge];
    destruct (Z.eqb_spec (resp_StatusCode resp) 429) as [Heq|Hne];
    cbn [andb negb]; rewrite ?runInterceptors_true.
  - split; [intros H; split; [by right|exact H]|intros [_ H]; exact H].
  - cbn [fst]. split; [done|]. intros [[H|H] _]; lia.
  - split; [intros H; split; [by right|exact H]|intros [_ H]; exact H].
  - split; [intros H; split; [by left|exact H]|intros [_ H]; exact H].
Qed.

(** When the status alone rules a retry out, no interceptor is called. *)
Lemma shouldRetry_no_retry {St} (resp : Response) (d : HttpClientDetails St)
    (s : St) :
  resp_StatusCode resp < 500 -> resp_StatusCode resp <> 429 ->
  shouldRetry resp d s = (false, s).
Proof.
  intros H1 H2. unfold shouldRetry, StatusTooManyRequests.
  destruct (resp_StatusCode resp <? 500) eqn:E1; [|lia].
  destruct (resp_StatusCode resp =? 429) eqn:E2; [lia|done].
Qed.

(** ** Header composition *)

Lemma copyHeaders_snoc entries k v req :
  copyHeaders (entries ++ [(k, v)]) req = setHeader k v (copyHeaders entries req).
Proof. unfold copyHeaders. by rewrite foldl_app. Qed.

Lemma lastValue_snoc name entries k v :
  lastValue name (entries ++ [(k, v)]) =
  if decide (textproto.CanonicalMIMEHeaderKey k = name) then Some v
  else lastValue name entries.
Proof. unfold lastValue. by rewrite foldl_app. Qed.

(** After the copy, a header name holds the value of the last entry of
    the caller under that name, and what it held before if there is none. *)
Lemma copyHeaders_lookup entries req name :
  req_Header (copyHeaders entries req) !! name =
  match lastValue name entries with
  | Some v => Some [v]
  | None => req_Header req !! name
  end.
Proof.
  induction entries as [|[k v] entries IH] using rev_ind; [done|].
  rewrite copyHeaders_snoc, lastValue_snoc, setHeader_Header.
  destruct (decide (textproto.CanonicalMIMEHeaderKey k = name)) as [<-|Hk].
  - by rewrite lookup_insert_eq.
  - by rewrite lookup_insert_ne.
Qed.

Lemma setAuthentication_other {St} (req : Request) (d : HttpClientDetails St)
    name :
  name <> "Authorization" -> name <> "X-Jfrog-Art-Api" ->
  req_Header (setAuthentication req d) !! name = req_Header req !! name.
Proof.
  intros Ha Hx. rewrite setAuthentication_spec. cbn [req_Header].
  destruct (specAuthScheme d); cbn [specAuthHeaders]; try reflexivity;
    by rewrite lookup_insert_ne.
Qed.

Lemma traceToken_set T g : uberTraceIdToken (SetUberTraceIdToken T g) <> "".
Proof. destruct T; discriminate. Qed.

(** C5, as amended. In the request [doRequest] builds, the [User-Agent]
    header holds the value the caller gave under that name, if any, and the
    injected user agent otherwise; the trace-id header is written after the
    headers of the caller: once a token is set the header holds that token
    and nothing else, whatever the caller gave under that name; and after
    the trace-id has been set to [T] the request carries exactly one
    [uber-trace-id] value, [T:T:0:0]. *)
Theorem decorateRequest_headers {St} (g : Globals) (userAgent : string)
    (entries : list (string * string)) (req : Request)
    (d : HttpClientDetails St) (T : string) :
  req_Header (decorateRequest g userAgent entries req d) !! "User-Agent"
    = Some [default userAgent (lastValue "User-Agent" entries)] /\
  req_Header (decorateRequest g userAgent entries req d) !! "Uber-Trace-Id"
    = (if String.eqb (uberTraceIdToken g) ""
       then match lastValue "Uber-Trace-Id" entries with
            | Some v => Some [v]
            | None => req_Header req !! "Uber-Trace-Id"
            end
       else Some [uberTraceIdToken g]) /\
  Header_Values uberTraceIdHeader
    (req_Header (decorateRequest (SetUberTraceIdToken T g) userAgent entries
                   req d))
    = [T +:+ ":" +:+ T +:+ ":0:0"].
Proof.
  assert (Hua : forall g',
    req_Header (decorateRequest g' userAgent entries req d) !! "User-Agent"
    = Some [default userAgent (lastValue "User-Agent" entries)]).
  { intros g'. unfold decorateRequest, addUberTraceIdHeaderIfSet.
    assert (H : req_Header
                  (copyHeaders entries
                     (addUserAgentHeader userAgent
                        (setAuthentication (setClose req) d))) !! "User-Agent"
                = Some [default userAgent (lastValue "User-Agent" entries)]).
    { rewrite copyHeaders_lookup. destruct (lastValue _ _); [done|].
      unfold addUserAgentHeader. rewrite setHeader_Header.
      by rewrite lookup_insert_eq. }
    destruct (String.eqb (uberTraceIdToken g') ""); [exact H|].
    rewrite setHeader_Header. rewrite lookup_insert_ne by (vm_compute; discriminate). exact H. }
  assert (Htr : forall g',
    req_Header (decorateRequest g' userAgent entries req d) !! "Uber-Trace-Id"
    = (if String.eqb (uberTraceIdToken g') ""
       then match lastValue "Uber-Trace-Id" entries with
            | Some v => Some [v]
            | None => req_Header req !! "Uber-Trace-Id"
            end
       else Some [uberTraceIdToken g'])).
  { intros g'. unfold decorateRequest, addUberTraceIdHeaderIfSet.
    destruct (String.eqb (uberTraceIdToken g') "").
    - rewrite copyHeaders_lookup.
      destruct (lastValue "Uber-Trace-Id" entries); [reflexivity|].
      unfold addUserAgentHeader. rewrite setHeader_Header.
      rewrite lookup_insert_ne by (vm_compute; discriminate).
      rewrite setAuthentication_other by done. by destruct req.
    - rewrite setHeader_Header. by rewrite lookup_insert_eq. }
  split; [apply Hua|]. split; [apply Htr|].
  unfold Header_Values. change (textproto.CanonicalMIMEHeaderKey uberTraceIdHeader)
    with "Uber-Trace-Id". rewrite Htr.
  pose proof (traceToken_set T g) as Hne.
  destruct (String.eqb_spec (uberTraceIdToken (SetUberTraceIdToken T g)) "");
    [done|reflexivity].
Qed.

(** C5, the statement of the specification does not hold as it stands:
    with the trace-id set to [T], a header [uber-trace-id] that the caller
    provides does not override the injected one. *)
Lemma caller_trace_id_is_replaced :
  lastValue "Uber-Trace-Id" [("uber-trace-id", "caller")] = Some "caller" /\
  Header_Values uberTraceIdHeader
    (req_Header
       (decorateRequest (SetUberTraceIdToken "T" (mkGlobals "")) "agent"
          [("uber-trace-id", "caller")] emptyRequest (anonymous unit)))
  = ["T:T:0:0"] /\
  Header_Values uberTraceIdHeader
    (req_Header
       (decorateRequest (SetUberTraceIdToken "T" (mkGlobals "")) "agent"
          [("uber-trace-id", "caller")] emptyRequest (anonymous unit)))
  <> ["caller"].
Proof. split; [reflexivity|]. split; [reflexivity|discriminate]. Qed.

(** ** The retry executor *)

Section Retry.

Context {St H : Type}.
Variable W : World St.
Variable runner : RetryExecutor St H.

(** An attempt that asks for no retry ends the run with its error. *)
Lemma retryLoop_stop n last h s err h' s' :
  ExecutionHandler runner h s = Some (false, err, h', s') ->
  retryLoop W runner (S n) last h s = Some (err, h', s').
Proof. intros E. cbn. by rewrite E. Qed.

Lemma Execute_first h s err h' s' :
  0 <= MaxRetries runner ->
  ExecutionHandler runner h s = Some (false, err, h', s') ->
  Execute W runner h s = Some (err, h', s').
Proof.
  intros HR E. unfold Execute.
  destruct (Z.to_nat (MaxRetries runner + 1)) as [|n] eqn:En; [lia|].
  by apply retryLoop_stop.
Qed.

(** A run whose handler always returns, returns. *)
Lemma retryLoop_total n last h s :
  (forall h s, is_Some (ExecutionHandler runner h s)) ->
  is_Some (retryLoop W runner n last h s).
Proof.
  intros Htot. revert last h s.
  induction n as [|n IH]; intros last h s; cbn; [by eexists|].
  destruct (Htot h s) as [[[[again err] h'] s'] E]. rewrite E.
  destruct again; cbn; [|by eexists].
  destruct n; [apply IH|].
  destruct (contextDone (Context runner) s'); [by eexists|apply IH].
Qed.

(** What holds of the result of a run: [P] is kept by every attempt, [R]
    holds of the result of an attempt that ends the run, and of any error
    together with a state of the handler that satisfies [P]. *)
Lemma retryLoop_post (P : H -> Prop) (R : option Error -> H -> Prop)
    n last h s err h' s' :
  (forall h s again err h' s',
     ExecutionHandler runner h s = Some (again, err, h', s') ->
     P h' /\ (again = false -> R err h')) ->
  (forall e h, P h -> R (Some e) h) ->
  (n = 0%nat -> P h) ->
  retryLoop W runner n last h s = Some (err, h', s') ->
  R err h'.
Proof.
  intros Hstep Herr. revert last h s.
  induction n as [|n IH]; intros last h s Hn; cbn.
  - intros [= <- <- <-]. apply Herr. by apply Hn.
  - destruct (ExecutionHandler runner h s) as [[[[again e] h1] s1]|] eqn:E;
      [|done].
    destruct (Hstep _ _ _ _ _ _ E) as [HP HR].
    destruct again; cbn.
    + destruct n.
      * apply IH. done.
      * destruct (contextDone (Context runner) s1).
        -- intros [= <- <- <-]. by apply Herr.
        -- apply IH. done.
    + intros [= <- <- <-]. by apply HR.
Qed.

(** The number of attempts of a run whose handler always asks for a
    retry, counted by [count]: each attempt adds one. *)
Lemma retryLoop_all_attempts (count : St -> nat) n last h s err h' s' :
  Context runner = None ->
  (forall h s again e h1 s1,
     ExecutionHandler runner h s = Some (again, e, h1, s1) ->
     again = true /\ count s1 = S (count s)) ->
  (forall ms s, count (sleep W ms s) = count s) ->
  retryLoop W runner n last h s = Some (err, h', s') ->
  count s' = (count s + n)%nat.
Proof.
  intros Hctx Hstep Hsleep. revert last h s.
  induction n as [|n IH]; intros last h s; cbn.
  - intros [= <- <- <-]. lia.
  - destruct (ExecutionHandler runner h s) as [[[[again e] h1] s1]|] eqn:E;
      [|done].
    destruct (Hstep _ _ _ _ _ _ E) as [-> Hc]. cbn.
    destruct n.
    + intros Hr. apply (IH e) in Hr. lia.
    + rewrite Hctx. cbn. intros Hr. apply (IH e) in Hr.
      rewrite Hsleep in Hr. lia.
Qed.

End Retry.

(** ** The request pipeline *)

Lemma copyHeaders_fields entries req :
  req_Method (copyHeaders entries req) = req_Method req /\
  req_URL (copyHeaders entries req) = req_URL req /\
  req_Body (copyHeaders entries req) = req_Body req.
Proof.
  induction entries as [|[k v] entries IH] using rev_ind; [done|].
  rewrite copyHeaders_snoc. exact IH.
Qed.

(** The decoration changes neither the method, nor the URL, nor the
    body. *)
Lemma decorateRequest_fields {St} g ua entries req (d : HttpClientDetails St) :
  req_Method (decorateRequest g ua entries req d) = req_Method req /\
  req_URL (decorateRequest g ua entries req d) = req_URL req /\
  req_Body (decorateRequest g ua entries req d) = req_Body req.
Proof.
  unfold decorateRequest, addUberTraceIdHeaderIfSet.
  assert (H : forall r : Request,
            req_Method (copyHeaders entries
              (addUserAgentHeader ua (setAuthentication (setClose req) d)))
              = req_Method req /\
            req_URL (copyHeaders entries
              (addUserAgentHeader ua (setAuthentication (setClose req) d)))
              = req_URL req /\
            req_Body (copyHeaders entries
              (addUserAgentHeader ua (setAuthentication (setClose req) d)))
              = req_Body req).
  { intros _. destruct (copyHeaders_fields entries
      (addUserAgentHeader ua (setAuthentication (setClose req) d)))
      as (-> & -> & ->).
    rewrite setAuthentication_spec. done. }
  destruct (String.eqb (uberTraceIdToken g) ""); [exact (H req)|].
  exact (H req).
Qed.

Lemma sentRequest_fields {St} (W : World St) g (d : HttpClientDetails St)
    method url content s :
  method <> "" ->
  req_Method (sentRequest W g d method url content s) = method /\
  req_URL (sentRequest W g d method url content s) = url /\
  req_Body (sentRequest W g d method url content s) = content.
Proof.
  intros Hm. unfold sentRequest.
  destruct (decorateRequest_fields g (GetUserAgent W)
    (rangeOrder W (Headers d) s)
    (mkRequest (if String.eqb method "" then "GET" else method) url ∅ content
       false (from_option len 0 content)) d) as (-> & -> & ->).
  cbn. by destruct (String.eqb_spec method "").
Qed.

(** One unfolding of [Send]. *)
Lemma Send_unfold {St} (W : World St) g jc fuel method url content
    followRedirect closeBody (d : HttpClientDetails St) prefix s :
  Send W g jc (S fuel) method url content followRedirect closeBody d prefix s =
  match
    Execute W
      (mkRetryExecutor (ctx jc) (retries jc) (retryWaitMilliSecs jc) prefix
         ("Failure occurred while sending " +:+ method +:+ " request to "
            +:+ url)
         (sendHandler W g jc
            (fun url content details prefix s =>
               Send W g jc fuel "POST" url content true true details prefix s)
            (S fuel) method url content followRedirect closeBody d prefix))
      noResult s
  with
  | None => None
  | Some (err, h, s') =>
      Some (mkSendResult (sr_resp h) (sr_respBody h) (sr_redirectUrl h) err, s')
  end.
Proof. reflexivity. Qed.

Section Pipeline.

Context {St : Type}.
Variable W : World St.
Variable g : Globals.
Variable jc : HttpClient St.
Hypothesis Hretries : 0 <= retries jc.

(** A request that the transport answers at once with a response that
    calls for no retry: [Send] returns that response after one attempt. *)
Lemma Send_final fuel method url content followRedirect closeBody
    (d : HttpClientDetails St) prefix s resp s' :
  newRequestErr W method url = None ->
  roundTrip W (sentRequest W g d method url content s) s = (RTFinal resp, s') ->
  resp_StatusCode resp < 500 -> resp_StatusCode resp <> 429 ->
  body_closeErr (resp_Body resp) = None ->
  Send W g jc (S fuel) method url content followRedirect closeBody d prefix s
  = Some (mkSendResult (Some resp)
            (if closeBody then Some (body_data (resp_Body resp)) else None)
            "" None, s').
Proof using Hretries.
  intros Hnew Hrt Hlt Hne Hclose. cbn [Send].
  set (r := mkSendResult (Some resp)
              (if closeBody then Some (body_data (resp_Body resp)) else None)
              "" None).
  rewrite (Execute_first W _ noResult s None r s'); [done|exact Hretries|].
  cbn [ExecutionHandler]. unfold sendHandler, createReq, newRequest.
  rewrite Hnew. cbn [CheckError]. unfold doRequest.
  fold (sentRequest W g d method url content s).
  cbn [clientDo]. rewrite Hrt. cbn [outErr outResp].
  rewrite bool_decide_eq_false_2 by (intros [? [=]]).
  cbn [andb]. subst r. destruct closeBody.
  - rewrite Hclose. cbn [CheckError Join sr_err sr_resp].
    by rewrite shouldRetry_no_retry.
  - cbn [sr_err sr_resp]. by rewrite shouldRetry_no_retry.
Qed.

End Pipeline.

Section Redirect.

Context {St : Type}.
Variable W : World St.
Variable g : Globals.
Variable jc : HttpClient St.
Variables A B : string.
Variable content : option string.
Variable d : HttpClientDetails St.
Hypothesis HB : B <> "".
Hypothesis HnewA : newRequestErr W "POST" A = None.
Hypothesis Hredirect : redirectsTo W "POST" A B.

(** With the capturing callback installed, the POST to [A] comes back
    from [client.Do] as an error, with [B] captured. *)
Lemma clientDo_captured fuel s :
  exists resp e s1,
    clientDo W (S fuel) CapturePolicy (sentRequest W g d "POST" A content s) []
      (sentRequest W g d "POST" A content s) s
    = Some (DoFail (Some resp) e, B, s1).
Proof using Hredirect.
  destruct (Hredirect (sentRequest W g d "POST" A content s) s)
    as (resp & loc & next & s1 & Hrt & _ & Hnext).
  - pose proof (sentRequest_fields W g d "POST" A content s ltac:(done)) as H. by rewrite (proj1 H).
  - pose proof (sentRequest_fields W g d "POST" A content s ltac:(done)) as H. by rewrite (proj1 (proj2 H)).
  - exists resp, (urlError
      (urlErrorOp (req_Method (sentRequest W g d "POST" A content s))) loc
      "redirect"), s1.
    cbn [clientDo]. rewrite Hrt. by rewrite Hnext.
Qed.

(** With [followRedirect] false, every attempt of [Send] ends with an
    error, a nil body and the redirect target. *)
Lemma sendHandler_blocked SendPost fuel closeBody prefix h s :
  exists again e r s1,
    sendHandler W g jc SendPost (S fuel) "POST" A content false closeBody d
      prefix h s = Some (again, Some e, r, s1) /\
    sr_respBody r = None /\ sr_redirectUrl r = B.
Proof using HB HnewA Hredirect.
  unfold sendHandler, createReq, newRequest. rewrite HnewA. cbn [CheckError].
  unfold doRequest. cbn [negb orb].
  fold (sentRequest W g d "POST" A content s).
  destruct (clientDo_captured fuel s) as (resp & e & s1 & ->).
  cbn [outErr outResp]. rewrite bool_decide_eq_true_2 by (by eexists).
  destruct (String.eqb_spec B "") as [|_]; [done|]. cbn [andb negb sr_err].
  destruct (Contains e "unsupported protocol scheme"); by repeat eexists.
Qed.

End Redirect.

(** C6, as amended. Let the server answer every POST to [A] with a 302
    redirect to [B], on a client whose retry count is not negative. With
    [followRedirect] true, if [B] answers a POST that carries the same body
    with a response that calls for no retry, [Send] returns that response,
    its body, an empty redirect URL and no error. With [followRedirect]
    false, [Send] returns a nil body, the redirect URL [B] and a non-nil
    error: the redirect that was blocked is reported as an error. *)
Theorem post_redirect {St} (W : World St) (g : Globals) (jc : HttpClient St)
    (d : HttpClientDetails St) (A B : string) (content : option string)
    (prefix : string) (closeBody : bool) (respB : Response) (fuel : nat)
    (s : St) :
  0 <= retries jc ->
  B <> "" ->
  newRequestErr W "POST" A = None ->
  newRequestErr W "POST" B = None ->
  redirectsTo W "POST" A B ->
  (answersWith W "POST" B content respB ->
   resp_StatusCode respB < 500 -> resp_StatusCode respB <> 429 ->
   body_closeErr (resp_Body respB) = None ->
   exists s',
     Send W g jc (S (S fuel)) "POST" A content true closeBody d prefix s
     = Some (mkSendResult (Some respB) (Some (body_data (resp_Body respB)))
               "" None, s')) /\
  (exists r s',
     Send W g jc (S fuel) "POST" A content false closeBody d prefix s
     = Some (r, s') /\
     sr_respBody r = None /\ sr_redirectUrl r = B /\ is_Some (sr_err r)).
Proof.
  intros Hretries HB HnewA HnewB Hredirect. split.
  - intros Hanswer Hlt Hne Hclose.
    destruct (clientDo_captured W g A B content d Hredirect (S fuel) s)
      as (resp & e & s1 & Hdo).
    destruct (Hanswer (sentRequest W g d "POST" B content s1) s1) as [s2 Hrt].
    { pose proof (sentRequest_fields W g d "POST" B content s1 ltac:(done)) as H. by rewrite (proj1 H). }
    { pose proof (sentRequest_fields W g d "POST" B content s1 ltac:(done)) as H. by rewrite (proj1 (proj2 H)). }
    { pose proof (sentRequest_fields W g d "POST" B content s1 ltac:(done)) as H. by rewrite (proj2 (proj2 H)). }
    exists s2. rewrite Send_unfold.
    set (r := mkSendResult (Some respB) (Some (body_data (resp_Body respB)))
                "" None).
    rewrite (Execute_first W _ noResult s None r s2); [done|exact Hretries|].
    cbn [ExecutionHandler]. unfold sendHandler, createReq, newRequest.
    rewrite HnewA. cbn [CheckError]. unfold doRequest. cbn [negb orb andb].
    fold (sentRequest W g d "POST" A content s).
    assert (Hm : String.eqb
                   (req_Method (sentRequest W g d "POST" A content s))
                   MethodPost = true).
    { pose proof (sentRequest_fields W g d "POST" A content s ltac:(done)) as H. by rewrite (proj1 H). }
    rewrite Hm, Hdo. cbn [outErr outResp].
    rewrite bool_decide_eq_true_2 by (by eexists).
    destruct (String.eqb_spec B "") as [|_]; [done|]. cbn [andb negb].
    rewrite (Send_final W g jc Hretries fuel "POST" B content true true d ""
               s1 respB s2 HnewB Hrt Hlt Hne Hclose).
    cbn [sr_err sr_resp sr_respBody]. by rewrite shouldRetry_no_retry.
  - rewrite Send_unfold.
    set (runner := mkRetryExecutor _ _ _ _ _ _).
    destruct (retryLoop_total W runner (Z.to_nat (MaxRetries runner + 1)) None
                noResult s) as [[[err h] s'] Hrun].
    { intros h0 s0. subst runner. cbn [ExecutionHandler].
      destruct (sendHandler_blocked W g jc A B content d HB HnewA Hredirect
                  (fun url content details prefix s =>
                     Send W g jc fuel "POST" url content true true details
                       prefix s) fuel closeBody prefix h0 s0)
        as (again & e & r & s1 & -> & _). by eexists. }
    unfold Execute. rewrite Hrun. eexists _, s'. split; [reflexivity|].
    cbn [sr_respBody sr_redirectUrl sr_err].
    pose proof (retryLoop_post W runner
      (fun h => sr_respBody h = None /\ sr_redirectUrl h = B)
      (fun err h => is_Some err /\ sr_respBody h = None /\ sr_redirectUrl h = B)
      (Z.to_nat (MaxRetries runner + 1)) None noResult s err h s') as Hpost.
    destruct Hpost as (He & Hb & Hu); [| | |exact Hrun|done].
    + intros h0 s0 again e0 h1 s1. subst runner. cbn [ExecutionHandler].
      destruct (sendHandler_blocked W g jc A B content d HB HnewA Hredirect
                  (fun url content details prefix s =>
                     Send W g jc fuel "POST" url content true true details
                       prefix s) fuel closeBody prefix h0 s0)
        as (again' & e' & r & s1' & -> & Hb & Hu).
      intros [= <- <- <- <-]. split; [done|]. intros _. split; [by eexists|done].
    + intros e0 h0 HP. split; [by eexists|done].
    + subst runner. cbn [MaxRetries]. lia.
Qed.

Lemma redirectWorld_redirects :
  redirectsTo redirectWorld "POST" "http://a" "http://b".
Proof.
  intros req log _ Hurl. cbn. rewrite Hurl. cbn.
  by eexists _, _, _, _.
Qed.

Lemma redirectWorld_answers content :
  answersWith redirectWorld "POST" "http://b" content resp200.
Proof.
  intros req log _ Hurl _. cbn. rewrite Hurl. cbn. by eexists.
Qed.

Lemma post_redirect_witness :
  (exists s',
     Send redirectWorld (mkGlobals "") (plainClient _ 1) 2 "POST" "http://a"
       (Some "payload") true true (anonymous _) "" []
     = Some (mkSendResult (Some resp200) (Some "") "" None, s')) /\
  (exists r s',
     Send redirectWorld (mkGlobals "") (plainClient _ 1) 1 "POST" "http://a"
       (Some "payload") false true (anonymous _) "" []
     = Some (r, s') /\
     sr_respBody r = None /\ sr_redirectUrl r = "http://b" /\
     is_Some (sr_err r)).
Proof.
  destruct (post_redirect redirectWorld (mkGlobals "") (plainClient _ 1)
              (anonymous _) "http://a" "http://b" (Some "payload") "" true
              resp200 0 []) as [Hfollow Hblock].
  - cbn. lia.
  - discriminate.
  - reflexivity.
  - reflexivity.
  - exact redirectWorld_redirects.
  - split; [|exact Hblock].
    apply Hfollow.
    + exact (redirectWorld_answers (Some "payload")).
    + cbn. lia.
    + cbn. lia.
    + reflexivity.
Defined.

(** C6, the statement of the specification does not hold as it stands:
    with [followRedirect] false, the POST that is answered by a redirect
    comes back with an error. *)
Lemma post_redirect_blocked_is_error :
  exists r s',
    Send redirectWorld (mkGlobals "") (plainClient _ 0) 1 "POST" "http://a"
      (Some "payload") false true (anonymous _) "" []
    = Some (r, s') /\
    sr_respBody r = None /\ sr_redirectUrl r = "http://b" /\
    sr_err r <> None.
Proof.
  eexists _, _. split; [vm_compute; reflexivity|].
  split; [reflexivity|]. split; [reflexivity|]. discriminate.
Qed.

(** The requests that reach the transport when the redirect of the POST is
    followed: a POST to each of the two URLs, with the same body. *)
Example post_redirect_requests :
  (fun out => map (fun r => (req_Method r, req_URL r, req_Body r)) out.2) <$>
    Send redirectWorld (mkGlobals "") (plainClient _ 0) 2 "POST" "http://a"
      (Some "payload") true true (anonymous _) "" []
  = Some [("POST", "http://a", Some "payload");
          ("POST", "http://b", Some "payload")].
Proof. vm_compute. reflexivity. Qed.

(** With retries left, the blocked redirect is retried: the POST reaches
    the server once per attempt. *)
Example post_redirect_blocked_retried :
  (fun out => length out.2) <$>
    Send redirectWorld (mkGlobals "") (plainClient _ 2) 1 "POST" "http://a"
      (Some "payload") false true (anonymous _) "" []
  = Some 3%nat.
Proof. vm_compute. reflexivity. Qed.

(** ** Substrings *)

Lemma prefix_nil_l s : String.prefix "" s = true.
Proof. by destruct s. Qed.

Lemma prefix_app s t : String.prefix s (s +:+ t) = true.
Proof.
  induction s as [|c s IH]; simpl; [apply prefix_nil_l|].
  destruct (ascii_dec c c); [exact IH|done].
Qed.

Lemma prefix_app_r sub s t :
  String.prefix sub s = true -> String.prefix sub (s +:+ t) = true.
Proof.
  revert s. induction sub as [|c sub IH]; intros s; simpl.
  - intros _. apply prefix_nil_l.
  - destruct s as [|c' s]; simpl; [done|].
    destruct (ascii_dec c c'); [apply IH|done].
Qed.

Lemma Contains_unfold s sub :
  Contains s sub =
  String.prefix sub s ||
  match s with
  | EmptyString => false
  | String _ rest => Contains rest sub
  end.
Proof. by destruct s. Qed.

Lemma Contains_app_l s t sub :
  Contains s sub = true -> Contains (s +:+ t) sub = true.
Proof.
  induction s as [|c s IH]; rewrite (Contains_unfold _ sub).
  - rewrite orb_false_r. intros H. change ("" +:+ t) with t.
    rewrite (Contains_unfold t sub).
    destruct sub; [by rewrite prefix_nil_l|by destruct t].
  - intros H. apply orb_true_iff in H as [H|H].
    + rewrite (Contains_unfold (String c s +:+ t) sub).
      apply orb_true_iff. left. by apply prefix_app_r.
    + change (String c s +:+ t) with (String c (s +:+ t)).
      rewrite Contains_unfold. apply orb_true_iff. right. by apply IH.
Qed.

Lemma Contains_app_r s t sub :
  Contains t sub = true -> Contains (s +:+ t) sub = true.
Proof.
  intros H. induction s as [|c s IH]; [exact H|].
  change (String c s +:+ t) with (String c (s +:+ t)).
  rewrite Contains_unfold. apply orb_true_iff. right. exact IH.
Qed.

Lemma append_nil_r s : s +:+ "" = s.
Proof.
  induction s as [|c s IH]; [reflexivity|].
  change (String c s +:+ "") with (String c (s +:+ "")). by rewrite IH.
Qed.

Lemma Contains_self s : Contains s s = true.
Proof.
  rewrite Contains_unfold. apply orb_true_iff. left.
  rewrite <- (append_nil_r s) at 2. apply prefix_app.
Qed.

(** A string contains each of the pieces it is put together from. *)
Lemma Contains_middle a s b : Contains (a +:+ s +:+ b) s = true.
Proof.
  apply Contains_app_r, Contains_app_l, Contains_self.
Qed.

(** ** Upload *)

Lemma GenerateResponseError_status status body :
  Contains (GenerateResponseError status body) status = true.
Proof.
  unfold GenerateResponseError. apply Contains_middle.
Qed.

Lemma Join_Contains_l e b sub :
  Contains e sub = true ->
  exists e', Join (Some e) b = Some e' /\ Contains e' sub = true.
Proof.
  intros H. destruct b as [y|]; cbn.
  - eexists. split; [reflexivity|]. by apply Contains_app_l.
  - by eexists.
Qed.

Section Upload.

Context {St : Type}.
Variable W : World St.
Variable jc : HttpClient St.
Variable d : HttpClientDetails St.
Variables url reader : string.
Variable size : Z.
Variables s s' : St.
Variable resp : Response.
Hypothesis Hnew : newRequestErr W MethodPut url = None.
Hypothesis Hrt :
  roundTrip W (uploadRequest W d url reader size s) s = (RTFinal resp, s').

(** On 200, 201 and 202 the body is read and returned without error. *)
Lemma UploadFileFromReader_accepted fuel :
  resp_StatusCode resp = 200 \/ resp_StatusCode resp = 201 \/
    resp_StatusCode resp = 202 ->
  body_readErr (resp_Body resp) = None ->
  body_closeErr (resp_Body resp) = None ->
  UploadFileFromReader W jc (S fuel) reader url d size s
  = Some (mkUploadResult (Some resp) (Some (body_data (resp_Body resp))) None,
          s').
Proof using Hnew Hrt.
  intros Hst Hread Hclose. unfold UploadFileFromReader, newRequest.
  rewrite Hnew. cbn [CheckError]. change (String.eqb MethodPut "") with false.
  cbv iota.
  change (addUserAgentHeader (GetUserAgent W) _)
    with (uploadRequest W d url reader size s).
  cbn [clientDo]. rewrite Hrt. unfold CheckResponseStatus, inCodes.
  cbn [existsb]. unfold StatusCreated, StatusOK, StatusAccepted.
  rewrite Hread, Hclose.
  destruct (Z.eqb_spec (resp_StatusCode resp) 201),
    (Z.eqb_spec (resp_StatusCode resp) 200),
    (Z.eqb_spec (resp_StatusCode resp) 202); cbn; try reflexivity; lia.
Qed.

(** Any other status is an error whose message contains the status
    line. *)
Lemma UploadFileFromReader_rejected fuel :
  resp_StatusCode resp <> 200 -> resp_StatusCode resp <> 201 ->
  resp_StatusCode resp <> 202 ->
  exists e,
    UploadFileFromReader W jc (S fuel) reader url d size s
    = Some (mkUploadResult (Some resp) None (Some e), s') /\
    Contains e (resp_Status resp) = true.
Proof using Hnew Hrt.
  intros H200 H201 H202. unfold UploadFileFromReader, newRequest.
  rewrite Hnew. cbn [CheckError]. change (String.eqb MethodPut "") with false.
  cbv iota.
  change (addUserAgentHeader (GetUserAgent W) _)
    with (uploadRequest W d url reader size s).
  cbn [clientDo]. rewrite Hrt. unfold CheckResponseStatus, inCodes.
  cbn [existsb]. unfold StatusCreated, StatusOK, StatusAccepted.
  destruct (Z.eqb_spec (resp_StatusCode resp) 201); [lia|].
  destruct (Z.eqb_spec (resp_StatusCode resp) 200); [lia|].
  destruct (Z.eqb_spec (resp_StatusCode resp) 202); [lia|].
  cbn [orb]. cbv zeta. unfold CheckError.
  destruct (Join_Contains_l
              (GenerateResponseError (resp_Status resp)
                 (body_data (resp_Body resp)))
              (body_closeErr (resp_Body resp)) (resp_Status resp)
              (GenerateResponseError_status _ _)) as (e' & Hj & He).
  exists e'. split; [|exact He]. do 2 f_equal. f_equal. exact Hj.
Qed.

End Upload.

(** The handler of [UploadFile] asks for a retry upon every error of the
    attempt, whatever the status of the response. *)
Lemma uploadHandler_retries_errors {St} (W : World St) jc fuel localPath url
    prefix (d : HttpClientDetails St) h s again err r s1 :
  uploadHandler W jc fuel localPath url prefix d h s = Some (again, err, r, s1) ->
  is_Some (ur_err r) -> again = true.
Proof.
  unfold uploadHandler.
  destruct (doUploadFile W jc fuel localPath url d s) as [[r0 s0]|]; [|done].
  destruct (ur_err r0) as [e|] eqn:E.
  - intros Heq _. by simplify_eq.
  - destruct (ur_resp r0) as [resp|];
      [destruct (resp_StatusCode resp <? 500)|];
      intros Heq [x Hx]; simplify_eq; congruence.
Qed.

(** C8, the code at the failing input: a server that answers every upload
    with 429, and a client with two retries. [UploadFile] uploads three
    times and returns the response 429 with an error. *)
Theorem upload_retries_on_429 :
  exists r,
    UploadFile busyWorld (plainClient nat 2) 1 "" "http://a/file" ""
      (anonymous nat) 0%nat
    = Some (r, 3%nat) /\
    resp_StatusCode <$> ur_resp r = Some 429 /\
    is_Some (ur_err r).
Proof.
  eexists. split; [vm_compute; reflexivity|].
  split; [reflexivity|]. by eexists.
Qed.

(** ** Checksums *)

Lemma hex_digit_lower c :
  isLowerHexDigit (hex.digit (N_of_ascii c / 16)) = true /\
  isLowerHexDigit (hex.digit (N_of_ascii c mod 16)) = true.
Proof.
  destruct c as [[] [] [] [] [] [] [] []]; split; vm_compute; reflexivity.
Qed.

(** The encoding has two lower-case hexadecimal digits per byte. *)
Lemma hex_EncodeToString_lower src :
  allChars isLowerHexDigit (hex.EncodeToString src) = true /\
  String.length (hex.EncodeToString src) = (2 * String.length src)%nat.
Proof.
  induction src as [|c src [IH1 IH2]]; [done|].
  cbn [hex.EncodeToString allChars String.length].
  destruct (hex_digit_lower c) as [-> ->]. rewrite IH1, IH2. split; [done|lia].
Qed.

Lemma checksumMismatch_contains fileName expectedSha actual :
  Contains (checksumMismatch fileName expectedSha actual) fileName = true /\
  Contains (checksumMismatch fileName expectedSha actual) expectedSha = true /\
  Contains (checksumMismatch fileName expectedSha actual) actual = true.
Proof.
  unfold checksumMismatch. repeat split.
  - apply Contains_middle.
  - do 2 apply Contains_app_r. apply Contains_middle.
  - do 5 apply Contains_app_r. apply Contains_self.
Qed.

(** C9. The verification compares the expected string with the lower-case
    hexadecimal encoding of the digest: when they are equal it returns no
    error, and when they differ it returns an error whose message contains
    the file name, the expected string and the encoding of the digest. *)
Theorem validateChecksum_compares (D : Digests) (expectedSha : string)
    (actualSha : Hash) (fileName : string) :
  let actualShaString := hex.EncodeToString (hashSum D actualSha) in
  allChars isLowerHexDigit actualShaString = true /\
  (actualShaString = expectedSha ->
   validateChecksum D expectedSha (Some actualSha) fileName = Returned None) /\
  (actualShaString <> expectedSha ->
   exists e,
     validateChecksum D expectedSha (Some actualSha) fileName
       = Returned (Some e) /\
     Contains e fileName = true /\
     Contains e expectedSha = true /\
     Contains e actualShaString = true).
Proof.
  cbn zeta. split; [apply hex_EncodeToString_lower|].
  unfold validateChecksum.
  destruct (String.eqb_spec (hex.EncodeToString (hashSum D actualSha))
              expectedSha) as [Heq|Hne]; cbn [negb].
  - split; [done|]. intros H. by destruct H.
  - split; [done|]. intros _. eexists. split; [reflexivity|].
    apply checksumMismatch_contains.
Qed.

Lemma validateChecksum_compares_witness :
  validateChecksum sampleDigests "6865" (Some (mkHash SHA1 "hello")) "file"
    = Returned None /\
  exists e,
    validateChecksum sampleDigests "0000" (Some (mkHash SHA1 "hello")) "file"
      = Returned (Some e) /\
    Contains e "file" = true.
Proof.
  split.
  - apply (validateChecksum_compares sampleDigests "6865"
             (mkHash SHA1 "hello") "file"). reflexivity.
  - destruct (validateChecksum_compares sampleDigests "0000"
                (mkHash SHA1 "hello") "file") as (_ & _ & H).
    destruct H as (e & H1 & H2 & _); [discriminate|].
    exists e. split; [exact H1|exact H2].
Defined.

Lemma len_pos s : (0 <? len s) = negb (String.eqb s "").
Proof. by destruct s. Qed.

Lemma handleExpectedSha_sha1 expectedSha1 expectedSha256 :
  expectedSha1 <> "" ->
  handleExpectedSha expectedSha1 expectedSha256
  = (expectedSha1, Some (newHash SHA1)).
Proof.
  intros H. unfold handleExpectedSha. rewrite len_pos.
  by destruct (String.eqb_spec expectedSha1 "").
Qed.

Lemma append_assoc (a b c : string) : (a +:+ b) +:+ c = a +:+ b +:+ c.
Proof.
  induction a as [|x a IH]; [done|].
  change ((String x a +:+ b) +:+ c) with (String x ((a +:+ b) +:+ c)).
  change (String x a +:+ b +:+ c) with (String x (a +:+ b +:+ c)).
  by rewrite IH.
Qed.

Lemma chunkData_cons c chunks :
  chunkData (c :: chunks) = cf_data c +:+ chunkData chunks.
Proof. reflexivity. Qed.

(** The loop over chunk files that open, copy and close without error,
    from index [i] to the end of the list: the hash, if there is one, is fed
    the bytes of those files, in index order. *)
Lemma mergeLoop_fine_from chunks n i (actualSha : option Hash) :
  Forall (fun c => cf_openErr c = None /\ cf_copyErr c = None /\
                   cf_closeErr c = None) chunks ->
  (i + n)%nat = length chunks ->
  mergeLoop chunks n i actualSha
  = Returned (None,
              (fun h => mkHash (hash_alg h)
                          (hash_written h +:+ chunkData (drop i chunks)))
                <$> actualSha).
Proof.
  intros Hall. revert i actualSha.
  induction n as [|n IH]; intros i actualSha Hlen; cbn [mergeLoop].
  - rewrite drop_ge by lia. cbn [chunkData foldr]. f_equal. f_equal.
    destruct actualSha as [[alg w]|]; [|done]. cbn. by rewrite append_nil_r.
  - destruct (lookup_lt_is_Some_2 chunks i) as [c Hc]; [lia|]. rewrite Hc.
    destruct (proj1 (Forall_lookup _ _) Hall i c Hc) as (Ho & Hp & Hx).
    rewrite Ho, Hp, Hx. cbn [CheckError Join]. rewrite IH by lia.
    rewrite (drop_S chunks c i Hc), chunkData_cons. f_equal. f_equal.
    destruct actualSha as [[alg w]|]; [|done].
    cbn [fmap option_fmap option_map hashWrite hash_alg hash_written].
    by rewrite append_assoc.
Qed.

Lemma mergeLoop_fine chunks h :
  Forall (fun c => cf_openErr c = None /\ cf_copyErr c = None /\
                   cf_closeErr c = None) chunks ->
  mergeLoop chunks (length chunks) 0 (Some h)
  = Returned
      (None, Some (mkHash (hash_alg h) (hash_written h +:+ chunkData chunks))).
Proof.
  intros Hall. by rewrite (mergeLoop_fine_from chunks _ 0 (Some h) Hall).
Qed.

(** The verification against a SHA-1 hash that has been fed [data]. *)
Lemma validateChecksum_sha1 D expectedSha data fileName :
  exists err,
    validateChecksum D expectedSha (Some (mkHash SHA1 data)) fileName
      = Returned err /\
    (err = None <-> hex.EncodeToString (sha1sum D data) = expectedSha).
Proof.
  unfold validateChecksum, hashSum. cbn [hash_alg hash_written].
  destruct (String.eqb_spec (hex.EncodeToString (sha1sum D data)) expectedSha)
    as [Heq|Hneq]; cbn [negb].
  - exists None. done.
  - eexists. split; [reflexivity|]. split; [discriminate|done].
Qed.

(** C7. With an expected SHA-1, whatever the expected SHA-256 is, the
    hash that is computed is a SHA-1: the single-stream download and the
    merge of the chunks, of one chunk file for each of the [SplitCount]
    chunks, both feed the bytes they write to a SHA-1 hash, and return no
    error exactly when the hexadecimal SHA-1 of those bytes is the expected
    SHA-1. The expected SHA-256 plays no part. *)
Theorem sha1_takes_precedence (D : Digests) (expectedSha1 expectedSha256 : string)
    (details : DownloadFileDetails) (resp : Response)
    (flags : ConcurrentDownloadFlags) (chunks : list ChunkFile) :
  expectedSha1 <> "" ->
  dfd_ExpectedSha1 details = expectedSha1 ->
  dfd_ExpectedSha256 details = expectedSha256 ->
  dfd_SkipChecksum details = false ->
  body_readErr (resp_Body resp) = None ->
  ExpectedSha1 flags = expectedSha1 ->
  ExpectedSha256 flags = expectedSha256 ->
  SkipChecksum flags = false ->
  length chunks = Z.to_nat (SplitCount flags) ->
  Forall (fun c => cf_openErr c = None /\ cf_copyErr c = None /\
                   cf_closeErr c = None) chunks ->
  handleExpectedSha expectedSha1 expectedSha256
    = (expectedSha1, Some (newHash SHA1)) /\
  (exists err,
     saveToFile D details resp ioFine
       = Returned (err, Some (mkHash SHA1 (body_data (resp_Body resp)))) /\
     (err = None <->
      hex.EncodeToString (sha1sum D (body_data (resp_Body resp)))
        = expectedSha1)) /\
  (exists err,
     mergeChunks D chunks flags ioFine
       = Returned (err, Some (mkHash SHA1 (chunkData chunks))) /\
     (err = None <->
      hex.EncodeToString (sha1sum D (chunkData chunks)) = expectedSha1)).
Proof.
  intros Hne Hd1 Hd256 Hskip Hread Hf1 Hf256 Hfskip Hcount Hchunks.
  pose proof (handleExpectedSha_sha1 expectedSha1 expectedSha256 Hne) as Hh.
  assert (Hlen : (0 <? len expectedSha1) = true).
  { rewrite len_pos. by destruct (String.eqb_spec expectedSha1 ""). }
  split; [exact Hh|]. split.
  - unfold saveToFile, ioFine, copyErr.
    cbn [io_pathErr io_createErr io_writeErr io_closeErr CheckError].
    rewrite Hd1, Hd256, Hh, Hlen, Hskip, Hread. cbn [andb negb].
    change (hashWrite (body_data (resp_Body resp)) <$> Some (newHash SHA1))
      with (Some (mkHash SHA1 (body_data (resp_Body resp)))).
    destruct (validateChecksum_sha1 D expectedSha1 (body_data (resp_Body resp))
                (dfd_LocalFileName details)) as (err & -> & Hiff).
    exists err. split; [by destruct err|exact Hiff].
  - unfold mergeChunks, ioFine.
    cbn [io_pathErr io_createErr io_writeErr io_closeErr CheckError].
    rewrite Hf1, Hf256, Hh, <- Hcount.
    rewrite (mergeLoop_fine chunks (newHash SHA1) Hchunks).
    rewrite Hlen, Hfskip. cbn [andb negb newHash hash_alg hash_written].
    change ("" +:+ chunkData chunks) with (chunkData chunks).
    destruct (validateChecksum_sha1 D expectedSha1 (chunkData chunks)
                (LocalFileName flags)) as (err & -> & Hiff).
    exists err. split; [by destruct err|exact Hiff].
Qed.

Lemma sha1_takes_precedence_witness :
  handleExpectedSha "6865" "00000000" = ("6865", Some (newHash SHA1)) /\
  exists err,
    saveToFile sampleDigests sampleDownload helloResponse ioFine
      = Returned (err, Some (mkHash SHA1 "hello")).
Proof.
  destruct (sha1_takes_precedence sampleDigests "6865" "00000000"
              sampleDownload helloResponse
              (mkConcurrentDownloadFlags "file" "http://a/file" "file" "file"
                 "dir" "6865" "00000000" 5 2 false false false)
              [mkChunkFile None "he" None None; mkChunkFile None "llo" None None])
    as (H1 & (err & H2 & _) & _).
  - discriminate.
  - reflexivity.
  - reflexivity.
  - reflexivity.
  - reflexivity.
  - reflexivity.
  - reflexivity.
  - reflexivity.
  - reflexivity.
  - repeat constructor.
  - split; [exact H1|]. exists err. exact H2.
Defined.

(** The SHA-256 is verified when no SHA-1 is expected. *)
Lemma handleExpectedSha_sha256 expectedSha256 :
  expectedSha256 <> "" ->
  handleExpectedSha "" expectedSha256 = (expectedSha256, Some (newHash SHA256)).
Proof.
  intros H. unfold handleExpectedSha. change (0 <? len "") with false.
  cbv iota. rewrite len_pos. by destruct (String.eqb_spec expectedSha256 "").
Qed.

(** ** Remote file details *)

Lemma Header_Get_absent key (h : Header) :
  h !! textproto.CanonicalMIMEHeaderKey key = None -> Header_Get key h = "".
Proof. unfold Header_Get. by intros ->. Qed.

(** C10. When the HEAD request is answered 200 by a response that carries
    no [Content-Length] header, or an empty one, [GetRemoteFileDetails]
    returns without error the response and a record of size 0 whose
    checksums are the values of the three checksum headers. *)
Theorem remote_details_without_length {St} (W : World St) (g : Globals)
    (jc : HttpClient St) (d : HttpClientDetails St) (downloadUrl : string)
    (resp : Response) (fuel : nat) (s s' : St) :
  0 <= retries jc ->
  newRequestErr W "HEAD" downloadUrl = None ->
  roundTrip W (sentRequest W g d "HEAD" downloadUrl None s) s
    = (RTFinal resp, s') ->
  resp_StatusCode resp = 200 ->
  body_closeErr (resp_Body resp) = None ->
  Header_Get "Content-Length" (resp_Header resp) = "" ->
  GetRemoteFileDetails W g jc (S fuel) downloadUrl d s
  = Some (Returned
            (Some (mkFileDetails
                     (mkChecksumDetails
                        (Header_Get "X-Checksum-Md5" (resp_Header resp))
                        (Header_Get "X-Checksum-Sha1" (resp_Header resp))
                        (Header_Get "X-Checksum-Sha256" (resp_Header resp)))
                     0),
             Some resp, None),
          s').
Proof.
  intros Hretries Hnew Hrt Hst Hclose Hlen.
  unfold GetRemoteFileDetails, SendHead.
  rewrite (Send_final W g jc Hretries fuel "HEAD" downloadUrl None true true d
             "" s resp s' Hnew Hrt) by (try done; lia).
  unfold fileDetailsOf. cbn [sr_err sr_resp sr_respBody].
  unfold CheckResponseStatusWithBody, inCodes. cbn [existsb].
  rewrite Hst, Hlen. reflexivity.
Qed.

Lemma remote_details_without_length_witness :
  GetRemoteFileDetails headWorld (mkGlobals "") (plainClient unit 3) 1
    "http://a/file" (anonymous unit) tt
  = Some (Returned
            (Some (mkFileDetails (mkChecksumDetails "ab" "6865" "") 0),
             Some headResponse, None),
          tt).
Proof.
  apply (remote_details_without_length headWorld (mkGlobals "")
           (plainClient unit 3) (anonymous unit) "http://a/file" headResponse
           0 tt tt).
  - cbn. lia.
  - reflexivity.
  - reflexivity.
  - reflexivity.
  - reflexivity.
  - reflexivity.
Defined.

(** ** From the workers to the join *)

(** A chunk worker never returns a nil response without an error. *)
Lemma downloadFileRange_filled {St} (W : World St) jc attempt flags
    currentSplit prefix (s : St) r s' :
  downloadFileRange W jc attempt flags currentSplit prefix s = Some (r, s') ->
  is_Some (rr_err r) \/ is_Some (rr_resp r).
Proof.
  unfold downloadFileRange, Execute.
  set (runner := mkRetryExecutor _ _ _ _ _ _).
  destruct (retryLoop W runner _ None noRange s) as [[[err h] s1]|] eqn:E;
    [|done].
  intros [= <- <-]. cbn [rr_err rr_resp].
  apply (retryLoop_post W runner (fun _ => True)
           (fun err h => is_Some err \/ is_Some (rr_resp h))
           _ _ _ _ _ _ _) in E; [exact E| | |done].
  - intros h0 s0 again e0 h1 s2. subst runner. cbn [ExecutionHandler].
    unfold rangeHandler. destruct (attempt s0) as [[r0 s3]|]; [|done].
    destruct (rr_err r0) as [e|] eqn:Ee.
    + intros [= <- <- <- <-]. done.
    + destruct (rr_resp r0) as [resp|] eqn:Er.
      * destruct (resp_StatusCode resp <? 500); intros [= <- <- <- <-];
          (split; [done|]); intros _; right; rewrite Er; by eexists.
      * intros [= <- <- <- <-]. split; [done|]. intros _. left. by eexists.
  - intros e0 h0 _. left. by eexists.
Qed.

Lemma dispatchLoop_shape stop fileSize N n i :
  0 <= i ->
  (length (dispatchLoop stop fileSize N n i) <= n)%nat /\
  (forall k, (k < length (dispatchLoop stop fileSize N n i))%nat ->
     dispatchLoop stop fileSize N n i !! k
     = Some (chunkAt fileSize N (i + Z.of_nat k))) /\
  ((length (dispatchLoop stop fileSize N n i) < n)%nat ->
   0 < i + Z.of_nat (length (dispatchLoop stop fileSize N n i)) /\
   stop (i + Z.of_nat (length (dispatchLoop stop fileSize N n i))) = true).
Proof.
  revert i. induction n as [|n IH]; intros i Hi; cbn [dispatchLoop].
  - cbn. repeat split; lia.
  - destruct ((0 <? i) && stop i) eqn:E.
    + cbn [length]. split; [lia|]. split; [intros k Hk; lia|].
      intros _. rewrite Z.add_0_r. apply andb_true_iff in E as [E1 E2].
      split; [lia|done].
    + destruct (chunkBounds fileSize N i) as [a b] eqn:Hb. cbn [length].
      destruct (IH (i + 1) ltac:(lia)) as (H1 & H2 & H3).
      split; [lia|]. split.
      * intros [|k] Hk; cbn.
        -- unfold chunkAt. by rewrite Z.add_0_r, Hb.
        -- rewrite H2 by lia. do 2 f_equal. lia.
      * intros Hlt. destruct H3 as [H3 H4]; [lia|].
        replace (i + Z.of_nat (S (length (dispatchLoop stop fileSize N n (i + 1)))))
          with (i + 1 + Z.of_nat (length (dispatchLoop stop fileSize N n (i + 1))))
          by lia.
        done.
Qed.

Lemma lookup_map {A B} (f : A -> B) (l : list A) i :
  map f l !! i = f <$> l !! i.
Proof.
  revert i. induction l as [|x l IH]; intros [|i]; cbn; auto.
Qed.

Lemma slotsOf_length {A} (stored : list (option A)) n :
  (length stored <= n)%nat -> length (slotsOf stored n) = n.
Proof.
  intros H. unfold slotsOf. rewrite length_app, length_replicate. lia.
Qed.

Lemma slotsOf_lookup_stored {A} (stored : list (option A)) n i :
  (i < length stored)%nat -> slotsOf stored n !! i = stored !! i.
Proof. intros H. unfold slotsOf. by rewrite lookup_app_l. Qed.

Lemma slotsOf_lookup_rest {A} (stored : list (option A)) n i :
  (length stored <= i < n)%nat -> slotsOf stored n !! i = Some None.
Proof.
  intros H. unfold slotsOf. rewrite lookup_app_r by lia.
  apply lookup_replicate_2. lia.
Qed.

(** The slots a run of [downloadChunksConcurrently] leaves for the join
    are in the state [afterWait] describes, provided every worker returns
    an error or a response, and the dispatcher leaves its loop early only
    after a worker it has started has failed. *)
Lemma downloadChunksConcurrently_afterWait stop worker flags :
  1 <= SplitCount flags ->
  (forall c, is_Some (rr_err (worker c)) \/ is_Some (rr_resp (worker c))) ->
  (forall i, 0 < i -> stop i = true ->
     exists j, 0 <= j < i /\
       rangeFailed (worker (chunkAt (FileSize flags) (SplitCount flags) j))) ->
  exists k errorsList respList,
    afterWait k errorsList respList /\
    downloadChunksConcurrently stop worker flags
    = joinChunks errorsList respList.
Proof.
  intros HN Hfilled Hstop. unfold downloadChunksConcurrently, dispatchChunks.
  destruct (SplitCount flags <? 0) eqn:E1; [lia|].
  destruct (SplitCount flags =? 0) eqn:E2; [lia|].
  set (n := Z.to_nat (SplitCount flags)).
  set (chunks := dispatchLoop stop (FileSize flags) (SplitCount flags) n 0).
  destruct (dispatchLoop_shape stop (FileSize flags) (SplitCount flags) n 0
              ltac:(lia)) as (Hle & Hlook & Hearly).
  fold chunks in Hle, Hlook, Hearly.
  assert (Hpos : (0 < length chunks)%nat).
  { subst chunks. destruct n as [|n'] eqn:En; [lia|]. cbn [dispatchLoop].
    change (0 <? 0) with false. cbn [andb].
    destruct (chunkBounds _ _ 0). cbn. lia. }
  exists (length chunks), (slotsOf (map rr_err (map worker chunks)) n),
    (slotsOf (map rr_resp (map worker chunks)) n).
  split; [|reflexivity].
  assert (Hl1 : length (map rr_err (map worker chunks)) = length chunks)
    by (by rewrite !length_map).
  assert (Hl2 : length (map rr_resp (map worker chunks)) = length chunks)
    by (by rewrite !length_map).
  assert (Hat : forall i, (i < length chunks)%nat ->
            map rr_err (map worker chunks) !! i
              = Some (rr_err (worker (chunkAt (FileSize flags)
                                        (SplitCount flags) (Z.of_nat i)))) /\
            map rr_resp (map worker chunks) !! i
              = Some (rr_resp (worker (chunkAt (FileSize flags)
                                         (SplitCount flags) (Z.of_nat i))))).
  { intros i Hi. rewrite !lookup_map, (Hlook i Hi). done. }
  unfold afterWait. rewrite !slotsOf_length by (rewrite !length_map; lia).
  split; [done|]. split; [lia|]. split; [|split].
  - intros i e r Hi. rewrite !slotsOf_lookup_stored by (rewrite !length_map; lia).
    destruct (Hat i Hi) as [-> ->]. intros [= <-] [= <-]. apply Hfilled.
  - intros i Hi. rewrite !slotsOf_lookup_rest by (rewrite !length_map; lia). done.
  - intros Hlt. destruct (Hearly Hlt) as [H0 Hs].
    rewrite Z.add_0_l in H0, Hs.
    destruct (Hstop _ H0 Hs) as (j & Hj & Hfail).
    exists (Z.to_nat j). split; [lia|].
    rewrite !slotsOf_lookup_stored by (rewrite !length_map; lia).
    destruct (Hat (Z.to_nat j) ltac:(lia)) as [-> ->].
    rewrite Z2Nat.id by lia.
    destruct Hfail as [[e He]|(r & Hr & Hst)].
    + left. exists e. by rewrite He.
    + right. exists r. by rewrite Hr.
Qed.

(** ** The trace-id on the upload path *)

(** The request of an upload is not given the trace-id header: it carries
    one only if the caller supplies it. *)
Lemma uploadRequest_trace_id {St} (W : World St) (d : HttpClientDetails St)
    url reader size s :
  req_Header (uploadRequest W d url reader size s) !! "Uber-Trace-Id"
  = (fun v => [v]) <$> lastValue "Uber-Trace-Id" (rangeOrder W (Headers d) s).
Proof.
  unfold uploadRequest, addUserAgentHeader, setRequestHeaders.
  rewrite setHeader_Header, lookup_insert_ne by (vm_compute; discriminate).
  rewrite setAuthentication_other by done.
  rewrite setHeader_Header, lookup_insert_ne by (vm_compute; discriminate).
  rewrite copyHeaders_lookup. by destruct (lastValue _ _).
Qed.

(** * Part III: further properties of the client *)

(** ** What [Send] returns *)

Lemma sendHandler_stop {St} (W : World St) g jc SendPost fuel method url content
    followRedirect closeBody (d : HttpClientDetails St) prefix h s err r s1 :
  sendHandler W g jc SendPost fuel method url content followRedirect closeBody
    d prefix h s = Some (false, err, r, s1) ->
  err = None -> is_Some (sr_resp r).
Proof.
  unfold sendHandler. destruct (createReq W method url content) as [req|e0];
    [|done].
  destruct (doRequest _ _ _ _ _ _ _ _ _ _ _) as [[r0 s0]|]; [|done].
  destruct (sr_err r0) as [e|].
  - destruct (Contains e _); intros Heq; simplify_eq; done.
  - destruct (sr_resp r0) as [resp|] eqn:Er.
    + destruct (shouldRetry resp d s0) as [again s2].
      destruct again; cbn [negb]; intros Heq; simplify_eq.
      intros _. rewrite Er. by eexists.
    + intros Heq. simplify_eq. done.
Qed.

(** When the error of [Send] is nil, its response is not. *)
Lemma Send_nonnil {St} (W : World St) (g : Globals)
    (jc : HttpClient St) (fuel : nat) (method url : string)
    (content : option string) (followRedirect closeBody : bool)
    (d : HttpClientDetails St) (prefix : string) (s s' : St) (r : SendResult) :
  Send W g jc fuel method url content followRedirect closeBody d prefix s
    = Some (r, s') ->
  sr_err r = None -> is_Some (sr_resp r).
Proof.
  destruct fuel as [|fuel]; [done|]. rewrite Send_unfold. unfold Execute.
  set (runner := mkRetryExecutor _ _ _ _ _ _).
  destruct (retryLoop W runner _ None noResult s) as [[[err h] s1]|] eqn:E;
    [|done].
  intros [= <- <-]. cbn [sr_err sr_resp].
  apply (retryLoop_post W runner (fun _ => True)
           (fun err h => err = None -> is_Some (sr_resp h))
           (Z.to_nat (MaxRetries runner + 1)) None noResult s err h s1);
    [| |done|exact E].
  - intros h0 s0 again e0 h1 s2. subst runner. cbn [ExecutionHandler].
    intros Hh. split; [done|]. intros ->.
    by eapply sendHandler_stop.
  - intros e0 h0 _ [=].
Qed.

(** X1. [Send] never returns a nil response together with a nil error:
    whatever the world, the method and the flags, a result of [Send] holds
    an error or a response. *)
Theorem Send_response_or_error {St} (W : World St) (g : Globals)
    (jc : HttpClient St) (fuel : nat) (method url : string)
    (content : option string) (followRedirect closeBody : bool)
    (d : HttpClientDetails St) (prefix : string) (s s' : St) (r : SendResult) :
  Send W g jc fuel method url content followRedirect closeBody d prefix s
    = Some (r, s') ->
  is_Some (sr_err r) \/ is_Some (sr_resp r).
Proof.
  intros H. destruct (sr_err r) as [e|] eqn:E; [left; by eexists|].
  right. by eapply Send_nonnil.
Qed.

Lemma Send_response_or_error_witness :
  is_Some (sr_err (mkSendResult (Some resp200) (Some "") "" None)) \/
  is_Some (sr_resp (mkSendResult (Some resp200) (Some "") "" None)).
Proof.
  apply (Send_response_or_error redirectWorld (mkGlobals "") (plainClient _ 0)
           1 "GET" "http://b" None true true (anonymous _) "" []
           [sentRequest redirectWorld (mkGlobals "") (anonymous _) "GET"
              "http://b" None []]).
  vm_compute. reflexivity.
Defined.

(** X2. The callers that read the status of the response right after
    [Send] never meet a nil response: a call of [GetRemoteFileDetails], of
    [ReadRemoteFile] or of [IsAcceptRanges] that ends, ends by returning
    and not by a panic. *)
Theorem head_and_get_callers_return {St} (W : World St) (g : Globals)
    (jc : HttpClient St) (fuel : nat) (url : string)
    (d : HttpClientDetails St) (s : St) :
  (forall o s', GetRemoteFileDetails W g jc fuel url d s = Some (o, s') ->
     exists v, o = Returned v) /\
  (forall o s', ReadRemoteFile W g jc fuel url d s = Some (o, s') ->
     exists v, o = Returned v) /\
  (forall o s', IsAcceptRanges W g jc fuel url d s = Some (o, s') ->
     exists v, o = Returned v).
Proof.
  split; [|split].
  - intros o s'. unfold GetRemoteFileDetails, SendHead.
    destruct (Send _ _ _ _ _ _ _ _ _ _ _ _) as [[r s1]|] eqn:E; [|done].
    intros [= <- <-]. unfold fileDetailsOf.
    destruct (sr_err r) eqn:Ee; [by eexists|].
    destruct (Send_nonnil _ _ _ _ _ _ _ _ _ _ _ _ _ _ E Ee)
      as [resp ->].
    destruct (CheckResponseStatusWithBody _ _ _); [by eexists|].
    destruct (if 0 <? len _ then _ else _) as [size err].
    destruct (CheckError err); by eexists.
  - intros o s'. unfold ReadRemoteFile, sendGetForFileDownload,
      sendGetLeaveBodyOpen.
    destruct (Send _ _ _ _ _ _ _ _ _ _ _ _) as [[r s1]|] eqn:E; [|done].
    intros [= <- <-]. unfold remoteFileOf.
    destruct (sr_err r) eqn:Ee; [by eexists|].
    destruct (Send_nonnil _ _ _ _ _ _ _ _ _ _ _ _ _ _ E Ee)
      as [resp ->].
    destruct (negb _); by eexists.
  - intros o s'. unfold IsAcceptRanges, SendHead.
    destruct (Send _ _ _ _ _ _ _ _ _ _ _ _) as [[r s1]|] eqn:E; [|done].
    intros [= <- <-]. unfold acceptRangesOf, CheckError.
    destruct (sr_err r) eqn:Ee; [by eexists|].
    destruct (Send_nonnil _ _ _ _ _ _ _ _ _ _ _ _ _ _ E Ee)
      as [resp ->].
    destruct (negb _); by eexists.
Qed.

Lemma head_and_get_callers_return_witness :
  exists v,
    GetRemoteFileDetails headWorld (mkGlobals "") (plainClient unit 0) 1
      "http://a/file" (anonymous unit) tt = Some (Returned v, tt).
Proof.
  destruct (head_and_get_callers_return headWorld (mkGlobals "")
              (plainClient unit 0) 1 "http://a/file" (anonymous unit) tt)
    as [H _].
  destruct (H (fileDetailsOf quoted
                 (mkSendResult (Some headResponse) (Some "") "" None)) tt)
    as [v Hv].
  - vm_compute. reflexivity.
  - exists v. rewrite <- Hv. vm_compute. reflexivity.
Defined.

(** ** Retries of [Send] *)

Section SendAttempt.

Context {St : Type}.
Variable W : World St.
Variable g : Globals.
Variable jc : HttpClient St.
Variable d : HttpClientDetails St.
Variables method url prefix : string.
Variable content : option string.
Variables followRedirect closeBody : bool.
Hypothesis Hretries : 0 <= retries jc.
Hypothesis Hnew : newRequestErr W method url = None.

(** An exchange that the retry predicate does not let be retried ends
    [Send] after one attempt. *)
Lemma Send_not_retried fuel s resp s1 s2 :
  roundTrip W (sentRequest W g d method url content s) s = (RTFinal resp, s1) ->
  body_closeErr (resp_Body resp) = None ->
  shouldRetry resp d s1 = (false, s2) ->
  Send W g jc (S fuel) method url content followRedirect closeBody d prefix s
  = Some (mkSendResult (Some resp)
            (if closeBody then Some (body_data (resp_Body resp)) else None)
            "" None, s2).
Proof using Hretries Hnew.
  intros Hrt Hclose Hno. rewrite Send_unfold.
  set (r := mkSendResult (Some resp)
              (if closeBody then Some (body_data (resp_Body resp)) else None)
              "" None).
  rewrite (Execute_first W _ noResult s None r s2); [done|exact Hretries|].
  cbn [ExecutionHandler]. unfold sendHandler, createReq, newRequest.
  rewrite Hnew. cbn [CheckError]. unfold doRequest.
  fold (sentRequest W g d method url content s).
  cbn [clientDo]. rewrite Hrt. cbn [outErr outResp].
  rewrite bool_decide_eq_false_2 by (intros [? [=]]).
  cbn [andb]. subst r. destruct closeBody.
  - rewrite Hclose. cbn [CheckError Join sr_err sr_resp]. by rewrite Hno.
  - cbn [sr_err sr_resp]. by rewrite Hno.
Qed.

(** A transport error that names an unsupported scheme ends [Send] after
    one attempt. *)
Lemma Send_unsupported_scheme fuel s e s1 :
  roundTrip W (sentRequest W g d method url content s) s = (RTError e, s1) ->
  Contains e "unsupported protocol scheme" = true ->
  Send W g jc (S fuel) method url content followRedirect closeBody d prefix s
  = Some (mkSendResult None None ""
            (Some (invalidUrlHint
                     (urlError
                        (urlErrorOp
                           (req_Method (sentRequest W g d method url content s)))
                        (req_URL (sentRequest W g d method url content s)) e)
                     url)),
          s1).
Proof using Hretries Hnew.
  intros Hrt He. rewrite Send_unfold.
  set (msg := urlError _ _ e).
  rewrite (Execute_first W _ noResult s (Some (invalidUrlHint msg url))
             (mkSendResult None None "" (Some msg)) s1);
    [done|exact Hretries|].
  cbn [ExecutionHandler]. unfold sendHandler, createReq, newRequest.
  rewrite Hnew. cbn [CheckError]. unfold doRequest.
  fold (sentRequest W g d method url content s).
  cbn [clientDo]. rewrite Hrt. cbn [outErr outResp].
  change (String.eqb "" "") with true. rewrite !andb_false_r.
  cbn [andb]. unfold CheckError. cbn [sr_err]. fold msg.
  assert (Hc : Contains msg "unsupported protocol scheme" = true).
  { subst msg. unfold urlError. by do 4 apply Contains_app_r. }
  by rewrite Hc.
Qed.

End SendAttempt.

(** X3. A transport error whose message names an unsupported protocol
    scheme is not retried: [Send] returns after one exchange, without a
    response, with an error that holds the message of the transport and
    the advice to give the URL a scheme. *)
Theorem Send_invalid_url_not_retried {St} (W : World St) (g : Globals)
    (jc : HttpClient St) (d : HttpClientDetails St) (method url prefix : string)
    (content : option string) (followRedirect closeBody : bool) (fuel : nat)
    (s s1 : St) (e : Error) :
  0 <= retries jc ->
  newRequestErr W method url = None ->
  roundTrip W (sentRequest W g d method url content s) s = (RTError e, s1) ->
  Contains e "unsupported protocol scheme" = true ->
  exists msg,
    Send W g jc (S fuel) method url content followRedirect closeBody d prefix s
    = Some (mkSendResult None None "" (Some msg), s1) /\
    Contains msg e = true /\
    Contains msg "Please ensure the URL includes a valid scheme" = true.
Proof.
  intros Hretries Hnew Hrt He. eexists. split.
  - by apply Send_unsupported_scheme.
  - unfold invalidUrlHint, urlError. split.
    + apply Contains_app_l. do 4 apply Contains_app_r. apply Contains_self.
    + do 4 apply Contains_app_r.
      apply (Contains_middle ", " "Please ensure the URL includes a valid scheme"
               " like 'http://' or 'https://'.").
Qed.

Lemma Send_invalid_url_not_retried_witness :
  exists msg,
    Send noSchemeWorld (mkGlobals "") (plainClient nat 3) 1 "GET" "ftp://a"
      None true true (anonymous nat) "" 0%nat
    = Some (mkSendResult None None "" (Some msg), 1%nat).
Proof.
  destruct (Send_invalid_url_not_retried noSchemeWorld (mkGlobals "")
              (plainClient nat 3) (anonymous nat) "GET" "ftp://a" "" None
              true true 0 0%nat 1%nat
              ("unsupported protocol scheme " +:+ quoted "ftp"))
    as (msg & H & _).
  - cbn. lia.
  - reflexivity.
  - reflexivity.
  - vm_compute. reflexivity.
  - exists msg. exact H.
Defined.

(** X5. A pre-retry interceptor that refuses ends [Send]: the response,
    whatever its status, is returned without error after one exchange. *)
Theorem Send_interceptor_veto {St} (W : World St) (g : Globals)
    (jc : HttpClient St) (d : HttpClientDetails St) (method url prefix : string)
    (content : option string) (followRedirect closeBody : bool) (fuel : nat)
    (s s1 : St) (resp : Response) :
  0 <= retries jc ->
  newRequestErr W method url = None ->
  roundTrip W (sentRequest W g d method url content s) s = (RTFinal resp, s1) ->
  body_closeErr (resp_Body resp) = None ->
  ~ allAnswerTrue (PreRetryInterceptors d) s1 ->
  exists s2,
    Send W g jc (S fuel) method url content followRedirect closeBody d prefix s
    = Some (mkSendResult (Some resp)
              (if closeBody then Some (body_data (resp_Body resp)) else None)
              "" None, s2).
Proof.
  intros Hretries Hnew Hrt Hclose Hveto.
  destruct (shouldRetry resp d s1) as [again s2] eqn:E.
  assert (again = false) as ->.
  { destruct again; [|done]. exfalso. apply Hveto.
    unfold shouldRetry in E.
    destruct (_ && _) in E; [done|].
    apply runInterceptors_true. by rewrite E. }
  exists s2. by eapply Send_not_retried.
Qed.

Lemma Send_interceptor_veto_witness :
  exists s2,
    Send unavailableWorld (mkGlobals "") (plainClient nat 3) 1 "GET" "http://a"
      None true true (vetoing nat) "" 0%nat
    = Some (mkSendResult (Some resp503) (Some "") "" None, s2).
Proof.
  apply (Send_interceptor_veto unavailableWorld (mkGlobals "")
           (plainClient nat 3) (vetoing nat) "GET" "http://a" "" None true
           true 0 0%nat 1%nat resp503).
  - cbn. lia.
  - reflexivity.
  - reflexivity.
  - reflexivity.
  - cbn. intros [H _]. discriminate H.
Defined.

(** The attempts of a run whose handler always asks for a retry and moves
    the counter [count] by [k]. *)
Lemma retryLoop_count_by {St H} (W : World St) (runner : RetryExecutor St H)
    (count : St -> nat) (k n : nat) last h s err h' s' :
  Context runner = None ->
  (forall h s again e h1 s1,
     ExecutionHandler runner h s = Some (again, e, h1, s1) ->
     again = true /\ count s1 = (count s + k)%nat) ->
  (forall ms s, count (sleep W ms s) = count s) ->
  retryLoop W runner n last h s = Some (err, h', s') ->
  count s' = (count s + n * k)%nat.
Proof.
  intros Hctx Hstep Hsleep. revert last h s.
  induction n as [|n IH]; intros last h s; cbn [retryLoop].
  - intros [= <- <- <-]. lia.
  - destruct (ExecutionHandler runner h s) as [[[[again e] h1] s1]|] eqn:E;
      [|done].
    destruct (Hstep _ _ _ _ _ _ E) as [-> Hc]. cbn [negb].
    destruct n.
    + intros Hr. apply (IH e) in Hr. lia.
    + rewrite Hctx. cbn [contextDone]. intros Hr. apply (IH e) in Hr.
      rewrite Hsleep in Hr. lia.
Qed.

Section FailingTransport.

Context {St : Type}.
Variable W : World St.
Variable g : Globals.
Variable jc : HttpClient St.
Variable count : St -> nat.
Variables method url : string.
Hypothesis Hctx : ctx jc = None.
Hypothesis Hmethod : method <> "".
Hypothesis Hnew : newRequestErr W method url = None.
Hypothesis Hsleep : forall ms s, count (sleep W ms s) = count s.
Hypothesis Hfail :
  forall req s, req_Method req = method -> req_URL req = url ->
    exists e s1,
      roundTrip W req s = (RTError e, s1) /\
      count s1 = S (count s) /\
      Contains (urlError (urlErrorOp method) url e)
        "unsupported protocol scheme" = false.

Lemma sendHandler_failing SendPost fuel content followRedirect closeBody
    (d : HttpClientDetails St) prefix h s :
  exists e s1,
    sendHandler W g jc SendPost (S fuel) method url content followRedirect
      closeBody d prefix h s
    = Some (true, Some e, mkSendResult None None "" (Some e), s1) /\
    count s1 = (count s + 1)%nat.
Proof using Hmethod Hnew Hfail.
  destruct (sentRequest_fields W g d method url content s Hmethod)
    as (Hm & Hu & _).
  destruct (Hfail (sentRequest W g d method url content s) s Hm Hu)
    as (e & s1 & Hrt & Hc & Hno).
  exists (urlError (urlErrorOp method) url e), s1. split; [|lia].
  unfold sendHandler, createReq, newRequest.
  rewrite Hnew. cbn [CheckError]. unfold doRequest.
  fold (sentRequest W g d method url content s).
  cbn [clientDo]. rewrite Hrt, Hm, Hu. cbn [outErr outResp].
  change (String.eqb "" "") with true. rewrite !andb_false_r.
  cbn [andb]. unfold CheckError. cbn [sr_err]. by rewrite Hno.
Qed.

(** [Send] over a transport that fails: every attempt is made, and the
    result is an error without a response. *)
Lemma Send_failing fuel content followRedirect closeBody
    (d : HttpClientDetails St) prefix s :
  exists e s',
    Send W g jc (S fuel) method url content followRedirect closeBody d prefix s
    = Some (mkSendResult None None "" (Some e), s') /\
    count s' = (count s + Z.to_nat (retries jc + 1))%nat.
Proof using Hctx Hmethod Hnew Hsleep Hfail.
  rewrite Send_unfold. unfold Execute.
  set (runner := mkRetryExecutor _ _ _ _ _ _).
  destruct (retryLoop_total W runner (Z.to_nat (MaxRetries runner + 1)) None
              noResult s) as [[[err h] s'] Hrun].
  { intros h0 s0. subst runner. cbn [ExecutionHandler].
    destruct (sendHandler_failing
                (fun url content details prefix s =>
                   Send W g jc fuel "POST" url content true true details
                     prefix s) fuel content followRedirect closeBody d prefix
                h0 s0) as (e & s1 & -> & _). by eexists. }
  rewrite Hrun.
  assert (Hc : count s' = (count s + Z.to_nat (MaxRetries runner + 1) * 1)%nat).
  { apply (retryLoop_count_by W runner count 1 _ None noResult s err h s');
      [subst runner; exact Hctx| |exact Hsleep|exact Hrun].
    intros h0 s0 again e0 h1 s1. subst runner. cbn [ExecutionHandler].
    destruct (sendHandler_failing
                (fun url content details prefix s =>
                   Send W g jc fuel "POST" url content true true details
                     prefix s) fuel content followRedirect closeBody d prefix
                h0 s0) as (e & s2 & -> & Hc).
    intros [= <- _ _ <-]. done. }
  assert (Hpost : is_Some err /\ sr_resp h = None /\ sr_respBody h = None /\
                  sr_redirectUrl h = "").
  { apply (retryLoop_post W runner
             (fun h => sr_resp h = None /\ sr_respBody h = None /\
                       sr_redirectUrl h = "")
             (fun err h => is_Some err /\ sr_resp h = None /\
                           sr_respBody h = None /\ sr_redirectUrl h = "")
             (Z.to_nat (MaxRetries runner + 1)) None noResult s err h s');
      [| |done|exact Hrun].
    - intros h0 s0 again e0 h1 s1. subst runner. cbn [ExecutionHandler].
      destruct (sendHandler_failing
                  (fun url content details prefix s =>
                     Send W g jc fuel "POST" url content true true details
                       prefix s) fuel content followRedirect closeBody d prefix
                  h0 s0) as (e & s2 & -> & _).
      intros [= <- <- <- <-]. split; [done|]. intros [=].
    - intros e0 h0 HP. split; [by eexists|exact HP]. }
  destruct Hpost as ([e ->] & Hr & Hb & Hu).
  exists e, s'. split; [|subst runner; cbn [MaxRetries] in Hc; lia].
  destruct h as [hr hb hu he]. cbn in Hr, Hb, Hu. by subst.
Qed.

End FailingTransport.

(** X4. A transport error of another kind is retried: over a transport
    that always fails, and without a context, [Send] makes every one of its
    [retries + 1] attempts, each of which reaches the transport once, and
    returns an error without a response. *)
Theorem Send_transport_error_retried {St} (W : World St) (g : Globals)
    (jc : HttpClient St) (count : St -> nat) (method url : string)
    (fuel : nat) (content : option string) (followRedirect closeBody : bool)
    (d : HttpClientDetails St) (prefix : string) (s : St) :
  ctx jc = None ->
  method <> "" ->
  newRequestErr W method url = None ->
  (forall ms s, count (sleep W ms s) = count s) ->
  (forall req s, req_Method req = method -> req_URL req = url ->
     exists e s1,
       roundTrip W req s = (RTError e, s1) /\
       count s1 = S (count s) /\
       Contains (urlError (urlErrorOp method) url e)
         "unsupported protocol scheme" = false) ->
  exists e s',
    Send W g jc (S fuel) method url content followRedirect closeBody d prefix s
    = Some (mkSendResult None None "" (Some e), s') /\
    count s' = (count s + Z.to_nat (retries jc + 1))%nat.
Proof.
  intros Hctx Hmethod Hnew Hsleep Hfail.
  by apply (Send_failing W g jc count method url Hctx Hmethod Hnew Hsleep Hfail).
Qed.

Lemma downWorld_fails method url :
  Contains (urlError (urlErrorOp method) url "connection refused")
    "unsupported protocol scheme" = false ->
  forall (req : Request) (s : nat),
    req_Method req = method -> req_URL req = url ->
    exists e s1,
      roundTrip downWorld req s = (RTError e, s1) /\
      id s1 = S (id s) /\
      Contains (urlError (urlErrorOp method) url e)
        "unsupported protocol scheme" = false.
Proof.
  intros Hc req s _ _. exists "connection refused", (S s). done.
Qed.

Lemma Send_transport_error_retried_witness :
  exists e,
    Send downWorld (mkGlobals "") (plainClient nat 2) 1 "GET" "http://a" None
      true true (anonymous nat) "" 0%nat
    = Some (mkSendResult None None "" (Some e), 3%nat).
Proof.
  destruct (Send_transport_error_retried downWorld (mkGlobals "")
              (plainClient nat 2) id "GET" "http://a" 0 None true true
              (anonymous nat) "" 0%nat) as (e & s' & H & Hc).
  - reflexivity.
  - discriminate.
  - reflexivity.
  - reflexivity.
  - apply downWorld_fails. vm_compute. reflexivity.
  - exists e. unfold id in Hc. cbn in Hc. by subst s'.
Defined.

(** ** Interceptors *)

Lemma runInterceptors_app {St} (pre post : list (St -> bool * St)) (s : St) :
  allAnswerTrue pre s ->
  runInterceptors (pre ++ post) s
  = runInterceptors post (runInterceptors pre s).2.
Proof.
  revert s. induction pre as [|f pre IH]; intros s; cbn; [done|].
  destruct (f s) as [b s1]. cbn. intros [-> Hall]. cbn. by apply IH.
Qed.

(** X6. The interceptors are asked in order and the first refusal ends the
    loop: the interceptors behind it are not called, so that the state of
    the world is the one the refusing interceptor has left, whatever the
    later ones would do. *)
Theorem shouldRetry_stops_at_refusal {St} (resp : Response)
    (d : HttpClientDetails St) (pre post : list (St -> bool * St))
    (f : St -> bool * St) (s : St) :
  PreRetryInterceptors d = pre ++ f :: post ->
  500 <= resp_StatusCode resp \/ resp_StatusCode resp = 429 ->
  allAnswerTrue pre s ->
  (f (runInterceptors pre s).2).1 = false ->
  shouldRetry resp d s = (false, (f (runInterceptors pre s).2).2).
Proof.
  intros Hd Hst Hpre Hf. unfold shouldRetry, StatusTooManyRequests.
  assert ((resp_StatusCode resp <? 500)
          && negb (resp_StatusCode resp =? 429) = false) as ->.
  { destruct (Z.ltb_spec (resp_StatusCode resp) 500),
      (Z.eqb_spec (resp_StatusCode resp) 429); cbn; lia. }
  rewrite Hd, runInterceptors_app by done. cbn [runInterceptors].
  destruct (f (runInterceptors pre s).2) as [b s1]. cbn in Hf. by subst b.
Qed.

Lemma shouldRetry_stops_at_refusal_witness :
  shouldRetry resp503
    (mkDetails "" "" "" "" ∅
       [fun n : nat => (true, S n); fun n => (false, S n);
        fun n => (true, (n + 100)%nat)]) 0%nat
  = (false, 2%nat).
Proof.
  apply (shouldRetry_stops_at_refusal resp503 _
           [fun n : nat => (true, S n)] [fun n => (true, (n + 100)%nat)]
           (fun n => (false, S n)) 0%nat).
  - reflexivity.
  - left. cbn. lia.
  - cbn. done.
  - reflexivity.
Defined.

(** ** Caller headers against injected headers *)

(** X7. In the request [doRequest] builds, a header the caller supplies
    replaces whatever the decoration has put under that name, credentials
    included: only the trace-id header is written after the headers of the
    caller. *)
Theorem caller_header_replaces_decoration {St} (g : Globals)
    (userAgent : string) (entries : list (string * string)) (req : Request)
    (d : HttpClientDetails St) (name value : string) :
  lastValue name entries = Some value ->
  name <> "Uber-Trace-Id" ->
  req_Header (decorateRequest g userAgent entries req d) !! name
  = Some [value].
Proof.
  intros Hlast Hname. unfold decorateRequest, addUberTraceIdHeaderIfSet.
  destruct (String.eqb (uberTraceIdToken g) "").
  - by rewrite copyHeaders_lookup, Hlast.
  - rewrite setHeader_Header, lookup_insert_ne by (vm_compute; congruence).
    by rewrite copyHeaders_lookup, Hlast.
Qed.

Lemma caller_header_replaces_decoration_witness :
  req_Header
    (decorateRequest (mkGlobals "") "agent" [("authorization", "Custom abc")]
       emptyRequest (mkDetails (St := unit) "admin" "secret" "" "" ∅ []))
    !! "Authorization"
  = Some ["Custom abc"].
Proof.
  apply caller_header_replaces_decoration.
  - reflexivity.
  - discriminate.
Defined.

(** X8. In the request of an upload the order is the other way round: the
    headers of the caller are copied first, so that the content length, the
    credentials of the request details and the user agent replace what the
    caller has supplied under those names; and the trace-id header is not
    written at all, so that the request carries one only if the caller
    supplies it. *)
Theorem upload_headers_replace_caller {St} (W : World St)
    (d : HttpClientDetails St) (url reader : string) (size : Z) (s : St) :
  let h := req_Header (uploadRequest W d url reader size s) in
  h !! "User-Agent" = Some [GetUserAgent W] /\
  h !! "Content-Length" = Some [strconv.FormatInt size] /\
  match specAuthScheme d with
  | BasicAuth user password =>
      h !! "Authorization" =
        Some ["Basic " +:+ base64.EncodeToString (user +:+ ":" +:+ password)]
  | ApiKeyHeader key => h !! "X-Jfrog-Art-Api" = Some [key]
  | BearerAuth token => h !! "Authorization" = Some ["Bearer " +:+ token]
  | NoAuth => True
  end /\
  h !! "Uber-Trace-Id"
  = (fun v => [v]) <$> lastValue "Uber-Trace-Id" (rangeOrder W (Headers d) s).
Proof.
  cbn zeta. split; [|split; [|split]].
  - unfold uploadRequest, addUserAgentHeader.
    by rewrite setHeader_Header, lookup_insert_eq.
  - unfold uploadRequest, addUserAgentHeader, setRequestHeaders.
    rewrite setHeader_Header, lookup_insert_ne by (vm_compute; discriminate).
    rewrite setAuthentication_other by done.
    by rewrite setHeader_Header, lookup_insert_eq.
  - unfold uploadRequest, addUserAgentHeader.
    rewrite setHeader_Header. rewrite setAuthentication_spec. cbn [req_Header].
    destruct (specAuthScheme d); cbn [specAuthHeaders]; [| | |done];
      rewrite lookup_insert_ne by (vm_compute; discriminate);
      by rewrite lookup_insert_eq.
  - apply uploadRequest_trace_id.
Qed.

Lemma upload_headers_replace_caller_witness :
  req_Header
    (uploadRequest headWorld (mkDetails (St := unit) "" "" "" "" ∅ [])
       "http://a/file" "data" 4 tt) !! "Content-Length"
  = Some ["4"].
Proof.
  pose proof (upload_headers_replace_caller headWorld
                (mkDetails (St := unit) "" "" "" "" ∅ []) "http://a/file"
                "data" 4 tt) as H.
  cbn zeta in H. destruct H as (_ & H & _). exact H.
Defined.

(** ** Decimal numbers *)





(** ** HEAD and GET exchanges *)

Section Exchange.

Context {St : Type}.
Variable W : World St.
Variable g : Globals.
Variable jc : HttpClient St.
Variable d : HttpClientDetails St.
Variable url : string.
Variables s s1 : St.
Variable resp : Response.
Hypothesis Hretries : 0 <= retries jc.
Hypothesis Hlt : resp_StatusCode resp < 500.
Hypothesis Hne : resp_StatusCode resp <> 429.

(** One exchange, the body left open: an error of closing it plays no
    part. *)
Lemma Send_body_open fuel method content followRedirect prefix :
  newRequestErr W method url = None ->
  roundTrip W (sentRequest W g d method url content s) s = (RTFinal resp, s1) ->
  Send W g jc (S fuel) method url content followRedirect false d prefix s
  = Some (mkSendResult (Some resp) None "" None, s1).
Proof using Hretries Hlt Hne.
  intros Hnew Hrt. rewrite Send_unfold.
  rewrite (Execute_first W _ noResult s None
             (mkSendResult (Some resp) None "" None) s1);
    [done|exact Hretries|].
  cbn [ExecutionHandler]. unfold sendHandler, createReq, newRequest.
  rewrite Hnew. cbn [CheckError]. unfold doRequest.
  fold (sentRequest W g d method url content s).
  cbn [clientDo]. rewrite Hrt. cbn [outErr outResp].
  rewrite bool_decide_eq_false_2 by (intros [? [=]]).
  cbn [andb sr_err sr_resp]. by rewrite shouldRetry_no_retry.
Qed.

Hypothesis Hclose : body_closeErr (resp_Body resp) = None.
Hypothesis Hnew : newRequestErr W "HEAD" url = None.
Hypothesis Hrt :
  roundTrip W (sentRequest W g d "HEAD" url None s) s = (RTFinal resp, s1).

Lemma SendHead_once fuel :
  SendHead W g jc (S fuel) url d "" s
  = Some (mkSendResult (Some resp) (Some (body_data (resp_Body resp))) "" None,
          s1).
Proof using Hretries Hlt Hne Hclose Hnew Hrt.
  unfold SendHead.
  by rewrite (Send_final W g jc Hretries fuel "HEAD" url None true true d ""
                s resp s1 Hnew Hrt Hlt Hne Hclose).
Qed.

End Exchange.

(** X10. When the HEAD request is answered by a status other than 200
    (and one that is not retried), [GetRemoteFileDetails] returns neither
    details nor the response, but an error whose message contains the
    status line. *)
Theorem remote_details_unexpected_status {St} (W : World St) (g : Globals)
    (jc : HttpClient St) (d : HttpClientDetails St) (downloadUrl : string)
    (resp : Response) (fuel : nat) (s s' : St) :
  0 <= retries jc ->
  newRequestErr W "HEAD" downloadUrl = None ->
  roundTrip W (sentRequest W g d "HEAD" downloadUrl None s) s
    = (RTFinal resp, s') ->
  resp_StatusCode resp < 500 -> resp_StatusCode resp <> 429 ->
  resp_StatusCode resp <> 200 ->
  body_closeErr (resp_Body resp) = None ->
  exists e,
    GetRemoteFileDetails W g jc (S fuel) downloadUrl d s
    = Some (Returned (None, None, Some e), s') /\
    Contains e (resp_Status resp) = true.
Proof.
  intros Hretries Hnew Hrt Hlt Hne H200 Hclose.
  unfold GetRemoteFileDetails.
  rewrite (SendHead_once W g jc d downloadUrl s s' resp Hretries Hlt Hne
             Hclose Hnew Hrt).
  unfold fileDetailsOf. cbn [sr_err sr_resp sr_respBody].
  unfold CheckResponseStatusWithBody, inCodes, StatusOK. cbn [existsb].
  destruct (Z.eqb_spec (resp_StatusCode resp) 200); [done|].
  cbn [orb CheckError]. eexists. split; [reflexivity|].
  apply GenerateResponseError_status.
Qed.

Lemma remote_details_unexpected_status_witness :
  exists e,
    GetRemoteFileDetails notFoundWorld (mkGlobals "") (plainClient nat 0) 1
      "http://a/file" (anonymous nat) 0%nat
    = Some (Returned (None, None, Some e), 1%nat).
Proof.
  destruct (remote_details_unexpected_status notFoundWorld (mkGlobals "")
              (plainClient nat 0) (anonymous nat) "http://a/file" resp404 0
              0%nat 1%nat) as (e & H & _);
    [cbn; lia|reflexivity|reflexivity|cbn; lia|cbn; lia|cbn; lia|reflexivity|].
  exists e. exact H.
Defined.




(** X12. [IsAcceptRanges] answers true exactly when the HEAD request is
    answered 200 and the first [Accept-Ranges] value is the string [bytes],
    letter for letter; with any other status it answers false, whatever the
    header says, and hands the response back without error. *)
Theorem accept_ranges_iff {St} (W : World St) (g : Globals)
    (jc : HttpClient St) (d : HttpClientDetails St) (downloadUrl : string)
    (resp : Response) (fuel : nat) (s s' : St) :
  0 <= retries jc ->
  newRequestErr W "HEAD" downloadUrl = None ->
  roundTrip W (sentRequest W g d "HEAD" downloadUrl None s) s
    = (RTFinal resp, s') ->
  resp_StatusCode resp < 500 -> resp_StatusCode resp <> 429 ->
  body_closeErr (resp_Body resp) = None ->
  exists b,
    IsAcceptRanges W g jc (S fuel) downloadUrl d s
    = Some (Returned (b, Some resp, None), s') /\
    (b = true <->
     resp_StatusCode resp = 200 /\
     Header_Get "Accept-Ranges" (resp_Header resp) = "bytes").
Proof.
  intros Hretries Hnew Hrt Hlt Hne Hclose. unfold IsAcceptRanges.
  rewrite (SendHead_once W g jc d downloadUrl s s' resp Hretries Hlt Hne
             Hclose Hnew Hrt).
  unfold acceptRangesOf, StatusOK. cbn [sr_err sr_resp CheckError].
  destruct (Z.eqb_spec (resp_StatusCode resp) 200) as [H200|H200]; cbn [negb].
  - eexists. split; [reflexivity|].
    destruct (String.eqb_spec (Header_Get "Accept-Ranges" (resp_Header resp))
                "bytes"); split; try done. by intros [_ ?].
  - exists false. split; [reflexivity|]. split; [done|]. by intros [? _].
Qed.

Lemma accept_ranges_iff_witness :
  IsAcceptRanges helloWorld (mkGlobals "") (plainClient nat 0) 1
    "http://a/file" (anonymous nat) 0%nat
  = Some (Returned (true, Some helloWorldResponse, None), 1%nat).
Proof.
  destruct (accept_ranges_iff helloWorld (mkGlobals "") (plainClient nat 0)
              (anonymous nat) "http://a/file" helloWorldResponse 0 0%nat
              1%nat) as (b & H & Hb);
    [cbn; lia|reflexivity|reflexivity|cbn; lia|cbn; lia|reflexivity|].
  rewrite H. assert (b = true) as -> by (apply Hb; split; reflexivity).
  reflexivity.
Defined.

(** X13. [ReadRemoteFile] hands out the open body only with a 200
    response: with any other status that is not retried it returns the
    response alone, without body and without error. An error of closing
    the body plays no part, since the body is left open. *)
Theorem read_remote_file_body {St} (W : World St) (g : Globals)
    (jc : HttpClient St) (d : HttpClientDetails St) (downloadPath : string)
    (resp : Response) (fuel : nat) (s s' : St) :
  0 <= retries jc ->
  newRequestErr W "GET" downloadPath = None ->
  roundTrip W (sentRequest W g d "GET" downloadPath None s) s
    = (RTFinal resp, s') ->
  resp_StatusCode resp < 500 -> resp_StatusCode resp <> 429 ->
  ReadRemoteFile W g jc (S fuel) downloadPath d s
  = Some (Returned
            (if resp_StatusCode resp =? 200 then Some (resp_Body resp)
             else None,
             Some resp, None),
          s').
Proof.
  intros Hretries Hnew Hrt Hlt Hne.
  unfold ReadRemoteFile, sendGetForFileDownload, sendGetLeaveBodyOpen.
  rewrite (Send_body_open W g jc d downloadPath s s' resp Hretries Hlt Hne
             fuel "GET" None true "" Hnew Hrt).
  unfold remoteFileOf, StatusOK. cbn [sr_err sr_resp].
  by destruct (resp_StatusCode resp =? 200).
Qed.

Lemma read_remote_file_body_witness :
  ReadRemoteFile notFoundWorld (mkGlobals "") (plainClient nat 0) 1
    "http://a/file" (anonymous nat) 0%nat
  = Some (Returned (None, Some resp404, None), 1%nat).
Proof.
  apply (read_remote_file_body notFoundWorld (mkGlobals "")
           (plainClient nat 0) (anonymous nat) "http://a/file" resp404 0
           0%nat 1%nat);
    [cbn; lia|reflexivity|reflexivity|cbn; lia|cbn; lia].
Defined.

(** ** Single-stream download *)

(** A run of [downloadFile] in which every attempt ends with an error
    that calls for a retry, and moves the counter [count] by [k]: all the
    attempts are made. *)
Lemma downloadFile_all_attempts {St} (W : World St) (g : Globals)
    (jc : HttpClient St) (D : Digests) (env : DownloadEnv St) (fuel : nat)
    (details : DownloadFileDetails) (prefix : string) (followRedirect : bool)
    (d : HttpClientDetails St) (isExplode : bool) (count : St -> nat)
    (k : nat) (s : St) :
  (forall ms s, count (sleep W ms s) = count s) ->
  (forall s0, exists r s1,
     doDownloadFile W g jc D env fuel details prefix followRedirect d
       isExplode s0 = Some (Returned r, s1) /\
     is_Some (dr_err r) /\
     (followRedirect = true \/ dr_redirectUrl r = "") /\
     count s1 = (count s0 + k)%nat) ->
  exists r s',
    downloadFile W g jc D env fuel details prefix followRedirect d isExplode s
    = Some (Returned r, s') /\
    is_Some (dr_err r) /\
    count s' = (count s + Z.to_nat (retries jc + 1) * k)%nat.
Proof.
  intros Hsleep Hattempt. unfold downloadFile, Execute.
  set (runner := mkRetryExecutor _ _ _ _ _ _).
  assert (Hh : forall h0 s0, exists e r s1,
            ExecutionHandler runner h0 s0
              = Some (true, Some e, Returned r, s1) /\
            count s1 = (count s0 + k)%nat).
  { intros h0 s0. subst runner. cbn [ExecutionHandler]. unfold downloadHandler.
    destruct (Hattempt s0) as (r & s1 & -> & [e He] & Hred & Hc).
    rewrite He. exists e, r, s1. split; [|exact Hc].
    destruct Hred as [->| ->]; [done|]. cbn. by rewrite andb_false_r. }
  destruct (retryLoop_total W runner (Z.to_nat (MaxRetries runner + 1)) None
              (Returned noDownload) s) as [[[err h] s'] Hrun].
  { intros h0 s0. destruct (Hh h0 s0) as (e & r & s1 & -> & _). by eexists. }
  rewrite Hrun.
  assert (Hc : count s'
               = (count s + Z.to_nat (MaxRetries runner + 1) * k)%nat).
  { apply (retryLoop_count_by W runner count k _ None (Returned noDownload) s
             err h s'); [done| |exact Hsleep|exact Hrun].
    intros h0 s0 again e0 h1 s1 Heq.
    destruct (Hh h0 s0) as (e & r & s2 & Heq' & Hc). rewrite Heq in Heq'.
    by simplify_eq. }
  assert (Hpost : is_Some err /\ exists r, h = Returned r).
  { apply (retryLoop_post W runner (fun h => exists r, h = Returned r)
             (fun err h => is_Some err /\ exists r, h = Returned r)
             (Z.to_nat (MaxRetries runner + 1)) None (Returned noDownload) s
             err h s'); [| |by eexists|exact Hrun].
    - intros h0 s0 again e0 h1 s1 Heq.
      destruct (Hh h0 s0) as (e & r & s2 & Heq' & _). rewrite Heq in Heq'.
      simplify_eq. split; [by eexists|done].
    - intros e0 h0 HP. split; [by eexists|exact HP]. }
  destruct Hpost as (Herr & r & ->). eexists _, s'. split; [reflexivity|].
  split; [exact Herr|]. subst runner. exact Hc.
Qed.

Section GetExchange.

Context {St : Type}.
Variable W : World St.
Variable g : Globals.
Variable jc : HttpClient St.
Variable D : Digests.
Variable env : DownloadEnv St.
Variable d : HttpClientDetails St.
Variable details : DownloadFileDetails.
Variable resp : Response.
Hypothesis Hretries : 0 <= retries jc.
Hypothesis Hlt : resp_StatusCode resp < 500.
Hypothesis Hne : resp_StatusCode resp <> 429.
Hypothesis Hnew : newRequestErr W "GET" (dfd_DownloadPath details) = None.

(** The exchange of one attempt of the download, answered by [resp]. *)
Lemma download_exchange fuel followRedirect s s1 :
  roundTrip W (sentRequest W g d "GET" (dfd_DownloadPath details) None s) s
    = (RTFinal resp, s1) ->
  sendGetForFileDownload W g jc (S fuel) (dfd_DownloadPath details)
    followRedirect d "" s
  = Some (mkSendResult (Some resp) None "" None, s1).
Proof using Hretries Hlt Hne Hnew.
  intros Hrt. unfold sendGetForFileDownload, sendGetLeaveBodyOpen.
  by apply Send_body_open.
Qed.

End GetExchange.

(** X14. A download that is answered by a status other than 200 and below
    500 hands the response back as a normal result: no error, no retry,
    and nothing of the file system or of the extractor is asked, whatever
    state they are in. *)
Theorem download_unexpected_status_returned {St} (W : World St) (g : Globals)
    (jc : HttpClient St) (D : Digests) (env : DownloadEnv St)
    (d : HttpClientDetails St) (details : DownloadFileDetails)
    (resp : Response) (prefix : string) (followRedirect isExplode : bool)
    (fuel : nat) (s s1 : St) :
  0 <= retries jc ->
  newRequestErr W "GET" (dfd_DownloadPath details) = None ->
  roundTrip W (sentRequest W g d "GET" (dfd_DownloadPath details) None s) s
    = (RTFinal resp, s1) ->
  resp_StatusCode resp < 500 -> resp_StatusCode resp <> 429 ->
  resp_StatusCode resp <> 200 ->
  body_closeErr (resp_Body resp) = None ->
  downloadFile W g jc D env (S fuel) details prefix followRedirect d
    isExplode s
  = Some (Returned (mkDownloadResult (Some resp) "" None), s1).
Proof.
  intros Hretries Hnew Hrt Hlt Hne H200 Hclose. unfold downloadFile.
  rewrite (Execute_first W _ (Returned noDownload) s None
             (Returned (mkDownloadResult (Some resp) "" None)) s1);
    [done|exact Hretries|].
  cbn [ExecutionHandler]. unfold downloadHandler, doDownloadFile.
  rewrite (download_exchange W g jc d details resp Hretries Hlt Hne Hnew fuel
             followRedirect s s1 Hrt).
  cbn [sr_err sr_resp sr_redirectUrl]. unfold StatusOK.
  destruct (Z.eqb_spec (resp_StatusCode resp) 200); [done|]. cbn [negb].
  rewrite Hclose. cbn [CheckError Join dr_err dr_resp].
  destruct (Z.ltb_spec (resp_StatusCode resp) 500); [done|lia].
Qed.

Lemma download_unexpected_status_returned_witness :
  downloadFile notFoundWorld (mkGlobals "") (plainClient nat 3) sampleDigests
    (mkDownloadEnv (fun _ => mkFileIO (Some "disk full") None None None)
       (fun _ => Some "not an archive"))
    1 sampleDownload "" true (anonymous nat) true 0%nat
  = Some (Returned (mkDownloadResult (Some resp404) "" None), 1%nat).
Proof.
  apply (download_unexpected_status_returned notFoundWorld (mkGlobals "")
           (plainClient nat 3) sampleDigests _ (anonymous nat) sampleDownload
           resp404 "" true true 0 0%nat 1%nat);
    [cbn; lia|reflexivity|reflexivity|cbn; lia|cbn; lia|cbn; lia|reflexivity].
Defined.

(** X15. A checksum mismatch is retried like any other error of the
    attempt: against a server that answers every GET with the same 200
    response, whose bytes do not have the expected SHA-1, [downloadFile]
    downloads the file [retries + 1] times and returns an error. *)
Theorem download_checksum_mismatch_retried {St} (W : World St) (g : Globals)
    (jc : HttpClient St) (D : Digests) (env : DownloadEnv St)
    (d : HttpClientDetails St) (details : DownloadFileDetails)
    (resp : Response) (prefix : string) (followRedirect isExplode : bool)
    (fuel : nat) (count : St -> nat) (s : St) :
  0 <= retries jc ->
  newRequestErr W "GET" (dfd_DownloadPath details) = None ->
  (forall ms s, count (sleep W ms s) = count s) ->
  (forall req s0, req_Method req = "GET" ->
     req_URL req = dfd_DownloadPath details ->
     exists s1, roundTrip W req s0 = (RTFinal resp, s1) /\
                count s1 = S (count s0)) ->
  resp_StatusCode resp = 200 ->
  body_readErr (resp_Body resp) = None ->
  (forall s0, saveIO env s0 = ioFine) ->
  dfd_ExpectedSha1 details <> "" ->
  dfd_SkipChecksum details = false ->
  hex.EncodeToString (sha1sum D (body_data (resp_Body resp)))
    <> dfd_ExpectedSha1 details ->
  exists r s',
    downloadFile W g jc D env (S fuel) details prefix followRedirect d
      isExplode s
    = Some (Returned r, s') /\
    is_Some (dr_err r) /\
    count s' = (count s + Z.to_nat (retries jc + 1))%nat.
Proof.
  intros Hretries Hnew Hsleep Hget Hst Hread Hio Hsha Hskip Hmis.
  destruct (downloadFile_all_attempts W g jc D env (S fuel) details prefix
              followRedirect d isExplode count 1 s Hsleep)
    as (r & s' & Hr & He & Hc).
  - intros s0.
    destruct (sentRequest_fields W g d "GET" (dfd_DownloadPath details) None s0
                ltac:(done)) as (Hm & Hu & _).
    destruct (Hget _ s0 Hm Hu) as (s1 & Hrt & Hc).
    unfold doDownloadFile.
    rewrite (download_exchange W g jc d details resp Hretries
               ltac:(lia) ltac:(lia) Hnew fuel followRedirect s0 s1 Hrt).
    cbn [sr_err sr_resp sr_redirectUrl]. rewrite Hst.
    change (200 =? StatusOK) with true. cbn [negb].
    unfold saveToFile. rewrite Hio. unfold ioFine, copyErr.
    cbn [io_pathErr io_createErr io_writeErr io_closeErr CheckError].
    rewrite (handleExpectedSha_sha1 _ (dfd_ExpectedSha256 details) Hsha).
    rewrite len_pos.
    destruct (String.eqb_spec (dfd_ExpectedSha1 details) "") as [|_]; [done|].
    rewrite Hskip, Hread. cbn [negb andb].
    change (hashWrite (body_data (resp_Body resp)) <$> Some (newHash SHA1))
      with (Some (mkHash SHA1 (body_data (resp_Body resp)))).
    destruct (validateChecksum_sha1 D (dfd_ExpectedSha1 details)
                (body_data (resp_Body resp)) (dfd_LocalFileName details))
      as (err & -> & Hiff).
    destruct err as [e|]; [|by destruct Hmis; apply Hiff].
    cbn [CheckError Join]. eexists _, s1. split; [reflexivity|].
    cbn [dr_err dr_redirectUrl]. split; [|split; [by right|lia]].
    destruct (body_closeErr (resp_Body resp)); by eexists.
  - exists r, s'. split; [exact Hr|]. split; [exact He|lia].
Qed.

Lemma download_checksum_mismatch_retried_witness :
  exists r,
    downloadFile helloWorld (mkGlobals "") (plainClient nat 2) sampleDigests
      (fineEnv nat) 1 wrongDownload "" true (anonymous nat) false 0%nat
    = Some (Returned r, 3%nat) /\
    is_Some (dr_err r).
Proof.
  destruct (download_checksum_mismatch_retried helloWorld (mkGlobals "")
              (plainClient nat 2) sampleDigests (fineEnv nat) (anonymous nat)
              wrongDownload helloWorldResponse "" true false 0 id 0%nat)
    as (r & s' & H & He & Hc).
  - cbn. lia.
  - reflexivity.
  - reflexivity.
  - intros req s0 _ _. exists (S s0). split; reflexivity.
  - reflexivity.
  - reflexivity.
  - reflexivity.
  - discriminate.
  - reflexivity.
  - vm_compute. discriminate.
  - exists r. unfold id in Hc. cbn in Hc. subst s'. split; [exact H|exact He].
Defined.

(** X17. The retries multiply: [downloadFile] wraps in its own retry loop
    an attempt that runs the retry loop of [Send]. Over a transport that
    always fails, and without a context, it reaches the transport
    [(retries + 1) * (retries + 1)] times before it returns the error. *)
Theorem download_retries_multiply {St} (W : World St) (g : Globals)
    (jc : HttpClient St) (D : Digests) (env : DownloadEnv St)
    (d : HttpClientDetails St) (details : DownloadFileDetails)
    (prefix : string) (followRedirect isExplode : bool) (fuel : nat)
    (count : St -> nat) (s : St) :
  ctx jc = None ->
  newRequestErr W "GET" (dfd_DownloadPath details) = None ->
  (forall ms s, count (sleep W ms s) = count s) ->
  (forall req s0, req_Method req = "GET" ->
     req_URL req = dfd_DownloadPath details ->
     exists e s1,
       roundTrip W req s0 = (RTError e, s1) /\
       count s1 = S (count s0) /\
       Contains (urlError (urlErrorOp "GET") (dfd_DownloadPath details) e)
         "unsupported protocol scheme" = false) ->
  exists r s',
    downloadFile W g jc D env (S fuel) details prefix followRedirect d
      isExplode s
    = Some (Returned r, s') /\
    is_Some (dr_err r) /\
    count s'
    = (count s + Z.to_nat (retries jc + 1) * Z.to_nat (retries jc + 1))%nat.
Proof.
  intros Hctx Hnew Hsleep Hfail.
  apply (downloadFile_all_attempts W g jc D env (S fuel) details prefix
           followRedirect d isExplode count (Z.to_nat (retries jc + 1)) s
           Hsleep).
  intros s0. unfold doDownloadFile, sendGetForFileDownload,
    sendGetLeaveBodyOpen.
  destruct (Send_failing W g jc count "GET" (dfd_DownloadPath details) Hctx
              ltac:(done) Hnew Hsleep Hfail fuel None followRedirect false d
              "" s0) as (e & s1 & -> & Hc).
  cbn [sr_err sr_resp sr_redirectUrl]. eexists _, s1. split; [reflexivity|].
  cbn [dr_err dr_redirectUrl]. split; [by eexists|]. split; [by right|exact Hc].
Qed.

Lemma download_retries_multiply_witness :
  exists r,
    downloadFile downWorld (mkGlobals "") (plainClient nat 2) sampleDigests
      (fineEnv nat) 1 sampleDownload "" true (anonymous nat) false 0%nat
    = Some (Returned r, 9%nat) /\
    is_Some (dr_err r).
Proof.
  destruct (download_retries_multiply downWorld (mkGlobals "")
              (plainClient nat 2) sampleDigests (fineEnv nat) (anonymous nat)
              sampleDownload "" true false 0 id 0%nat)
    as (r & s' & H & He & Hc).
  - reflexivity.
  - reflexivity.
  - reflexivity.
  - apply downWorld_fails. vm_compute. reflexivity.
  - exists r. unfold id in Hc. cbn in Hc. subst s'. split; [exact H|exact He].
Defined.

Section BlockedGet.

Context {St : Type}.
Variable W : World St.
Variable g : Globals.
Variable jc : HttpClient St.
Variable count : St -> nat.
Variables path B : string.
Hypothesis Hretries : 0 <= retries jc.
Hypothesis Hctx : ctx jc = None.
Hypothesis HB : B <> "".
Hypothesis Hnew : newRequestErr W "GET" path = None.
Hypothesis Hsleep : forall ms s, count (sleep W ms s) = count s.
Hypothesis Hmoved :
  forall req s, req_Method req = "GET" -> req_URL req = path ->
    exists resp loc next s1,
      roundTrip W req s = (RTRedirect resp loc next, s1) /\
      req_URL next = B /\
      count s1 = S (count s) /\
      Contains (urlError "Get" loc "redirect") "unsupported protocol scheme"
        = false.

Lemma sendHandler_moved SendPost fuel closeBody (d : HttpClientDetails St)
    prefix h s :
  exists e r s1,
    sendHandler W g jc SendPost (S fuel) "GET" path None false closeBody d
      prefix h s = Some (true, Some e, r, s1) /\
    sr_redirectUrl r = B /\ count s1 = (count s + 1)%nat.
Proof using HB Hnew Hmoved.
  destruct (sentRequest_fields W g d "GET" path None s ltac:(done))
    as (Hm & Hu & _).
  destruct (Hmoved (sentRequest W g d "GET" path None s) s Hm Hu)
    as (resp & loc & next & s1 & Hrt & Hnext & Hc & Hno).
  unfold sendHandler, createReq, newRequest. rewrite Hnew. cbn [CheckError].
  unfold doRequest. cbn [negb orb].
  fold (sentRequest W g d "GET" path None s).
  cbn [clientDo]. rewrite Hrt, Hm, Hnext. cbn [outErr outResp].
  rewrite bool_decide_eq_true_2 by (by eexists).
  destruct (String.eqb_spec B "") as [|_]; [done|]. cbn [andb negb sr_err].
  change (urlErrorOp "GET") with "Get". rewrite Hno.
  eexists _, _, s1. split; [reflexivity|]. split; [reflexivity|lia].
Qed.

(** [Send] retries the redirect it has blocked, and returns the target
    with an error. *)
Lemma Send_moved fuel closeBody (d : HttpClientDetails St) prefix s :
  exists r s',
    Send W g jc (S fuel) "GET" path None false closeBody d prefix s
    = Some (r, s') /\
    is_Some (sr_err r) /\ sr_redirectUrl r = B /\
    count s' = (count s + Z.to_nat (retries jc + 1))%nat.
Proof using Hretries Hctx HB Hnew Hsleep Hmoved.
  rewrite Send_unfold. unfold Execute.
  set (runner := mkRetryExecutor _ _ _ _ _ _).
  destruct (retryLoop_total W runner (Z.to_nat (MaxRetries runner + 1)) None
              noResult s) as [[[err h] s'] Hrun].
  { intros h0 s0. subst runner. cbn [ExecutionHandler].
    destruct (sendHandler_moved
                (fun url content details prefix s =>
                   Send W g jc fuel "POST" url content true true details
                     prefix s) fuel closeBody d prefix h0 s0)
      as (e & r & s1 & -> & _). by eexists. }
  rewrite Hrun. eexists _, s'. split; [reflexivity|].
  cbn [sr_err sr_redirectUrl].
  assert (Hc : count s' = (count s + Z.to_nat (MaxRetries runner + 1) * 1)%nat).
  { apply (retryLoop_count_by W runner count 1 _ None noResult s err h s');
      [subst runner; exact Hctx| |exact Hsleep|exact Hrun].
    intros h0 s0 again e0 h1 s1. subst runner. cbn [ExecutionHandler].
    destruct (sendHandler_moved
                (fun url content details prefix s =>
                   Send W g jc fuel "POST" url content true true details
                     prefix s) fuel closeBody d prefix h0 s0)
      as (e & r & s2 & -> & _ & Hc).
    intros [= <- _ _ <-]. done. }
  assert (Hpost : is_Some err /\ sr_redirectUrl h = B).
  { apply (retryLoop_post W runner (fun h => sr_redirectUrl h = B)
             (fun err h => is_Some err /\ sr_redirectUrl h = B)
             (Z.to_nat (MaxRetries runner + 1)) None noResult s err h s');
      [| |subst runner; cbn [MaxRetries]; lia|exact Hrun].
    - intros h0 s0 again e0 h1 s1. subst runner. cbn [ExecutionHandler].
      destruct (sendHandler_moved
                  (fun url content details prefix s =>
                     Send W g jc fuel "POST" url content true true details
                       prefix s) fuel closeBody d prefix h0 s0)
        as (e & r & s2 & -> & Hu & _).
      intros [= <- <- <- <-]. split; [done|]. intros [=].
    - intros e0 h0 HP. split; [by eexists|exact HP]. }
  destruct Hpost as [He Hu]. split; [exact He|]. split; [exact Hu|].
  subst runner. cbn [MaxRetries] in Hc. lia.
Qed.

End BlockedGet.

(** X16. A download that does not follow redirects and meets one returns
    the target of the redirect together with an error, and the retry loop
    of [downloadFile] makes no second attempt: the transport is reached
    only by the [retries + 1] attempts of the one call of [Send]. *)
Theorem download_no_redirect {St} (W : World St) (g : Globals)
    (jc : HttpClient St) (D : Digests) (env : DownloadEnv St)
    (d : HttpClientDetails St) (downloadPath localPath fileName B : string)
    (fuel : nat) (count : St -> nat) (s : St) :
  0 <= retries jc ->
  ctx jc = None ->
  B <> "" ->
  newRequestErr W "GET" downloadPath = None ->
  (forall ms s, count (sleep W ms s) = count s) ->
  (forall req s, req_Method req = "GET" -> req_URL req = downloadPath ->
     exists resp loc next s1,
       roundTrip W req s = (RTRedirect resp loc next, s1) /\
       req_URL next = B /\
       count s1 = S (count s) /\
       Contains (urlError "Get" loc "redirect") "unsupported protocol scheme"
         = false) ->
  exists r s',
    DownloadFileNoRedirect W g jc D env (S fuel) downloadPath localPath
      fileName d s
    = Some (Returned r, s') /\
    dr_redirectUrl r = B /\ is_Some (dr_err r) /\
    count s' = (count s + Z.to_nat (retries jc + 1))%nat.
Proof.
  intros Hretries Hctx HB Hnew Hsleep Hmoved.
  unfold DownloadFileNoRedirect, downloadFile.
  destruct (Send_moved W g jc count downloadPath B Hretries Hctx HB Hnew Hsleep
              Hmoved fuel false d "" s) as (r & s' & Hsend & [e He] & Hu & Hc).
  rewrite (Execute_first W _ (Returned noDownload) s (Some e)
             (Returned (mkDownloadResult (sr_resp r) B (Some e))) s');
    [|exact Hretries|].
  - eexists _, s'. split; [reflexivity|]. cbn [dr_redirectUrl dr_err].
    split; [done|]. split; [by eexists|exact Hc].
  - cbn [ExecutionHandler]. unfold downloadHandler, doDownloadFile,
      sendGetForFileDownload, sendGetLeaveBodyOpen.
    cbn [dfd_DownloadPath]. rewrite Hsend, He, Hu.
    cbn [dr_err dr_redirectUrl negb andb].
    by destruct (String.eqb_spec B "").
Qed.

Lemma download_no_redirect_witness :
  exists r,
    DownloadFileNoRedirect movedWorld (mkGlobals "") (plainClient nat 2)
      sampleDigests (fineEnv nat) 1 "http://a" "dir" "file" (anonymous nat)
      0%nat
    = Some (Returned r, 3%nat) /\
    dr_redirectUrl r = "http://b".
Proof.
  destruct (download_no_redirect movedWorld (mkGlobals "") (plainClient nat 2)
              sampleDigests (fineEnv nat) (anonymous nat) "http://a" "dir"
              "file" "http://b" 0 id 0%nat) as (r & s' & H & Hu & _ & Hc).
  - cbn. lia.
  - reflexivity.
  - discriminate.
  - reflexivity.
  - reflexivity.
  - intros req s0 _ _. eexists _, _, _, _. split; [reflexivity|].
    split; [reflexivity|]. split; [reflexivity|]. vm_compute. reflexivity.
  - exists r. unfold id in Hc. cbn in Hc. subst s'. split; [exact H|exact Hu].
Defined.

(** ** Checksums: what is verified and what is not *)

Lemma handleExpectedSha_hash expectedSha1 expectedSha256 :
  (0 <? len (handleExpectedSha expectedSha1 expectedSha256).1) = true ->
  is_Some (handleExpectedSha expectedSha1 expectedSha256).2.
Proof.
  unfold handleExpectedSha.
  destruct (0 <? len expectedSha1); [by eexists|].
  destruct (0 <? len expectedSha256); [by eexists|]. done.
Qed.

(** The loop returns when its indices stay within the list, and a hash
    that is there at the start is there at the end. *)
Lemma mergeLoop_returns chunks n i h :
  (i + n <= length chunks)%nat ->
  exists err h',
    mergeLoop chunks n i h = Returned (err, h') /\
    (is_Some h -> is_Some h').
Proof.
  revert i h. induction n as [|n IH]; intros i h Hlen; cbn [mergeLoop].
  - by eexists _, _.
  - destruct (lookup_lt_is_Some_2 chunks i) as [c ->]; [lia|].
    assert (Hw : is_Some h -> is_Some (hashWrite (cf_data c) <$> h))
      by (intros [x ->]; by eexists).
    destruct (CheckError (cf_openErr c)); [by eexists _, _|].
    destruct (CheckError (cf_copyErr c)); [by eexists _, _|].
    destruct (Join None (CheckError (cf_closeErr c))); [by eexists _, _|].
    destruct (IH (S i) (hashWrite (cf_data c) <$> h))
      as (err & h' & -> & Hh); [lia|].
    exists err, h'. split; [done|]. intros H. apply Hh, Hw, H.
Qed.

Lemma saveToFile_returns (D : Digests) (details : DownloadFileDetails)
    (resp : Response) (fio : FileIO) :
  exists v, saveToFile D details resp fio = Returned v.
Proof.
  unfold saveToFile. destruct (io_pathErr fio); [by eexists|].
  destruct (CheckError (io_createErr fio)); [by eexists|].
  pose proof (handleExpectedSha_hash (dfd_ExpectedSha1 details)
                (dfd_ExpectedSha256 details)) as Hh.
  destruct (handleExpectedSha _ _) as [expected actual]. cbn [fst snd] in Hh.
  destruct (0 <? len expected); cbn [andb]; [|by eexists].
  destruct (negb (dfd_SkipChecksum details)); [|by eexists].
  destruct (Hh eq_refl) as [h ->].
  destruct (CheckError (copyErr fio (resp_Body resp))); [by eexists|].
  unfold validateChecksum. cbn [fmap option_fmap option_map].
  destruct (negb _); by eexists.
Qed.

Lemma mergeChunks_returns (D : Digests) (chunks : list ChunkFile)
    (flags : ConcurrentDownloadFlags) (fio : FileIO) :
  (Z.to_nat (SplitCount flags) <= length chunks)%nat ->
  exists v, mergeChunks D chunks flags fio = Returned v.
Proof.
  intros Hcount. unfold mergeChunks.
  destruct (CheckError (io_createErr fio)); [by eexists|].
  pose proof (handleExpectedSha_hash (ExpectedSha1 flags)
                (ExpectedSha256 flags)) as Hh.
  destruct (handleExpectedSha _ _) as [expected actual]. cbn [fst snd] in Hh.
  destruct (mergeLoop_returns chunks (Z.to_nat (SplitCount flags)) 0 actual)
    as (err & actual' & -> & Hm); [lia|].
  destruct err; [by eexists|].
  destruct (0 <? len expected); cbn [andb]; [|by eexists].
  destruct (negb (SkipChecksum flags)); [|by eexists].
  destruct (Hm (Hh eq_refl)) as [h ->]. unfold validateChecksum.
  destruct (negb _); by eexists.
Qed.

(** X21. The verification is never reached with a nil hash: whatever the
    details, the response, the chunk files and the answers of the file
    system, [saveToFile] returns and does not panic, and so does
    [mergeChunks] whenever [chunksPaths] holds a path for each of the
    [SplitCount] chunks; an index past the end of [chunksPaths] is the one
    panic of the merge. *)
Theorem checksum_paths_never_panic (D : Digests)
    (details : DownloadFileDetails) (resp : Response)
    (chunks : list ChunkFile) (flags : ConcurrentDownloadFlags)
    (fio : FileIO) :
  (exists v, saveToFile D details resp fio = Returned v) /\
  ((Z.to_nat (SplitCount flags) <= length chunks)%nat ->
   exists v, mergeChunks D chunks flags fio = Returned v).
Proof.
  split; [apply saveToFile_returns|apply mergeChunks_returns].
Qed.

Lemma checksum_paths_never_panic_witness :
  exists v,
    mergeChunks sampleDigests
      [mkChunkFile None "he" None None; mkChunkFile None "llo" None None]
      (mkConcurrentDownloadFlags "file" "http://a/file" "file" "file"
         "dir" "6865" "" 5 2 false false false) ioFine
    = Returned v.
Proof.
  destruct (checksum_paths_never_panic sampleDigests sampleDownload
              helloResponse
              [mkChunkFile None "he" None None; mkChunkFile None "llo" None None]
              (mkConcurrentDownloadFlags "file" "http://a/file" "file" "file"
                 "dir" "6865" "" 5 2 false false false) ioFine) as [_ H].
  apply H. cbn. lia.
Defined.

(** X18. Nothing is verified when the caller asks to skip the checksum, or
    expects none: with a file system that works, the single-stream download
    and the merge, of one chunk file for each of the [SplitCount] chunks,
    return no error, whatever bytes they write and whatever digests are
    expected. *)
Theorem checksum_not_verified (D : Digests) (details : DownloadFileDetails)
    (resp : Response) (chunks : list ChunkFile)
    (flags : ConcurrentDownloadFlags) :
  (dfd_SkipChecksum details = true \/
   dfd_ExpectedSha1 details = "" /\ dfd_ExpectedSha256 details = "") ->
  (SkipChecksum flags = true \/
   ExpectedSha1 flags = "" /\ ExpectedSha256 flags = "") ->
  body_readErr (resp_Body resp) = None ->
  length chunks = Z.to_nat (SplitCount flags) ->
  Forall (fun c => cf_openErr c = None /\ cf_copyErr c = None /\
                   cf_closeErr c = None) chunks ->
  (exists h, saveToFile D details resp ioFine = Returned (None, h)) /\
  (exists h, mergeChunks D chunks flags ioFine = Returned (None, h)).
Proof.
  intros Hd Hf Hread Hcount Hchunks. split.
  - unfold saveToFile, ioFine, copyErr.
    cbn [io_pathErr io_createErr io_writeErr io_closeErr CheckError].
    rewrite Hread.
    destruct (handleExpectedSha _ _) as [expected actual] eqn:E.
    destruct Hd as [-> | [H1 H256]].
    + rewrite andb_false_r. by eexists.
    + rewrite H1, H256 in E. cbn in E. injection E as <- <-. cbn. by eexists.
  - unfold mergeChunks, ioFine.
    cbn [io_pathErr io_createErr io_writeErr io_closeErr CheckError].
    destruct (handleExpectedSha _ _) as [expected actual] eqn:E.
    rewrite <- Hcount, (mergeLoop_fine_from chunks _ 0 actual Hchunks eq_refl).
    destruct Hf as [Hskip | [H1 H256]].
    + rewrite Hskip, andb_false_r. by eexists.
    + rewrite H1, H256 in E. cbn in E. injection E as <- <-. cbn. by eexists.
Qed.

Lemma checksum_not_verified_witness :
  exists h,
    saveToFile sampleDigests
      (mkDownloadFileDetails "file" "http://a/file" "file" "dir" "file"
         "0000" "" 12 true) helloResponse ioFine
    = Returned (None, h).
Proof.
  destruct (checksum_not_verified sampleDigests
              (mkDownloadFileDetails "file" "http://a/file" "file" "dir" "file"
                 "0000" "" 12 true) helloResponse
              [mkChunkFile None "he" None None]
              (mkConcurrentDownloadFlags "file" "http://a/file" "file" "file"
                 "dir" "0000" "" 2 1 false false true)) as [H _].
  - by left.
  - by left.
  - reflexivity.
  - reflexivity.
  - repeat constructor.
  - exact H.
Defined.

(** The verification against a SHA-256 hash that has been fed [data]. *)
Lemma validateChecksum_sha256 D expectedSha data fileName :
  exists err,
    validateChecksum D expectedSha (Some (mkHash SHA256 data)) fileName
      = Returned err /\
    (err = None <-> hex.EncodeToString (sha256sum D data) = expectedSha).
Proof.
  unfold validateChecksum, hashSum. cbn [hash_alg hash_written].
  destruct (String.eqb_spec (hex.EncodeToString (sha256sum D data)) expectedSha)
    as [Heq|Hneq]; cbn [negb].
  - exists None. done.
  - eexists. split; [reflexivity|]. split; [discriminate|done].
Qed.

(** X19. Without an expected SHA-1, an expected SHA-256 is what is
    verified: the single-stream download and the merge, of one chunk file
    for each of the [SplitCount] chunks, feed the bytes they write to a
    SHA-256 hash and return no error exactly when its hexadecimal form is
    the expected string. *)
Theorem sha256_verified_without_sha1 (D : Digests) (expectedSha256 : string)
    (details : DownloadFileDetails) (resp : Response)
    (flags : ConcurrentDownloadFlags) (chunks : list ChunkFile) :
  expectedSha256 <> "" ->
  dfd_ExpectedSha1 details = "" ->
  dfd_ExpectedSha256 details = expectedSha256 ->
  dfd_SkipChecksum details = false ->
  body_readErr (resp_Body resp) = None ->
  ExpectedSha1 flags = "" ->
  ExpectedSha256 flags = expectedSha256 ->
  SkipChecksum flags = false ->
  length chunks = Z.to_nat (SplitCount flags) ->
  Forall (fun c => cf_openErr c = None /\ cf_copyErr c = None /\
                   cf_closeErr c = None) chunks ->
  (exists err,
     saveToFile D details resp ioFine
       = Returned (err, Some (mkHash SHA256 (body_data (resp_Body resp)))) /\
     (err = None <->
      hex.EncodeToString (sha256sum D (body_data (resp_Body resp)))
        = expectedSha256)) /\
  (exists err,
     mergeChunks D chunks flags ioFine
       = Returned (err, Some (mkHash SHA256 (chunkData chunks))) /\
     (err = None <->
      hex.EncodeToString (sha256sum D (chunkData chunks)) = expectedSha256)).
Proof.
  intros Hne Hd1 Hd256 Hskip Hread Hf1 Hf256 Hfskip Hcount Hchunks.
  pose proof (handleExpectedSha_sha256 expectedSha256 Hne) as Hh.
  assert (Hlen : (0 <? len expectedSha256) = true).
  { rewrite len_pos. by destruct (String.eqb_spec expectedSha256 ""). }
  split.
  - unfold saveToFile, ioFine, copyErr.
    cbn [io_pathErr io_createErr io_writeErr io_closeErr CheckError].
    rewrite Hd1, Hd256, Hh, Hlen, Hskip, Hread. cbn [andb negb].
    change (hashWrite (body_data (resp_Body resp)) <$> Some (newHash SHA256))
      with (Some (mkHash SHA256 (body_data (resp_Body resp)))).
    destruct (validateChecksum_sha256 D expectedSha256
                (body_data (resp_Body resp)) (dfd_LocalFileName details))
      as (err & -> & Hiff).
    exists err. split; [by destruct err|exact Hiff].
  - unfold mergeChunks, ioFine.
    cbn [io_pathErr io_createErr io_writeErr io_closeErr CheckError].
    rewrite Hf1, Hf256, Hh, <- Hcount.
    rewrite (mergeLoop_fine chunks (newHash SHA256) Hchunks).
    rewrite Hlen, Hfskip. cbn [andb negb newHash hash_alg hash_written].
    change ("" +:+ chunkData chunks) with (chunkData chunks).
    destruct (validateChecksum_sha256 D expectedSha256 (chunkData chunks)
                (LocalFileName flags)) as (err & -> & Hiff).
    exists err. split; [by destruct err|exact Hiff].
Qed.

Lemma sha256_verified_without_sha1_witness :
  exists err,
    saveToFile sampleDigests
      (mkDownloadFileDetails "file" "http://a/file" "file" "dir" "file"
         "" "68656c6c" 12 false) helloResponse ioFine
    = Returned (err, Some (mkHash SHA256 "hello")) /\
    err = None.
Proof.
  destruct (sha256_verified_without_sha1 sampleDigests "68656c6c"
              (mkDownloadFileDetails "file" "http://a/file" "file" "dir" "file"
                 "" "68656c6c" 12 false) helloResponse
              (mkConcurrentDownloadFlags "file" "http://a/file" "file" "file"
                 "dir" "" "68656c6c" 5 1 false false false)
              [mkChunkFile None "hello" None None])
    as [(err & H & Hiff) _].
  - discriminate.
  - reflexivity.
  - reflexivity.
  - reflexivity.
  - reflexivity.
  - reflexivity.
  - reflexivity.
  - reflexivity.
  - reflexivity.
  - repeat constructor.
  - exists err. split; [exact H|]. apply Hiff. reflexivity.
Defined.

(** ** The merge *)

Lemma mergeLoop_failing pre c n i h :
  Forall (fun c => cf_openErr c = None /\ cf_copyErr c = None /\
                   cf_closeErr c = None) pre ->
  is_Some (cf_openErr c) \/ is_Some (cf_copyErr c) \/
    is_Some (cf_closeErr c) ->
  (i <= length pre < i + n)%nat ->
  exists e h', forall post,
    mergeLoop (pre ++ c :: post) n i h = Returned (Some e, h').
Proof.
  intros Hpre Hc. revert i h.
  induction n as [|n IH]; intros i h Hi; [lia|].
  destruct (decide (i = length pre)) as [->|Hne].
  - assert (Hat : forall post, (pre ++ c :: post) !! length pre = Some c)
      by (intros post; by apply list_lookup_middle).
    unfold CheckError in *.
    destruct (cf_openErr c) as [e|] eqn:Ho.
    { exists e, h. intros post. cbn [mergeLoop]. by rewrite Hat, Ho. }
    destruct (cf_copyErr c) as [e|] eqn:Hp.
    { destruct (cf_closeErr c) as [x|] eqn:Hx.
      - exists (e +:+ newline +:+ x), (hashWrite (cf_data c) <$> h).
        intros post. cbn [mergeLoop]. by rewrite Hat, Ho, Hp, Hx.
      - exists e, (hashWrite (cf_data c) <$> h).
        intros post. cbn [mergeLoop]. by rewrite Hat, Ho, Hp, Hx. }
    destruct (cf_closeErr c) as [e|] eqn:Hx.
    { exists e, (hashWrite (cf_data c) <$> h). intros post. cbn [mergeLoop].
      by rewrite Hat, Ho, Hp, Hx. }
    destruct Hc as [[? [=]]|[[? [=]]|[? [=]]]].
  - destruct (lookup_lt_is_Some_2 pre i) as [p Hp]; [lia|].
    destruct (proj1 (Forall_lookup _ _) Hpre i p Hp) as (Ho & Hq & Hx).
    destruct (IH (S i) (hashWrite (cf_data p) <$> h)) as (e & h' & Hrun);
      [lia|].
    exists e, h'. intros post. cbn [mergeLoop].
    rewrite lookup_app_l, Hp by lia. rewrite Ho, Hq, Hx.
    cbn [CheckError Join]. apply Hrun.
Qed.

(** X20. The merge stops at the first chunk file that fails, on opening,
    copying or closing, and returns an error: when the files of the chunks
    before chunk [i] are merged without error and the file of chunk [i],
    [i] below [SplitCount], fails, the paths after it are not read, and no
    digest is computed: the result is the same whatever the rest of
    [chunksPaths] holds and whatever the digest functions are. *)
Theorem merge_stops_at_failing_chunk (pre : list ChunkFile)
    (c : ChunkFile) (flags : ConcurrentDownloadFlags) (fio : FileIO) :
  io_createErr fio = None ->
  Forall (fun c => cf_openErr c = None /\ cf_copyErr c = None /\
                   cf_closeErr c = None) pre ->
  is_Some (cf_openErr c) \/ is_Some (cf_copyErr c) \/
    is_Some (cf_closeErr c) ->
  (length pre < Z.to_nat (SplitCount flags))%nat ->
  exists e h, forall D post,
    mergeChunks D (pre ++ c :: post) flags fio = Returned (Some e, h).
Proof.
  intros Hcreate Hpre Hc Hcount. unfold mergeChunks. rewrite Hcreate.
  cbn [CheckError].
  destruct (handleExpectedSha _ _) as [expected actual].
  destruct (mergeLoop_failing pre c (Z.to_nat (SplitCount flags)) 0 actual
              Hpre Hc) as (e & h' & Hrun); [lia|].
  destruct (io_closeErr fio) as [x|].
  - exists (e +:+ newline +:+ x), h'. intros D post. by rewrite Hrun.
  - exists e, h'. intros D post. by rewrite Hrun.
Qed.

Lemma merge_stops_at_failing_chunk_witness :
  exists e h, forall D post,
    mergeChunks D
      ([mkChunkFile None "he" None None]
         ++ mkChunkFile (Some "no such file") "" None None :: post)
      (mkConcurrentDownloadFlags "file" "http://a/file" "file" "file"
         "dir" "6865" "" 5 3 false false false) ioFine
    = Returned (Some e, h).
Proof.
  apply merge_stops_at_failing_chunk.
  - reflexivity.
  - repeat constructor.
  - left. eexists. reflexivity.
  - cbn. lia.
Defined.

(** ** Splitting a file and putting it together again *)

Lemma substring_zero a s : String.substring a 0 s = "".
Proof.
  revert a. induction s as [|c s IH]; intros [|a]; cbn; auto.
Qed.

Lemma substring_split a m k s :
  String.substring a (m + k) s
  = String.substring a m s +:+ String.substring (a + m) k s.
Proof.
  revert a m. induction s as [|c s IH]; intros a m.
  - destruct a, m, k; reflexivity.
  - destruct a as [|a].
    + destruct m as [|m]; [reflexivity|]. cbn [Nat.add String.substring].
      change (String c (String.substring 0 m s) +:+ String.substring m k s)
        with (String c (String.substring 0 m s +:+ String.substring m k s)).
      f_equal. apply (IH 0%nat m).
    + cbn [Nat.add String.substring]. apply IH.
Qed.

Lemma substring_all s : String.substring 0 (String.length s) s = s.
Proof.
  induction s as [|c s IH]; [reflexivity|]. cbn. by rewrite IH.
Qed.

Section Reassembly.

Variable content : string.
Variable N : Z.
Hypothesis HN : 1 <= N <= Int64.max_int.
Hypothesis Hsize : len content <= Int64.max_int.

(** The bytes of the chunk files of the chunks dispatched from index [i]
    on. *)
Lemma dispatchLoop_data n i :
  0 <= i -> i + Z.of_nat n <= N ->
  chunkData
    (map (chunkFileOf content)
       (dispatchLoop (fun _ => false) (len content) N n i))
  = match n with
    | O => ""
    | S _ =>
        byteRange content (len content / N * i)
          (specBounds (len content) N (i + Z.of_nat n - 1)).2
    end.
Proof using HN Hsize.
  assert (Hlen : 0 <= len content) by (unfold len; lia).
  assert (Hq : 0 <= len content / N) by (apply Z.div_pos; lia).
  revert i. induction n as [|n IH]; intros i Hi Hn; [reflexivity|].
  cbn [dispatchLoop]. rewrite andb_false_r.
  rewrite (chunkBounds_spec (len content) N) by lia.
  unfold specBounds at 1. cbn [map chunkData foldr].
  fold (chunkData (map (chunkFileOf content)
          (dispatchLoop (fun _ => false) (len content) N n (i + 1)))).
  rewrite IH by lia. unfold chunkFileOf at 1.
  cbn [cf_data chunk_start chunk_end].
  destruct n as [|n].
  - rewrite append_nil_r. unfold specBounds. cbn [snd].
    replace (i + Z.of_nat 1 - 1) with i by lia. reflexivity.
  - destruct (i =? N - 1) eqn:E; [lia|]. rewrite Z.add_0_r.
    unfold byteRange, specBounds. cbn [snd].
    set (q := len content / N) in *.
    set (extra := if i + 1 + Z.of_nat (S n) - 1 =? N - 1
                  then len content mod N else 0).
    assert (Hextra : 0 <= extra).
    { subst extra.
      destruct (Z.eqb_spec (i + 1 + Z.of_nat (S n) - 1) (N - 1)); [|lia].
      apply Z.mod_pos_bound. lia. }
    replace (i + Z.of_nat (S (S n)) - 1) with (i + 1 + Z.of_nat (S n) - 1)
      by lia.
    fold extra.
    replace (Z.to_nat (q * (i + 1 + Z.of_nat (S n) - 1 + 1) + extra - q * i))
      with (Z.to_nat (q * (i + 1) - q * i)
            + Z.to_nat (q * (i + 1 + Z.of_nat (S n) - 1 + 1) + extra
                        - q * (i + 1)))%nat by nia.
    rewrite substring_split. f_equal. f_equal. nia.
Qed.

Lemma dispatchChunks_data :
  chunkData
    (map (chunkFileOf content)
       (dispatchLoop (fun _ => false) (len content) N (Z.to_nat N) 0))
  = content.
Proof using HN Hsize.
  rewrite dispatchLoop_data by lia.
  destruct (Z.to_nat N) as [|n] eqn:En; [lia|].
  unfold byteRange, specBounds. cbn [snd].
  replace (0 + Z.of_nat (S n) - 1 =? N - 1) with true
    by (symmetry; apply Z.eqb_eq; lia).
  replace (0 + Z.of_nat (S n) - 1 + 1) with N by lia.
  rewrite Z.mul_0_r, Z.sub_0_r. cbn [Z.to_nat].
  replace (len content / N * N + len content mod N) with (len content)
    by (rewrite (Z.div_mod (len content) N) at 1; lia).
  unfold len. rewrite Nat2Z.id. apply substring_all.
Qed.

End Reassembly.

(** X22. Splitting and merging are inverse to each other: when every
    chunk is dispatched and each chunk file holds the bytes of the range of
    its chunk, the bytes the merge writes, in index order, are the bytes of
    the file, whatever the number of chunks; and with an expected SHA-1 the
    merge returns no error exactly when the digest of the whole file, in
    hexadecimal, is the expected one. *)
Theorem split_then_merge (D : Digests) (content : string)
    (flags : ConcurrentDownloadFlags) :
  1 <= SplitCount flags <= Int64.max_int ->
  FileSize flags = len content ->
  len content <= Int64.max_int ->
  ExpectedSha1 flags <> "" ->
  SkipChecksum flags = false ->
  exists chunks err,
    dispatchChunks (fun _ => false) (FileSize flags) (SplitCount flags)
      = Returned chunks /\
    chunkData (map (chunkFileOf content) chunks) = content /\
    mergeChunks D (map (chunkFileOf content) chunks) flags ioFine
      = Returned (err, Some (mkHash SHA1 content)) /\
    (err = None <->
     hex.EncodeToString (sha1sum D content) = ExpectedSha1 flags).
Proof.
  intros HN Hfs Hsize Hsha Hskip. unfold dispatchChunks. rewrite Hfs.
  destruct (SplitCount flags <? 0) eqn:E1; [lia|].
  destruct (SplitCount flags =? 0) eqn:E2; [lia|].
  set (chunks := dispatchLoop _ _ _ _ _).
  assert (Hdata : chunkData (map (chunkFileOf content) chunks) = content)
    by (by apply dispatchChunks_data).
  assert (Hfine : Forall (fun c => cf_openErr c = None /\ cf_copyErr c = None /\
                                   cf_closeErr c = None)
                    (map (chunkFileOf content) chunks)).
  { generalize chunks. intros l. induction l; constructor; done. }
  destruct (validateChecksum_sha1 D (ExpectedSha1 flags) content
              (LocalFileName flags)) as (err & Hv & Hiff).
  exists chunks, err. split; [reflexivity|]. split; [exact Hdata|].
  split; [|exact Hiff].
  unfold mergeChunks, ioFine.
  cbn [io_pathErr io_createErr io_writeErr io_closeErr CheckError].
  rewrite (handleExpectedSha_sha1 _ _ Hsha).
  replace (Z.to_nat (SplitCount flags))
    with (length (map (chunkFileOf content) chunks))
    by (subst chunks; rewrite length_map;
        by apply dispatchLoop_never_length).
  rewrite (mergeLoop_fine _ (newHash SHA1) Hfine), Hdata.
  rewrite len_pos, Hskip.
  destruct (String.eqb_spec (ExpectedSha1 flags) ""); [done|].
  cbn [andb negb newHash hash_alg hash_written].
  change ("" +:+ content) with content. rewrite Hv. by destruct err.
Qed.

Lemma split_then_merge_witness :
  exists chunks,
    dispatchChunks (fun _ => false) 5 3 = Returned chunks /\
    chunkData (map (chunkFileOf "hello") chunks) = "hello".
Proof.
  destruct (split_then_merge sampleDigests "hello"
              (mkConcurrentDownloadFlags "file" "http://a/file" "file" "file"
                 "dir" "6865" "" 5 3 false false false))
    as (chunks & err & Hd & Hdata & _).
  - vm_compute. split; discriminate.
  - reflexivity.
  - vm_compute. discriminate.
  - discriminate.
  - reflexivity.
  - exists chunks. split; [exact Hd|exact Hdata].
Defined.

(** ** Edges of the partition *)

(** X24. A file smaller than the number of chunks: every chunk starts at
    offset 0; every chunk but the last is empty, and the range its worker
    asks for is [bytes=0--1]; the last chunk is the whole file. *)
Theorem small_file_chunks (stop : Z -> bool) (fileSize N : Z)
    (chunks : list Chunk) (k : nat) (c : Chunk) :
  1 <= N <= Int64.max_int ->
  0 <= fileSize < N ->
  dispatchChunks stop fileSize N = Returned chunks ->
  chunks !! k = Some c ->
  chunk_start c = 0 /\
  (chunk_index c < N - 1 ->
   chunk_end c = 0 /\
   rangeHeader (chunk_start c) (chunk_end c) = "bytes=0--1") /\
  (chunk_index c = N - 1 -> chunk_end c = fileSize).
Proof.
  intros HN Hsize. unfold dispatchChunks.
  destruct (N <? 0) eqn:E1; [lia|]. destruct (N =? 0) eqn:E2; [lia|].
  intros [= <-] Hk.
  assert (Hmax : 0 <= fileSize <= Int64.max_int) by lia.
  apply (dispatchLoop_lookup fileSize N HN Hmax) in Hk as (Hi & Hb & Hlt);
    [|lia|lia].
  unfold specBounds in Hb. rewrite Z.div_small, Z.mod_small in Hb by lia.
  rewrite !Z.mul_0_l, Z.add_0_l in Hb. injection Hb as Hs He.
  rewrite <- Hi in He. split; [exact Hs|]. split.
  - intros Hlast. destruct (Z.eqb_spec (chunk_index c) (N - 1)); [lia|].
    rewrite Hs, He. done.
  - intros Hlast. destruct (Z.eqb_spec (chunk_index c) (N - 1)); [|lia].
    exact He.
Qed.

Lemma small_file_chunks_witness :
  chunk_start (mkChunk 0 0 0) = 0 /\
  (chunk_index (mkChunk 0 0 0) < 3 - 1 ->
   chunk_end (mkChunk 0 0 0) = 0 /\
   rangeHeader (chunk_start (mkChunk 0 0 0)) (chunk_end (mkChunk 0 0 0))
     = "bytes=0--1") /\
  (chunk_index (mkChunk 0 0 0) = 3 - 1 -> chunk_end (mkChunk 0 0 0) = 2).
Proof.
  apply (small_file_chunks (fun _ => false) 2 3
           [mkChunk 0 0 0; mkChunk 1 0 0; mkChunk 2 0 2] 0 (mkChunk 0 0 0)).
  - vm_compute. split; discriminate.
  - lia.
  - reflexivity.
  - reflexivity.
Defined.

(** ** What the concurrent download returns *)

Lemma firstUnexpected_filled respList :
  (forall i, (i < length respList)%nat ->
     exists r, respList !! i = Some (Some r)) ->
  exists o, firstUnexpected respList = Returned o.
Proof.
  induction respList as [|o l IH]; intros H; [by eexists|].
  destruct (H 0%nat ltac:(cbn; lia)) as (r & Hr). cbn in Hr.
  injection Hr as ->. cbn [firstUnexpected].
  destruct (negb _); [by eexists|]. apply IH.
  intros i Hi. apply (H (S i)). cbn. lia.
Qed.

(** After the wait the join returns, and returns a response or an error,
    never both and never neither. *)
Lemma joinChunks_returns k errorsList respList :
  afterWait k errorsList respList ->
  exists resp err,
    joinChunks errorsList respList = Returned (resp, err) /\
    (resp = None /\ is_Some err \/ is_Some resp /\ err = None).
Proof.
  intros (Hlen & Hk & Hfill & Hrest & Hearly). unfold joinChunks.
  destruct (firstError errorsList) as [e|] eqn:E.
  { exists None, (Some e). split; [done|]. left. split; [done|by eexists]. }
  pose proof (proj1 (firstError_None errorsList) E) as Hnoerr.
  assert (Hsome : forall i, (i < k)%nat ->
            exists r, respList !! i = Some (Some r)).
  { intros i Hi.
    destruct (lookup_lt_is_Some_2 errorsList i) as [e He]; [lia|].
    destruct (lookup_lt_is_Some_2 respList i) as [r Hr]; [lia|].
    destruct (Hfill i e r Hi He Hr) as [[x ->]|[x ->]].
    - by specialize (Hnoerr _ _ He).
    - by exists x. }
  destruct (Nat.lt_ge_cases k (length errorsList)) as [Hlt|Hge].
  - destruct (Hearly Hlt) as (j & Hj & [[e He]|(r & Hr & Hs)]).
    { by specialize (Hnoerr _ _ He). }
    destruct (firstUnexpected_found respList j r Hr Hs)
      as (j' & r' & _ & _ & _ & ->).
    { intros m Hm. apply Hsome. lia. }
    exists (Some r'), None. split; [done|]. right. split; [by eexists|done].
  - destruct (firstUnexpected_filled respList) as [o ->].
    { intros i Hi. apply Hsome. lia. }
    destruct o as [r|].
    + exists (Some r), None. split; [done|]. right. split; [by eexists|done].
    + destruct (Hsome (pred (length respList)) ltac:(lia)) as [r Hr].
      rewrite <- last_lookup in Hr. rewrite Hr.
      exists (Some r), None. split; [done|]. right. split; [by eexists|done].
Qed.

Lemma chunksPathsAfter_length stop worker flags :
  1 <= SplitCount flags ->
  length (chunksPathsAfter stop worker flags) = Z.to_nat (SplitCount flags).
Proof.
  intros HN. unfold chunksPathsAfter, dispatchChunks, pathSlots.
  destruct (SplitCount flags <? 0) eqn:E1; [lia|].
  destruct (SplitCount flags =? 0) eqn:E2; [lia|].
  destruct (dispatchLoop_shape stop (FileSize flags) (SplitCount flags)
              (Z.to_nat (SplitCount flags)) 0 ltac:(lia)) as (Hle & _).
  rewrite length_app, length_replicate, length_map. lia.
Qed.

Lemma mergeAfterJoin_returns D env chunksPaths flags :
  (Z.to_nat (SplitCount flags) <= length chunksPaths)%nat ->
  exists err, mergeAfterJoin D env chunksPaths flags = Returned err.
Proof.
  intros Hcount. unfold mergeAfterJoin.
  destruct (if negb (String.eqb (LocalPath flags) "")
            then CheckError (ce_mkdirErr env) else None); [by eexists|].
  destruct (if ce_pathExists env then CheckError (ce_removeErr env) else None);
    [by eexists|].
  destruct (mergeChunks_returns D (map (ce_openChunk env) chunksPaths)
              (if negb (String.eqb (LocalPath flags) "")
               then setLocalFileName (ce_joinedName env) flags else flags)
              (ce_mergeIO env)) as [[err h] ->].
  { rewrite length_map. by destruct (negb _). }
  destruct err; [by eexists|]. destruct (Explode _); by eexists.
Qed.

(** X25. With a positive number of chunks, workers that each return a
    response or an error, and a dispatcher that leaves its loop early only
    upon a failure of a worker it has started, the concurrent download
    never panics: [downloadChunksConcurrently] returns a response or an
    error, never both and never neither, and [DownloadFileConcurrently]
    returns, whatever the file system answers. *)
Theorem concurrent_download_returns (D : Digests) (env : ConcurrentEnv)
    (stop : Z -> bool) (worker : Chunk -> RangeResult)
    (flags : ConcurrentDownloadFlags) :
  1 <= SplitCount flags ->
  (forall c, is_Some (rr_err (worker c)) \/ is_Some (rr_resp (worker c))) ->
  (forall i, 0 < i -> stop i = true ->
     exists j, 0 <= j < i /\
       rangeFailed (worker (chunkAt (FileSize flags) (SplitCount flags) j))) ->
  (exists resp err,
     downloadChunksConcurrently stop worker flags = Returned (resp, err) /\
     (resp = None /\ is_Some err \/ is_Some resp /\ err = None)) /\
  (exists v, DownloadFileConcurrently D env stop worker flags = Returned v).
Proof.
  intros HN Hfilled Hstop.
  destruct (downloadChunksConcurrently_afterWait stop worker flags HN Hfilled
              Hstop) as (k & errorsList & respList & Hwait & Hjoin).
  destruct (joinChunks_returns k errorsList respList Hwait)
    as (resp & err & Hret & Hone).
  rewrite <- Hjoin in Hret. split; [by exists resp, err|].
  unfold DownloadFileConcurrently. destruct (ce_tempDirErr env); [by eexists|].
  rewrite Hret.
  destruct Hone as [[-> [e ->]]|[[r ->] ->]]; [by eexists|].
  destruct (negb _); [by eexists|].
  destruct (mergeAfterJoin_returns D env (chunksPathsAfter stop worker flags)
              flags) as [e ->]; [|by eexists].
  by rewrite chunksPathsAfter_length.
Qed.

Lemma concurrent_download_returns_witness :
  exists resp err,
    downloadChunksConcurrently (fun _ => false)
      (fun _ => mkRangeResult "chunk" (Some resp206) None)
      (mkConcurrentDownloadFlags "file" "http://a/file" "file" "file"
         "dir" "" "" 5 3 false false false)
    = Returned (resp, err) /\
    (resp = None /\ is_Some err \/ is_Some resp /\ err = None).
Proof.
  destruct (concurrent_download_returns sampleDigests
              (mkConcurrentEnv None None None false None "dir/file" ioFine
                 (fun _ => mkChunkFile None "" None None) None)
              (fun _ => false)
              (fun _ => mkRangeResult "chunk" (Some resp206) None)
              (mkConcurrentDownloadFlags "file" "http://a/file" "file" "file"
                 "dir" "" "" 5 3 false false false)) as [H _].
  - cbn. lia.
  - intros c. right. eexists. reflexivity.
  - intros i _ Hi. discriminate Hi.
  - exact H.
Defined.

(** X26. A split count that is not positive makes the concurrent download
    panic once the temporary directory has been created: the arrays cannot
    be made with a negative length, and the chunk size is a division by
    the split count. *)
Theorem nonpositive_split_count_panics (D : Digests) (env : ConcurrentEnv)
    (stop : Z -> bool) (worker : Chunk -> RangeResult)
    (flags : ConcurrentDownloadFlags) :
  SplitCount flags <= 0 ->
  ce_tempDirErr env = None ->
  exists reason,
    DownloadFileConcurrently D env stop worker flags = Panic reason.
Proof.
  intros HN Htemp.
  unfold DownloadFileConcurrently, downloadChunksConcurrently, dispatchChunks.
  rewrite Htemp.
  destruct (Z.ltb_spec (SplitCount flags) 0); [by eexists|].
  destruct (Z.eqb_spec (SplitCount flags) 0); [by eexists|]. lia.
Qed.

Lemma nonpositive_split_count_panics_witness :
  exists reason,
    DownloadFileConcurrently sampleDigests
      (mkConcurrentEnv None None None false None "dir/file" ioFine
         (fun _ => mkChunkFile None "" None None) None)
      (fun _ => false)
      (fun _ => mkRangeResult "chunk" (Some resp206) None)
      (mkConcurrentDownloadFlags "file" "http://a/file" "file" "file"
         "dir" "" "" 5 0 false false false)
    = Panic reason.
Proof.
  apply nonpositive_split_count_panics.
  - cbn. lia.
  - reflexivity.
Defined.

(** ** The chunk worker *)

Lemma lastValue_unique name entries v :
  (forall k v', (k, v') ∈ entries ->
     textproto.CanonicalMIMEHeaderKey k = name -> v' = v) ->
  (exists k, (k, v) ∈ entries /\ textproto.CanonicalMIMEHeaderKey k = name) ->
  lastValue name entries = Some v.
Proof.
  induction entries as [|[k0 v0] entries IH] using rev_ind;
    intros Hall (k & Hin & Hk).
  - by apply elem_of_nil in Hin.
  - rewrite lastValue_snoc.
    destruct (decide (textproto.CanonicalMIMEHeaderKey k0 = name)) as [E|E].
    + f_equal. apply (Hall k0 v0); [|exact E].
      apply elem_of_app. right. by apply list_elem_of_singleton.
    + apply IH.
      * intros k' v' Hin' Hk'. apply (Hall k' v'); [|exact Hk'].
        apply elem_of_app. by left.
      * exists k. split; [|exact Hk].
        apply elem_of_app in Hin as [Hin|Hin]; [exact Hin|].
        apply list_elem_of_singleton in Hin. congruence.
Qed.

(** X23. The request of a chunk carries the range of the chunk: when the
    loop over the header map visits each of its entries once, and the
    caller has supplied no header whose name differs from [Range] only in
    the case of its letters, the request handed to the transport holds
    under [Range] the single value [bytes=start-(end-1)], whatever [Range]
    the caller has supplied. *)
Theorem chunk_request_range {St} (W : World St) (g : Globals)
    (d : HttpClientDetails St) (start end_ : Z) (url : string) (s : St) :
  rangeOrder W (Headers (withRange d start end_)) s
    ≡ₚ map_to_list (Headers (withRange d start end_)) ->
  (forall k, is_Some (Headers d !! k) ->
     textproto.CanonicalMIMEHeaderKey k = "Range" -> k = "Range") ->
  req_Header (sentRequest W g (withRange d start end_) "GET" url None s)
    !! "Range"
  = Some [rangeHeader start end_].
Proof.
  intros Hperm Hkeys. unfold sentRequest, decorateRequest.
  assert (Hcopy : forall req,
            req_Header
              (copyHeaders (rangeOrder W (Headers (withRange d start end_)) s)
                 req) !! "Range" = Some [rangeHeader start end_]).
  { intros req. rewrite copyHeaders_lookup.
    rewrite (lastValue_unique "Range" _ (rangeHeader start end_)); [done| |].
    - intros k v' Hin Hk. rewrite Hperm in Hin.
      apply elem_of_map_to_list in Hin. cbn [withRange Headers] in Hin.
      destruct (decide (k = "Range")) as [->|Hne].
      + rewrite lookup_insert_eq in Hin. congruence.
      + rewrite lookup_insert_ne in Hin by done.
        destruct Hne. apply Hkeys; [by eexists|exact Hk].
    - exists "Range". split; [|reflexivity]. rewrite Hperm.
      apply elem_of_map_to_list. cbn [withRange Headers].
      apply lookup_insert_eq. }
  unfold addUberTraceIdHeaderIfSet.
  destruct (String.eqb (uberTraceIdToken g) ""); [apply Hcopy|].
  rewrite setHeader_Header, lookup_insert_ne by (vm_compute; discriminate).
  apply Hcopy.
Qed.

Lemma chunk_request_range_witness :
  req_Header
    (sentRequest notFoundWorld (mkGlobals "")
       (withRange (mkDetails "" "" "" "" (<["Range" := "bytes=0-"]> ∅) [])
          5 10)
       "GET" "http://a/file" None 0%nat)
    !! "Range"
  = Some ["bytes=5-9"].
Proof.
  apply (chunk_request_range notFoundWorld (mkGlobals "")
           (mkDetails "" "" "" "" (<["Range" := "bytes=0-"]> ∅) []) 5 10
           "http://a/file" 0%nat).
  - reflexivity.
  - intros k [v Hv] _.
    destruct (decide (k = "Range")) as [->|Hne]; [reflexivity|].
    cbn [Headers] in Hv.
    rewrite lookup_insert_ne, lookup_empty in Hv by done. discriminate Hv.
Defined.

(** X27. A chunk whose request is answered by a status below 500, other
    than 429, costs one exchange. With status 206 the worker returns the
    name of its temporary file, the response and no error. With any other
    such status it returns the response without an error and with an empty
    file name: the failure shows in the status only. *)
Theorem chunk_worker_one_exchange {St} (W : World St) (g : Globals)
    (jc : HttpClient St) (tio : St -> TempIO) (fuel : nat)
    (flags : ConcurrentDownloadFlags) (c : Chunk) (prefix : string)
    (d : HttpClientDetails St) (s s1 : St) (resp : Response) :
  0 <= retries jc ->
  tmp_createErr (tio s) = None ->
  tmp_closeErr (tio s) = None ->
  newRequestErr W "GET" (DownloadPath flags) = None ->
  roundTrip W
    (sentRequest W g (withRange d (chunk_start c) (chunk_end c)) "GET"
       (DownloadPath flags) None s) s = (RTFinal resp, s1) ->
  resp_StatusCode resp < 500 ->
  resp_StatusCode resp <> 429 ->
  body_closeErr (resp_Body resp) = None ->
  (resp_StatusCode resp = StatusPartialContent ->
   tmp_mkdirErr (tio s) = None /\ tmp_writeErr (tio s) = None /\
   body_readErr (resp_Body resp) = None) ->
  chunkWorker W g jc tio (S fuel) flags c prefix d s
  = Some (mkRangeResult
            (if resp_StatusCode resp =? StatusPartialContent
             then tmp_name (tio s) else "")
            (Some resp) None, s1).
Proof.
  intros Hretries Hcreate Hclose Hnew Hrt Hlt Hne Hbody Hio.
  unfold chunkWorker, downloadFileRange.
  set (r := mkRangeResult
              (if resp_StatusCode resp =? StatusPartialContent
               then tmp_name (tio s) else "") (Some resp) None).
  rewrite (Execute_first W _ noRange s None r s1); [done|exact Hretries|].
  cbn [ExecutionHandler]. unfold rangeHandler, rangeAttempt,
    doDownloadFileRange.
  rewrite Hcreate, Hclose. cbn [CheckError].
  unfold sendGetForFileDownload, sendGetLeaveBodyOpen.
  rewrite (Send_body_open W g jc (withRange d (chunk_start c) (chunk_end c))
             (DownloadPath flags) s s1 resp Hretries Hlt Hne fuel "GET" None
             true "" Hnew Hrt).
  cbn [sr_err sr_resp]. rewrite Hbody. cbn [Join]. subst r.
  destruct (Z.eqb_spec (resp_StatusCode resp) StatusPartialContent) as [E|E];
    cbn [negb].
  - destruct (Hio E) as (-> & -> & ->). cbn [CheckError Join rr_err rr_resp].
    apply Z.ltb_lt in Hlt. by rewrite Hlt.
  - cbn [CheckError Join rr_err rr_resp]. apply Z.ltb_lt in Hlt.
    by rewrite Hlt.
Qed.

Lemma chunk_worker_one_exchange_witness :
  chunkWorker notFoundWorld (mkGlobals "") (plainClient nat 3)
    (fun _ => mkTempIO None "0_1234" None None None) 1
    (mkConcurrentDownloadFlags "file" "http://a/file" "file" "file"
       "dir" "" "" 5 1 false false false)
    (mkChunk 0 0 5) "" (anonymous nat) 0%nat
  = Some (mkRangeResult "" (Some resp404) None, 1%nat).
Proof.
  apply (chunk_worker_one_exchange notFoundWorld (mkGlobals "")
           (plainClient nat 3)
           (fun _ => mkTempIO None "0_1234" None None None) 0
           (mkConcurrentDownloadFlags "file" "http://a/file" "file" "file"
              "dir" "" "" 5 1 false false false)
           (mkChunk 0 0 5) "" (anonymous nat) 0%nat 1%nat resp404).
  - cbn. lia.
  - reflexivity.
  - reflexivity.
  - reflexivity.
  - reflexivity.
  - cbn. lia.
  - cbn. lia.
  - reflexivity.
  - intros H. discriminate H.
Defined.

(** ** An upload whose file cannot be opened *)

Lemma retryLoop_invariant {St H} (W : World St) (runner : RetryExecutor St H)
    (P : St -> Prop) n last h s err h' s' :
  (forall h s again e h1 s1,
     ExecutionHandler runner h s = Some (again, e, h1, s1) -> P s -> P s1) ->
  (forall ms s, P s -> P (sleep W ms s)) ->
  P s ->
  retryLoop W runner n last h s = Some (err, h', s') ->
  P s'.
Proof.
  intros Hstep Hsleep. revert last h s.
  induction n as [|n IH]; intros last h s HP; cbn [retryLoop].
  - by intros [= <- <- <-].
  - destruct (ExecutionHandler runner h s) as [[[[again e] h1] s1]|] eqn:E;
      [|done].
    pose proof (Hstep _ _ _ _ _ _ E HP) as HP1.
    destruct again; cbn [negb]; [|by intros [= <- <- <-]].
    destruct n; [by apply IH|].
    destruct (contextDone (Context runner) s1); [by intros [= <- <- <-]|].
    apply IH. by apply Hsleep.
Qed.

(** X28. An upload whose local file cannot be opened never reaches the
    server: every attempt fails at [os.Open], every one of the
    [retries + 1] attempts is made, and the result is an error without a
    response. Whatever holds of the state at the start, and is kept by
    [os.Open] and by the sleeps between attempts, holds at the end. *)
Theorem upload_unopenable_file {St} (W : World St) (jc : HttpClient St)
    (fuel : nat) (localPath url prefix : string) (d : HttpClientDetails St)
    (opens : St -> nat) (P : St -> Prop) (s : St) :
  localPath <> "" ->
  (forall s0, exists e s1,
     osOpen W localPath s0 = (inl e, s1) /\ opens s1 = S (opens s0) /\
     (P s0 -> P s1)) ->
  (forall ms s0,
     opens (sleep W ms s0) = opens s0 /\ (P s0 -> P (sleep W ms s0))) ->
  P s ->
  exists e s',
    UploadFile W jc fuel localPath url prefix d s
    = Some (mkUploadResult None None (Some e), s') /\
    opens s' = (opens s + Z.to_nat (retries jc + 1))%nat /\
    P s'.
Proof.
  intros Hpath Hopen Hsleep HP.
  assert (Hhandler : forall h0 s0, exists e s1,
            uploadHandler W jc fuel localPath url prefix d h0 s0
            = Some (true, Some e, mkUploadResult None None (Some e), s1) /\
            opens s1 = (opens s0 + 1)%nat /\ (P s0 -> P s1)).
  { intros h0 s0. destruct (Hopen s0) as (e & s1 & Ho & Hc & Hkeep).
    exists e, s1. split; [|split; [lia|exact Hkeep]].
    unfold uploadHandler, doUploadFile.
    destruct (String.eqb_spec localPath ""); [done|]. cbn [negb].
    by rewrite Ho. }
  unfold UploadFile, Execute.
  set (runner := mkRetryExecutor _ _ _ _ _ _).
  destruct (retryLoop_total W runner (Z.to_nat (MaxRetries runner + 1)) None
              noUpload s) as [[[err h] s'] Hrun].
  { intros h0 s0. subst runner. cbn [ExecutionHandler].
    destruct (Hhandler h0 s0) as (e & s1 & -> & _). by eexists. }
  rewrite Hrun.
  assert (Hc : opens s' = (opens s + Z.to_nat (MaxRetries runner + 1) * 1)%nat).
  { apply (retryLoop_count_by W runner opens 1 _ None noUpload s err h s');
      [reflexivity| |apply Hsleep|exact Hrun].
    intros h0 s0 again e0 h1 s1. subst runner. cbn [ExecutionHandler].
    destruct (Hhandler h0 s0) as (e & s2 & -> & Hc & _).
    intros [= <- _ _ <-]. done. }
  assert (HP' : P s').
  { apply (retryLoop_invariant W runner P (Z.to_nat (MaxRetries runner + 1))
             None noUpload s err h s');
      [|intros ms s0; apply Hsleep|exact HP|exact Hrun].
    intros h0 s0 again e0 h1 s1. subst runner. cbn [ExecutionHandler].
    destruct (Hhandler h0 s0) as (e & s2 & -> & _ & Hkeep).
    intros [= _ _ _ <-]. exact Hkeep. }
  assert (Hpost : is_Some err /\ ur_resp h = None /\ ur_body h = None).
  { apply (retryLoop_post W runner
             (fun h => ur_resp h = None /\ ur_body h = None)
             (fun err h => is_Some err /\ ur_resp h = None /\ ur_body h = None)
             (Z.to_nat (MaxRetries runner + 1)) None noUpload s err h s');
      [| |done|exact Hrun].
    - intros h0 s0 again e0 h1 s1. subst runner. cbn [ExecutionHandler].
      destruct (Hhandler h0 s0) as (e & s2 & -> & _).
      intros [= <- <- <- <-]. split; [done|]. intros [=].
    - intros e0 h0 HP0. split; [by eexists|exact HP0]. }
  destruct Hpost as ([e ->] & -> & ->).
  exists e, s'. split; [done|]. split; [|exact HP'].
  subst runner. cbn [MaxRetries] in Hc. lia.
Qed.

Lemma upload_unopenable_file_witness :
  exists e s',
    UploadFile lockedWorld (plainClient (nat * nat) 3) 0 "missing"
      "http://a/file" "" (anonymous (nat * nat)) (0%nat, 0%nat)
    = Some (mkUploadResult None None (Some e), s') /\
    s' = (0%nat, 4%nat).
Proof.
  destruct (upload_unopenable_file lockedWorld (plainClient (nat * nat) 3) 0
              "missing" "http://a/file" "" (anonymous (nat * nat)) snd
              (fun s => s.1 = 0%nat) (0%nat, 0%nat))
    as (e & [requests opens] & H & Hopens & HP).
  - discriminate.
  - intros [requests opens]. exists "permission denied", (requests, S opens).
    split; [reflexivity|]. split; [reflexivity|]. intros H. exact H.
  - intros ms [requests opens]. split; [reflexivity|]. intros H. exact H.
  - reflexivity.
  - exists e, (requests, opens). split; [exact H|].
    cbn in Hopens, HP. by subst.
Defined.

(** ** The form of the expected digest *)

Lemma allChars_eq p s t : s = t -> allChars p s = allChars p t.
Proof. by intros ->. Qed.

(** X9. The comparison of digests is one of strings, and the digest
    computed is written in lower-case hexadecimal digits: an expected
    SHA-1 that holds any other character, an upper-case digit for one,
    is never verified. With a file system that works, the single-stream
    download and the merge, of one chunk file for each of the [SplitCount]
    chunks, return an error whatever bytes they write. *)
Theorem digest_comparison_is_exact (D : Digests)
    (details : DownloadFileDetails) (resp : Response)
    (chunks : list ChunkFile) (flags : ConcurrentDownloadFlags) :
  allChars isLowerHexDigit (dfd_ExpectedSha1 details) = false ->
  dfd_SkipChecksum details = false ->
  body_readErr (resp_Body resp) = None ->
  allChars isLowerHexDigit (ExpectedSha1 flags) = false ->
  SkipChecksum flags = false ->
  length chunks = Z.to_nat (SplitCount flags) ->
  Forall (fun c => cf_openErr c = None /\ cf_copyErr c = None /\
                   cf_closeErr c = None) chunks ->
  (exists e h, saveToFile D details resp ioFine = Returned (Some e, h)) /\
  (exists e h, mergeChunks D chunks flags ioFine = Returned (Some e, h)).
Proof.
  intros Hd Hdskip Hread Hf Hfskip Hcount Hchunks.
  assert (Hmis : forall expected data fileName,
            allChars isLowerHexDigit expected = false ->
            exists e,
              validateChecksum D expected (Some (mkHash SHA1 data)) fileName
              = Returned (Some e)).
  { intros expected data fileName Hx. unfold validateChecksum.
    destruct (String.eqb_spec
                (hex.EncodeToString (hashSum D (mkHash SHA1 data))) expected)
      as [Heq|Hneq]; cbn [negb]; [|by eexists].
    apply (allChars_eq isLowerHexDigit) in Heq.
    rewrite (proj1 (hex_EncodeToString_lower _)), Hx in Heq. discriminate. }
  assert (Hne : forall x, allChars isLowerHexDigit x = false -> x <> "")
    by (by intros x Hx ->).
  split.
  - unfold saveToFile, ioFine, copyErr.
    cbn [io_pathErr io_createErr io_writeErr io_closeErr CheckError].
    rewrite (handleExpectedSha_sha1 _ _ (Hne _ Hd)), len_pos, Hdskip, Hread.
    destruct (String.eqb_spec (dfd_ExpectedSha1 details) "") as [E|_];
      [by apply Hne in E|].
    cbn [andb negb].
    change (hashWrite (body_data (resp_Body resp)) <$> Some (newHash SHA1))
      with (Some (mkHash SHA1 (body_data (resp_Body resp)))).
    destruct (Hmis (dfd_ExpectedSha1 details) (body_data (resp_Body resp))
                (dfd_LocalFileName details) Hd) as [e ->].
    by eexists _, _.
  - unfold mergeChunks, ioFine.
    cbn [io_pathErr io_createErr io_writeErr io_closeErr CheckError].
    rewrite (handleExpectedSha_sha1 _ _ (Hne _ Hf)), <- Hcount.
    rewrite (mergeLoop_fine chunks (newHash SHA1) Hchunks), len_pos, Hfskip.
    destruct (String.eqb_spec (ExpectedSha1 flags) "") as [E|_];
      [by apply Hne in E|].
    cbn [andb negb newHash hash_alg hash_written].
    destruct (Hmis (ExpectedSha1 flags) ("" +:+ chunkData chunks)
                (LocalFileName flags) Hf) as [e ->].
    by eexists _, _.
Qed.

Lemma digest_comparison_is_exact_witness :
  exists e h,
    saveToFile sampleDigests
      (mkDownloadFileDetails "file" "http://a/file" "file" "dir" "file"
         "6C6C" "" 5 false) helloResponse ioFine
    = Returned (Some e, h).
Proof.
  destruct (digest_comparison_is_exact sampleDigests
              (mkDownloadFileDetails "file" "http://a/file" "file" "dir" "file"
                 "6C6C" "" 5 false) helloResponse
              [mkChunkFile None "hello" None None]
              (mkConcurrentDownloadFlags "file" "http://a/file" "file" "file"
                 "dir" "6C6C" "" 5 1 false false false)) as [H _].
  - reflexivity.
  - reflexivity.
  - reflexivity.
  - reflexivity.
  - reflexivity.
  - reflexivity.
  - repeat constructor.
  - exact H.
Defined.
